(** * Markdown post-processing scripts: a shallow embedding

    The repository is a set of stand-alone Python scripts.  The ones
    verified here are the text transforms over one Markdown file:

    - [How-X-works/replace_br_tags.py]
    - [How-X-works/promote_headings.py]
    - [How-X-works/remove_emojis.py]
    - [How-X-works/add_python_snippets.py]
    - [How-X-works/replace_code_with_png.py]
    - [javascript-and-design/add_newlines_before_lists.py]
    - [javascript-and-design/convert_to_org.py]
    - [generate_diagrams.py]

    A Python [str] is a sequence of Unicode code points and is modelled
    as [list N].  The scripts lean on the [re] module; its backtracking
    matcher is embedded once (module [Re]) and every pattern of the
    source is transcribed as a term of the pattern syntax.

    The first part is the embedding, one module per script; the second
    part, Properties, states and proves what the scripts do. *)

From Stdlib Require Import String Ascii DecimalString.
From Stdlib Require Import List NArith ZArith Bool Lia Arith.
Import ListNotations.

(* ================================================================== *)
(** * Python strings *)
(* ================================================================== *)

Module Py.

(** A string is the list of its code points. *)
Definition str := list N.

(** An ASCII literal of the source. *)
Definition py (s : string) : str :=
  map N_of_ascii (list_ascii_of_string s).
Arguments py s%_string.

Definition chr (a : ascii) : N := N_of_ascii a.
Arguments chr a%_char.

Definition NL : N := 10.
Definition SP : N := 32.

Definition in_range (lo hi c : N) : bool := ((lo <=? c) && (c <=? hi))%N.

(** [str.isspace] on one code point, which is also what [\s] matches in
    a [str] pattern: the code points CPython's [_PyUnicode_IsWhitespace]
    accepts. *)
Definition isspace (c : N) : bool :=
  in_range 0x09 0x0D c || in_range 0x1C 0x1F c || (c =? 0x20)%N
  || (c =? 0x85)%N || (c =? 0xA0)%N || (c =? 0x1680)%N
  || in_range 0x2000 0x200A c || (c =? 0x2028)%N || (c =? 0x2029)%N
  || (c =? 0x202F)%N || (c =? 0x205F)%N || (c =? 0x3000)%N.

Fixpoint dropWhile (p : N -> bool) (s : str) : str :=
  match s with
  | c :: tl => if p c then dropWhile p tl else s
  | [] => []
  end.

(** [s.lstrip()], [s.rstrip()], [s.strip()] *)
Definition lstrip (s : str) : str := dropWhile isspace s.
Definition rstrip (s : str) : str := rev (dropWhile isspace (rev s)).
Definition strip (s : str) : str := rstrip (lstrip s).

(** [s.strip(chars)] for an explicit set of characters *)
Definition strip_chars (cs : str) (s : str) : str :=
  let p c := existsb (N.eqb c) cs in
  rev (dropWhile p (rev (dropWhile p s))).

Fixpoint str_eqb (a b : str) : bool :=
  match a, b with
  | [], [] => true
  | x :: a', y :: b' => (x =? y)%N && str_eqb a' b'
  | _, _ => false
  end.

(** [s.startswith(p)] *)
Fixpoint startswith (p s : str) : bool :=
  match p, s with
  | [], _ => true
  | x :: p', y :: s' => (x =? y)%N && startswith p' s'
  | _ :: _, [] => false
  end.

(** [s.endswith(p)] *)
Definition endswith (p s : str) : bool := startswith (rev p) (rev s).

(** [p in s] *)
Fixpoint contains (p s : str) : bool :=
  startswith p s || match s with [] => false | _ :: tl => contains p tl end.

(** [s.replace(old, new)]: the occurrences of [old] are taken from the
    left and do not overlap.  [skip] counts the characters of an
    occurrence still to be passed over. *)
Fixpoint replace_go (old new : str) (skip : nat) (s : str) : str :=
  match s with
  | [] => []
  | c :: tl =>
      match skip with
      | S k => replace_go old new k tl
      | O => if startswith old s
             then new ++ replace_go old new (length old - 1) tl
             else c :: replace_go old new 0 tl
      end
  end.

Definition replace (old new s : str) : str :=
  match old with
  | [] => new ++ flat_map (fun c => c :: new) s
  | _ :: _ => replace_go old new 0 s
  end.

(** [s.split('\n')]: never empty, one more piece than there are newlines. *)
Fixpoint split_nl (s : str) : list str :=
  match s with
  | [] => [[]]
  | c :: tl =>
      if (c =? NL)%N then [] :: split_nl tl
      else match split_nl tl with
           | l :: ls => (c :: l) :: ls
           | [] => [[c]]
           end
  end.

(** ['\n'.join(ls)] *)
Fixpoint join_nl (ls : list str) : str :=
  match ls with
  | [] => []
  | [l] => l
  | l :: ls' => l ++ NL :: join_nl ls'
  end.

(** [f.readlines()]: the text cut after every newline, the newline kept
    with its line; a last line without newline is kept as it is. *)
Fixpoint readlines (s : str) : list str :=
  match s with
  | [] => []
  | c :: tl =>
      if (c =? NL)%N then [c] :: readlines tl
      else match readlines tl with
           | l :: ls => (c :: l) :: ls
           | [] => [[c]]
           end
  end.

(** [f.writelines(ls)] writes the lines one after the other. *)
Definition writelines (ls : list str) : str := concat ls.

(** [s[:n]] and [s[n:]] for [n >= 0] *)
Definition slice_to (n : nat) (s : str) : str := firstn n s.
Definition slice_from (n : nat) (s : str) : str := skipn n s.

(** [str(n)] for a natural number *)
Definition str_of_nat (n : nat) : str :=
  py (NilEmpty.string_of_uint (Nat.to_uint n)).

(** [ls[i] = x] for an index in range (Python raises IndexError when
    it is not; the scripts assign under a bounds test) *)
Fixpoint set_nth (i : nat) (x : str) (ls : list str) : list str :=
  match ls, i with
  | [], _ => []
  | _ :: tl, O => x :: tl
  | l :: tl, S i' => l :: set_nth i' x tl
  end.

Definition is_ascii_upper (c : N) : bool := in_range 65 90 c.
Definition is_ascii_lower (c : N) : bool := in_range 97 122 c.
Definition is_ascii_digit (c : N) : bool := in_range 48 57 c.
Definition is_ascii_alpha (c : N) : bool := is_ascii_upper c || is_ascii_lower c.

Definition ascii_lower (c : N) : N := if is_ascii_upper c then (c + 32)%N else c.
Definition ascii_upper (c : N) : N := if is_ascii_lower c then (c - 32)%N else c.

(** The part of the Unicode character database the scripts consult
    through [str.lower], [str.upper], [str.title] and the classes [\w]
    and [\d].  The database belongs to the interpreter, not to the
    repository, so it is an interface here; below 128 the answers are
    fixed by the definitions that follow and the tables are consulted
    for the other code points only. *)
Class Unicode := {
  (** [str.isalnum] of a code point: with [_], what [\w] matches *)
  uni_alnum : N -> bool;
  (** decimal digits (category Nd): what [\d] matches *)
  uni_decimal : N -> bool;
  (** lower-case expansion of the character at an index of a string
      (the expansion of capital sigma depends on its neighbours) *)
  uni_lower_at : str -> nat -> str;
  (** upper-case and title-case expansions of a code point *)
  uni_upper : N -> str;
  uni_title : N -> str;
  (** whether a code point is cased *)
  uni_cased : N -> bool
}.

(** Tables that know no letter, digit or case above U+007F; they
    serve to run the scripts on ASCII texts, which never consult them. *)
Definition ascii_only : Unicode :=
  {| uni_alnum := fun _ => false;
     uni_decimal := fun _ => false;
     uni_lower_at := fun s i => firstn 1 (skipn i s);
     uni_upper := fun c => [c];
     uni_title := fun c => [c];
     uni_cased := fun _ => false |}.

Section WithUnicode.
Context {U : Unicode}.

Definition is_word (c : N) : bool :=
  if (c <? 128)%N
  then is_ascii_alpha c || is_ascii_digit c || (c =? chr "_")%N
  else uni_alnum c.

Definition is_digit (c : N) : bool :=
  if (c <? 128)%N then is_ascii_digit c else uni_decimal c.

Definition lower_at (s : str) (i : nat) (c : N) : str :=
  if (c <? 128)%N then [ascii_lower c] else uni_lower_at s i.

Fixpoint lower_from (s : str) (i : nat) (t : str) : str :=
  match t with
  | [] => []
  | c :: tl => lower_at s i c ++ lower_from s (S i) tl
  end.

(** [s.lower()] *)
Definition lower (s : str) : str := lower_from s 0 s.

(** [s.upper()] *)
Definition upper (s : str) : str :=
  flat_map (fun c => if (c <? 128)%N then [ascii_upper c] else uni_upper c) s.

Definition is_cased (c : N) : bool :=
  if (c <? 128)%N then is_ascii_alpha c else uni_cased c.

Fixpoint title_from (s : str) (i : nat) (previous_is_cased : bool) (t : str) : str :=
  match t with
  | [] => []
  | c :: tl =>
      (if previous_is_cased then lower_at s i c
       else if (c <? 128)%N then [ascii_upper c] else uni_title c)
      ++ title_from s (S i) (is_cased c) tl
  end.

(** [s.title()] *)
Definition title (s : str) : str := title_from s 0 false s.

End WithUnicode.

End Py.
Import Py.

(* ================================================================== *)
(** * The [re] module: a backtracking matcher *)
(* ================================================================== *)

Module Re.

(** The matcher's position in the subject: the text already passed
    (nearest character first, for look-behind), the text to come and
    the groups captured so far (latest binding first). *)
Record state := mkState {
  prev : str;
  rest : str;
  caps : list (nat * str)
}.

Inductive re :=
| Eps                                (* the empty pattern *)
| Chr (p : N -> bool)                (* a literal, a class, [.] *)
| Seq (a b : re)
| Alt (a b : re)                     (* [a|b], also [a?] as [a|] *)
| Star (greedy : bool) (a : re)      (* [a*] and [a*?] *)
| Group (i : nat) (a : re)           (* the i-th capturing group *)
| Ahead (a : re)                     (* [(?=a)] *)
| NotAhead (a : re)                  (* [(?!a)] *)
| NotBehind (p : N -> bool)          (* [(?<!c)], one character *)
| Bol                                (* [^] without MULTILINE *)
| Eol                                (* [$] without MULTILINE *)
| Eos.                               (* [\Z] *)

(** Derived forms. *)
Definition Plus (greedy : bool) (a : re) : re := Seq a (Star greedy a).
Definition Opt (a : re) : re := Alt a Eps.
Fixpoint seq (rs : list re) : re :=
  match rs with
  | [] => Eps
  | [r] => r
  | r :: rs' => Seq r (seq rs')
  end.
(** [a{0,n}], greedy *)
Fixpoint upto (n : nat) (a : re) : re :=
  match n with
  | O => Eps
  | S n' => Opt (Seq a (upto n' a))
  end.
(** [a{m,m+n}], greedy *)
Fixpoint rep (m n : nat) (a : re) : re :=
  match m with
  | O => upto n a
  | S m' => Seq a (rep m' n a)
  end.

(** Character tests. *)
Definition lit (a : N) : N -> bool := fun c => (c =? a)%N.
Definition any : N -> bool := fun _ => true.
(** [.] without DOTALL *)
Definition dot : N -> bool := fun c => negb (c =? NL)%N.
Definition none_of (cs : str) : N -> bool := fun c => negb (existsb (N.eqb c) cs).
Definition one_of (cs : str) : N -> bool := fun c => existsb (N.eqb c) cs.
(** An ASCII letter under IGNORECASE.  (For the letters the scripts
    use this way, [b] and [r], no other code point folds to them.) *)
Definition ci (a : N) : N -> bool :=
  fun c => (c =? ascii_lower a)%N || (c =? ascii_upper a)%N.
(** A literal string. *)
Definition str_lit (s : str) : re := seq (map (fun c => Chr (lit c)) s).

Definition advance (c : N) (tl : str) (st : state) : state :=
  mkState (c :: prev st) tl (caps st).

Definition consumed (st e : state) : nat := length (rest st) - length (rest e).

Definition set_cap (i : nat) (st e : state) : state :=
  mkState (prev e) (rest e) ((i, firstn (consumed st e) (rest st)) :: caps e).

(** The iterations of a star: [body] is tried as long as it moves on;
    [n] bounds the number of iterations by the length of the text to come. *)
Fixpoint star_loop (body : state -> list state) (greedy : bool) (n : nat)
    (st : state) : list state :=
  match n with
  | O => [st]
  | S n' =>
      let more :=
        flat_map (fun e => if length (rest e) <? length (rest st)
                           then star_loop body greedy n' e else [])
                 (body st) in
      if greedy then more ++ [st] else st :: more
  end.

(** All the ways the pattern matches at the position, in the order the
    backtracking matcher tries them: the first is the match [re] reports. *)
Fixpoint run (r : re) (st : state) : list state :=
  match r with
  | Eps => [st]
  | Chr p =>
      match rest st with
      | c :: tl => if p c then [advance c tl st] else []
      | [] => []
      end
  | Seq a b => flat_map (run b) (run a st)
  | Alt a b => run a st ++ run b st
  | Star g a => star_loop (run a) g (length (rest st)) st
  | Group i a => map (set_cap i st) (run a st)
  | Ahead a => match run a st with [] => [] | _ :: _ => [st] end
  | NotAhead a => match run a st with [] => [st] | _ :: _ => [] end
  | NotBehind p =>
      match prev st with
      | c :: _ => if p c then [] else [st]
      | [] => [st]
      end
  | Bol => match prev st with [] => [st] | _ :: _ => [] end
  | Eol =>
      match rest st with
      | [] => [st]
      | [c] => if (c =? NL)%N then [st] else []
      | _ => []
      end
  | Eos => match rest st with [] => [st] | _ :: _ => [] end
  end.

Definition start (pre s : str) : state := mkState pre s [].

(** The match at a position, if any. *)
Definition match_at (r : re) (pre s : str) : option state :=
  hd_error (run r (start pre s)).

(** The first match at a position that is not empty. *)
Definition match_advancing (r : re) (pre s : str) : option state :=
  let st := start pre s in
  hd_error (filter (fun e => length (rest e) <? length (rest st)) (run r st)).

(** [m.group(i)] *)
Fixpoint lookup (i : nat) (cs : list (nat * str)) : option str :=
  match cs with
  | [] => None
  | (j, s) :: cs' => if Nat.eqb i j then Some s else lookup i cs'
  end.
Definition group (i : nat) (e : state) : str :=
  match lookup i (caps e) with Some s => s | None => [] end.

(** [re.match(r, s)] *)
Definition re_match (r : re) (s : str) : option state := match_at r [] s.

(** [re.search(r, s)]: the match at the leftmost position that has one. *)
Fixpoint search_from (r : re) (pre s : str) : option state :=
  match match_at r pre s with
  | Some e => Some e
  | None => match s with
            | [] => None
            | c :: tl => search_from r (c :: pre) tl
            end
  end.
Definition re_search (r : re) (s : str) : option state := search_from r [] s.

(** [re.sub(r, repl, s)], where [repl] builds the replacement from the
    match.  The subject is scanned from the left; [skip] counts the
    characters of the last match still to be passed over.  After an
    empty match the matcher must advance: a second, non-empty match is
    looked for at the same position before the character is copied. *)
Fixpoint sub_go (r : re) (repl : state -> str) (skip : nat) (pre s : str) : str :=
  match skip with
  | S k =>
      match s with
      | [] => []
      | c :: tl => sub_go r repl k (c :: pre) tl
      end
  | O =>
      match s with
      | [] => match match_at r pre [] with Some e => repl e | None => [] end
      | c :: tl =>
          match match_at r pre s with
          | None => c :: sub_go r repl 0 (c :: pre) tl
          | Some e =>
              match consumed (start pre s) e with
              | S k => repl e ++ sub_go r repl k (c :: pre) tl
              | O =>
                  repl e ++
                  match match_advancing r pre s with
                  | Some e' =>
                      repl e' ++
                      sub_go r repl (consumed (start pre s) e' - 1) (c :: pre) tl
                  | None => c :: sub_go r repl 0 (c :: pre) tl
                  end
              end
          end
      end
  end.

Definition re_sub (r : re) (repl : state -> str) (s : str) : str :=
  sub_go r repl 0 [] s.

(** [len(re.findall(r, s))]: the number of matches [re.sub] would replace. *)
Fixpoint count_go (r : re) (skip : nat) (pre s : str) : nat :=
  match skip with
  | S k =>
      match s with
      | [] => 0
      | c :: tl => count_go r k (c :: pre) tl
      end
  | O =>
      match s with
      | [] => match match_at r pre [] with Some _ => 1 | None => 0 end
      | c :: tl =>
          match match_at r pre s with
          | None => count_go r 0 (c :: pre) tl
          | Some e =>
              match consumed (start pre s) e with
              | S k => 1 + count_go r k (c :: pre) tl
              | O =>
                  1 + match match_advancing r pre s with
                      | Some e' =>
                          1 + count_go r (consumed (start pre s) e' - 1) (c :: pre) tl
                      | None => count_go r 0 (c :: pre) tl
                      end
              end
          end
      end
  end.

Definition count_matches (r : re) (s : str) : nat := count_go r 0 [] s.

(** What the greedy star of a class yields on a text, longest
    iteration first (see [run_star_chr]). *)
Fixpoint star_chr (p : N -> bool) (pre s : str) (cs : list (nat * str))
    : list state :=
  match s with
  | c :: tl =>
      if p c then star_chr p (c :: pre) tl cs ++ [mkState pre s cs]
      else [mkState pre s cs]
  | [] => [mkState pre [] cs]
  end.

(** What the lazy star of [.] under DOTALL yields on a text, shortest
    iteration first (see [run_lazy_any]). *)
Fixpoint lazy_all (pre s : str) (cs : list (nat * str)) : list state :=
  mkState pre s cs ::
  match s with
  | c :: tl => lazy_all (c :: pre) tl cs
  | [] => []
  end.

(** A lower bound on the length of what a pattern matches. *)
Fixpoint min_len (r : re) : nat :=
  match r with
  | Chr _ => 1
  | Seq a b => min_len a + min_len b
  | Alt a b => Nat.min (min_len a) (min_len b)
  | Group _ a => min_len a
  | _ => 0
  end.

End Re.
Import Re.

(* ================================================================== *)
(** * How-X-works/replace_br_tags.py *)
(* ================================================================== *)

Module ReplaceBrTags.

(** [r'<br\s*/?\s*>'] under [re.IGNORECASE] *)
Definition br_tag : re :=
  seq [ Chr (lit (chr "<")); Chr (ci (chr "b")); Chr (ci (chr "r"));
        Star true (Chr isspace); Opt (Chr (lit (chr "/")));
        Star true (Chr isspace); Chr (lit (chr ">")) ].

(** [r'<br>'] under [re.IGNORECASE], the pattern the script counts with *)
Definition br_plain : re :=
  seq [ Chr (lit (chr "<")); Chr (ci (chr "b")); Chr (ci (chr "r"));
        Chr (lit (chr ">")) ].

(** The replacement ['\n'] *)
Definition nl_repl : state -> str := fun _ => [NL].

(** [content = re.sub(r'<br\s*/?\s*>', '\n', content, flags=re.IGNORECASE)] *)
Definition replace_br_tags (content : str) : str :=
  re_sub br_tag nl_repl content.

(** What [main] computes from the text of [master_output.md]: the
    counts it prints and the text it writes to [master_output_no_br.md]. *)
Record report := mkReport {
  br_count : nat;
  remaining_br : nat;
  replaced : Z;
  written : str
}.

Definition main (content : str) : report :=
  let br_count := count_matches br_plain content in
  let content := replace_br_tags content in
  let remaining_br := count_matches br_plain content in
  mkReport br_count remaining_br (Z.of_nat br_count - Z.of_nat remaining_br) content.

(** The text starts with [<br>] in some letter case. *)
Definition br_at (t : str) : bool :=
  match t with
  | a :: b :: r :: g :: _ =>
      lit (chr "<") a && ci (chr "b") b && ci (chr "r") r && lit (chr ">") g
  | _ => false
  end.

(** No [<br>], in any letter case, anywhere in the text. *)
Definition no_br (s : str) : Prop :=
  forall p t, s = p ++ t -> br_at t = false.

End ReplaceBrTags.

(* ================================================================== *)
(** * How-X-works/promote_headings.py *)
(* ================================================================== *)

Module PromoteHeadings.

(** [r'^(#+)\s'] *)
Definition heading : re :=
  seq [ Bol; Group 1 (Plus true (Chr (lit (chr "#")))); Chr isspace ].

(** The body of the [for] loop: the line appended to [new_lines]. *)
Definition promote_line (line : str) : str :=
  if startswith (py "#") line then
    match re_match heading line with
    | Some heading_match =>
        let hashes := group 1 heading_match in
        if 1 <? length hashes then slice_from 1 line else line
    | None => line
    end
  else line.

(** [new_lines] after the loop over [lines]. *)
Definition promote_headings (lines : list str) : list str :=
  fold_left (fun new_lines line => new_lines ++ [promote_line line]) lines [].

(** The script: what is written back to [master_output.md]. *)
Definition main (content : str) : str :=
  writelines (promote_headings (readlines content)).

(** The lines [readlines] returns: a line is not empty and has no
    newline but at its end; every line but the last ends with one. *)
Fixpoint line_ok (last : bool) (l : str) : bool :=
  match l with
  | [] => false
  | c :: tl =>
      match tl with
      | [] => last || (c =? NL)%N
      | _ :: _ => negb (c =? NL)%N && line_ok last tl
      end
  end.
Fixpoint lines_ok (ls : list str) : bool :=
  match ls with
  | [] => true
  | l :: ls' =>
      match ls' with
      | [] => line_ok true l
      | _ :: _ => line_ok false l && lines_ok ls'
      end
  end.

End PromoteHeadings.

(* ================================================================== *)
(** * How-X-works/remove_emojis.py *)
(* ================================================================== *)

Module RemoveEmojis.

(** The ranges of the character class of [emoji_pattern], in the order
    of the source; a single character is a range of one. *)
Definition emoji_ranges : list (N * N) :=
  [ (0x1F600, 0x1F64F); (0x1F300, 0x1F5FF); (0x1F680, 0x1F6FF);
    (0x1F1E0, 0x1F1FF); (0x2702, 0x27B0); (0x24C2, 0x1F251);
    (0x1F900, 0x1F9FF); (0x1FA00, 0x1FA6F); (0x1FA70, 0x1FAFF);
    (0x2600, 0x26FF); (0x2700, 0x27BF); (0x1F018, 0x1F270);
    (0x1F300, 0x1F5FF); (0x1F680, 0x1F6FF); (0x2600, 0x26FF);
    (0x2700, 0x27BF); (0xFE00, 0xFE0F); (0x200D, 0x200D);
    (0x2640, 0x2642); (0x2695, 0x2695); (0x2699, 0x2699);
    (0x269B, 0x269C); (0x26A0, 0x26A1); (0x26AA, 0x26AB);
    (0x26B0, 0x26B1); (0x26BD, 0x26BE); (0x26C4, 0x26C5);
    (0x26CE, 0x26CE); (0x26D4, 0x26D4); (0x26EA, 0x26EA);
    (0x26F2, 0x26F3); (0x26F5, 0x26F5); (0x26FA, 0x26FA);
    (0x26FD, 0x26FD); (0x2705, 0x2705); (0x270A, 0x270B);
    (0x2728, 0x2728); (0x274C, 0x274C); (0x274E, 0x274E);
    (0x2753, 0x2755); (0x2757, 0x2757); (0x2795, 0x2797);
    (0x27B0, 0x27B0); (0x27BF, 0x27BF); (0x2B1B, 0x2B1C);
    (0x2B50, 0x2B50); (0x2B55, 0x2B55); (0x3030, 0x3030);
    (0x303D, 0x303D); (0x3297, 0x3297); (0x3299, 0x3299) ]%N.

Definition in_emoji_class (c : N) : bool :=
  existsb (fun r => in_range (fst r) (snd r) c) emoji_ranges.

(** [emoji_pattern]: ["[...]+"] *)
Definition emoji_pattern : re := Plus true (Chr in_emoji_class).

(** The literals of the [text.replace(..., '')] calls, in order.  They
    are the emoji of the original document read in a wrong encoding. *)
Definition mojibake : list str :=
  [ [0x201A; 0xFA; 0xD6]; [0x201A; 0xF9; 0xE5]; [0x201A; 0xFA; 0xEC];
    [0x201A; 0xFA; 0xF3]; [0x201A; 0xF6; 0x2020; 0xD4; 0x220F; 0xE8];
    [0x201A; 0xF6; 0x2020]; [0xF8FF; 0xFC; 0xE9; 0xE2];
    [0xF8FF; 0xFC; 0xE9; 0xD8]; [0xF8FF; 0xFC; 0xEC; 0xE4];
    [0xF8FF; 0xFC; 0xEC; 0xC5]; [0xF8FF; 0xFC; 0xEC; 0x220F];
    [0xF8FF; 0xFC; 0xEE; 0xD1]; [0x201A; 0x2260; 0xEA];
    [0xF8FF; 0xFC; 0xF6; 0xC4]; [0xF8FF; 0xFC; 0xED; 0xB0];
    [0xF8FF; 0xFC; 0xEE; 0xE7]; [0xF8FF; 0xFC; 0xEC; 0xF9];
    [0xF8FF; 0xFC; 0xE8; 0x2020]; [0xF8FF; 0xFC; 0xEC; 0xB6];
    [0xF8FF; 0xFC; 0xE5; 0xEA] ]%N.

(** [r' +'] *)
Definition spaces : re := Plus true (Chr (lit SP)).

(** [r'\n\s*\n\s*\n'] *)
Definition blank_lines : re :=
  seq [ Chr (lit NL); Star true (Chr isspace); Chr (lit NL);
        Star true (Chr isspace); Chr (lit NL) ].

Definition remove_emojis (text : str) : str :=
  let text := re_sub emoji_pattern (fun _ => []) text in
  let text := fold_left (fun text old => replace old [] text) mojibake text in
  let text := re_sub spaces (fun _ => [SP]) text in
  let text := re_sub blank_lines (fun _ => [NL; NL]) text in
  text.

(** What [main] computes from the text it reads: the sizes it prints
    and the text it writes to [master_output_no_emojis.md]. *)
Record report := mkReport {
  original_length : Z;
  cleaned_length : Z;
  removed : Z;
  written : str
}.

Definition main (content : str) : report :=
  let original_length := Z.of_nat (length content) in
  let cleaned_content := remove_emojis content in
  let cleaned_length := Z.of_nat (length cleaned_content) in
  mkReport original_length cleaned_length
           (original_length - cleaned_length) cleaned_content.

(** No two spaces side by side in the text. *)
Fixpoint single_spaced (s : str) : bool :=
  match s with
  | [] => true
  | x :: tl =>
      match tl with
      | y :: _ => negb ((x =? SP)%N && (y =? SP)%N)
      | [] => true
      end && single_spaced tl
  end.

(** The number of newlines in the white space a text starts with. *)
Fixpoint space_newlines (s : str) : nat :=
  match s with
  | c :: tl =>
      if isspace c
      then (if (c =? NL)%N then 1 else 0) + space_newlines tl
      else 0
  | [] => 0
  end.

(** The number of newlines a text starts with. *)
Fixpoint newline_run (s : str) : nat :=
  match s with
  | c :: tl => if (c =? NL)%N then S (newline_run tl) else 0
  | [] => 0
  end.

(** Nowhere in the text more than two newlines in a row. *)
Fixpoint no_blank_run (s : str) : bool :=
  match s with
  | [] => true
  | _ :: tl => (newline_run s <=? 2) && no_blank_run tl
  end.

(** U+231A WATCH is an emoji (it has the properties Emoji and
    Emoji_Presentation in Unicode's emoji-data.txt). *)
Definition WATCH : N := 0x231A.

End RemoveEmojis.

(* ================================================================== *)
(** * javascript-and-design/add_newlines_before_lists.py *)
(* ================================================================== *)

Module AddNewlines.
Section WithUnicode.
Context {U : Unicode}.

(** [r'^[-*+]\s'] *)
Definition unordered : re :=
  seq [ Bol; Chr (one_of (py "-*+")); Chr isspace ].

(** [r'^\d+[.)]\s'] *)
Definition ordered : re :=
  seq [ Bol; Plus true (Chr is_digit); Chr (one_of (py ".)")); Chr isspace ].

Definition is_list_item (line : str) : bool :=
  let stripped := lstrip line in
  match re_match unordered stripped with
  | Some _ => true
  | None =>
      match re_match ordered stripped with
      | Some _ => true
      | None => false
      end
  end.

Definition is_blank_line (line : str) : bool := str_eqb (strip line) [].

Definition is_code_fence (line : str) : bool := startswith (py "```") (strip line).

(** The [for i, line in enumerate(lines)] loop: [todo] is what is left
    of [lines] from index [i] on. *)
Fixpoint loop (lines : list str) (i : nat) (todo : list str)
    (in_code_block : bool) (result : list str) : list str :=
  match todo with
  | [] => result
  | line :: todo' =>
      if is_code_fence line then
        loop lines (S i) todo' (negb in_code_block) (result ++ [line])
      else if in_code_block then
        loop lines (S i) todo' in_code_block (result ++ [line])
      else
        let result :=
          if is_list_item line then
            if (0 <? i) && negb (is_blank_line (nth (i - 1) lines [])) then
              if negb (is_list_item (nth (i - 1) lines [])) then result ++ [[]]
              else result
            else result
          else result in
        loop lines (S i) todo' in_code_block (result ++ [line])
  end.

Definition add_newlines_before_lists (content : str) : str :=
  let lines := split_nl content in
  join_nl (loop lines 0 lines false []).

(** The same loop told by the line before the current one instead of
    by its index: what the loop appends while it reads [todo], when
    [before] is the line that precedes [todo] in [lines], if any
    (see [loop_go]). *)
Fixpoint go (before : option str) (todo : list str) (in_code_block : bool)
    : list str :=
  match todo with
  | [] => []
  | line :: todo' =>
      if is_code_fence line then line :: go (Some line) todo' (negb in_code_block)
      else if in_code_block then line :: go (Some line) todo' in_code_block
      else
        (if is_list_item line then
           match before with
           | Some p =>
               if negb (is_blank_line p) then
                 if negb (is_list_item p) then [[]] else []
               else []
           | None => []
           end
         else [])
        ++ line :: go (Some line) todo' in_code_block
  end.

(** Every list item of [todo] outside a code block comes after a blank
    line or another list item, or first: the loop has nothing to insert. *)
Fixpoint settled (before : option str) (todo : list str) (in_code_block : bool)
    : bool :=
  match todo with
  | [] => true
  | line :: todo' =>
      if is_code_fence line then settled (Some line) todo' (negb in_code_block)
      else if in_code_block then settled (Some line) todo' in_code_block
      else
        (if is_list_item line then
           match before with
           | Some p => is_blank_line p || is_list_item p
           | None => true
           end
         else true)
        && settled (Some line) todo' in_code_block
  end.

(** The lines that are not empty. *)
Definition text_lines (ls : list str) : list str :=
  filter (fun l => negb (str_eqb l [])) ls.

(** What [process_file] computes from the text it reads: the text it
    writes and the line counts it prints. *)
Record report := mkReport {
  written : str;
  original_lines : Z;
  modified_lines : Z;
  added_lines : Z
}.

Definition process_file (content : str) : report :=
  let modified_content := add_newlines_before_lists content in
  let original_lines := Z.of_nat (length (split_nl content)) in
  let modified_lines := Z.of_nat (length (split_nl modified_content)) in
  mkReport modified_content original_lines modified_lines
           (modified_lines - original_lines).

End WithUnicode.
End AddNewlines.

(* ================================================================== *)
(** * How-X-works/add_python_snippets.py *)
(* ================================================================== *)

Module AddPythonSnippets.
Section WithUnicode.
Context {U : Unicode}.

(** [for i in range(line_num - 1, max(0, line_num - 1000), -1)]: the
    loop of [find_pattern_name_before_line], started at index [i] with
    [count] indices to visit. *)
Fixpoint scan_back (lines : list str) (i count : nat) : option str :=
  match count with
  | O => None
  | S count' =>
      if startswith (py "## CONTINUED:") (nth i lines [])
      then Some (nth i lines [])
      else scan_back lines (i - 1) count'
  end.

Definition find_pattern_name_before_line (lines : list str) (line_num : nat)
    : option str :=
  scan_back lines (line_num - 1) ((line_num - 1) - Nat.max 0 (line_num - 1000)).

(** [r'[—-]\s*(.+)$'] *)
Definition after_dash : re :=
  seq [ Chr (one_of [0x2014; chr "-"]%N); Star true (Chr isspace);
        Group 1 (Plus true (Chr dot)); Eol ].

(** The [mapping] dictionary of special cases. *)
Definition mapping : list (str * str) :=
  [ (py "observer_reactive_streams_pattern", py "observer_reactive_streams_pattern");
    (py "currying_partial_application_pattern", py "currying_partial_application");
    (py "chain_of_responsibility_pattern", py "chain_of_responsibility_pattern");
    (py "pub_sub_pattern", py "pubsub_pattern");
    (py "mvc_model_view_controller_pattern", py "mvc_pattern");
    (py "mvp_model_view_presenter_pattern", py "mvp_pattern");
    (py "mvvm_model_view_viewmodel_pattern", py "mvvm_pattern");
    (py "cqrs_command_query_responsibility_segregation_pattern", py "cqrs_pattern");
    (py "functional_composition_pattern", py "functional_composition") ].

Fixpoint dict_get (k : str) (d : list (str * str)) : option str :=
  match d with
  | [] => None
  | (k', v) :: d' => if str_eqb k k' then Some v else dict_get k d'
  end.

Definition pattern_name_to_filename (pattern_header : option str) : option str :=
  match pattern_header with
  | None | Some [] => None
  | Some pattern_header =>
      match re_search after_dash pattern_header with
      | None => None
      | Some m =>
          let pattern_name := strip (group 1 m) in
          let filename := lower pattern_name in
          let filename := replace (py " / ") (py "_") filename in
          let filename := replace (py "/") (py "_") filename in
          let filename := replace (py " ") (py "_") filename in
          let filename := replace (py "(") [] filename in
          let filename := replace (py ")") [] filename in
          let filename := replace (py "-") (py "_") filename in
          let filename := replace (py "&") [] filename in
          let filename := replace (py ",") [] filename in
          let filename :=
            if negb (endswith (py "_pattern") filename)
            then filename ++ py "_pattern" else filename in
          let filename :=
            match dict_get filename mapping with
            | Some v => v
            | None => filename
            end in
          Some filename
      end
  end.

(** The characters [pattern_name_to_filename] replaces or deletes. *)
Definition replaced_chars : str := py " /()-&,".

Record modification := mkMod {
  line_num : nat;
  pattern : str;
  filename : str;
  code_length : nat
}.

(** The variables the loop of [main] updates, and what it has printed. *)
Record vars := mkVars {
  lines : list str;
  modifications : list modification;
  printed : list str
}.

Definition print (s : str) (v : vars) : vars :=
  mkVars (lines v) (modifications v) (printed v ++ [s]).

Definition snippet_header : str := py "## Python Architecture Diagram Snippet".

(** [snippet_sections]: the indices of the section headers, from index [i] on *)
Fixpoint sections_from (i : nat) (ls : list str) : list nat :=
  match ls with
  | [] => []
  | line :: ls' =>
      if str_eqb (strip line) snippet_header
      then i :: sections_from (S i) ls'
      else sections_from (S i) ls'
  end.
Definition snippet_sections (ls : list str) : list nat := sections_from 0 ls.

Definition warn_no_header (section_line_num : nat) : str :=
  py "Warning: Could not find pattern name for section at line "
  ++ str_of_nat (section_line_num + 1).
Definition warn_unparsed (pattern_header : str) : str :=
  py "Warning: Could not parse pattern name from: " ++ strip pattern_header.
Definition warn_missing (python_file : str) : str :=
  py "Warning: Python file not found: " ++ python_file.

(** [insert_text = f"\n```python\n{python_code}```\n\n"] *)
Definition insert_text (python_code : str) : str :=
  [NL] ++ py "```python" ++ [NL] ++ python_code ++ py "```" ++ [NL; NL].

(** What the script finds at a path.  [exists()] answers no; or the
    file is there and [read()] gives its text; or one of [exists()],
    [open()] and [read()] raises: [exists()] hands on every OSError
    that does not say the file is absent (a name too long for the
    system), [open()] and [read()] fail on a directory, on a file
    without permission, on bytes that are not UTF-8. *)
Inductive lookup :=
| Missing
| Found (text : str)
| Fails (exn : str).

(** [base / name] of pathlib, for a directory [base] as [Path] prints
    it and a file name [name]: the current directory prints as a dot
    and is dropped, a root ends in the separator. *)
Definition joinpath (base name : str) : str :=
  if str_eqb base (py ".") then name
  else if endswith (py "/") base then base ++ name
  else base ++ py "/" ++ name.

(** What a turn of [for section_line_num in reversed(snippet_sections)]
    does with its section: nothing, print a warning and [continue],
    put the code in, or raise. *)
Inductive verdict :=
| Untouched
| Warned (warning : str)
| Filled (text : str) (m : modification)
| Raises (exn : str).

(** The tests of the loop body, on the current [lines].  [files] tells
    what is found at a path. *)
Definition examine (diagrams_dir : str) (files : str -> lookup)
    (lines : list str) (section_line_num : nat) : verdict :=
  if (section_line_num + 1 <? length lines)
     && str_eqb (strip (nth (section_line_num + 1) lines [])) []
  then
    match find_pattern_name_before_line lines section_line_num with
    | None | Some [] => Warned (warn_no_header section_line_num)
    | Some pattern_header =>
        match pattern_name_to_filename (Some pattern_header) with
        | None | Some [] => Warned (warn_unparsed pattern_header)
        | Some pattern_name =>
            let python_file := joinpath diagrams_dir (pattern_name ++ py ".py") in
            match files python_file with
            | Missing => Warned (warn_missing python_file)
            | Fails exn => Raises exn
            | Found python_code =>
                Filled (insert_text python_code)
                       (mkMod (section_line_num + 1) (strip pattern_header)
                              pattern_name (length python_code))
            end
        end
    end
  else Untouched.

(** How the run ends: it comes to its end, or an exception that nobody
    catches stops it; [v] holds the variables at that point. *)
Inductive result :=
| Finished (v : vars)
| Aborted (exn : str) (v : vars).

(** The variables when the run ends, either way. *)
Definition vars_of (r : result) : vars :=
  match r with
  | Finished v => v
  | Aborted _ v => v
  end.

(** The loop body: the tests, then their effect on the variables. *)
Definition process_section (diagrams_dir : str) (files : str -> lookup)
    (v : vars) (section_line_num : nat) : result :=
  match examine diagrams_dir files (lines v) section_line_num with
  | Untouched => Finished v
  | Warned warning => Finished (print warning v)
  | Filled text m =>
      Finished (mkVars (set_nth (section_line_num + 1) text (lines v))
                       (modifications v ++ [m]) (printed v))
  | Raises exn => Aborted exn v
  end.

(** One more turn of the loop, unless the run has been stopped. *)
Definition then_section (diagrams_dir : str) (files : str -> lookup)
    (r : result) (section_line_num : nat) : result :=
  match r with
  | Finished v => process_section diagrams_dir files v section_line_num
  | Aborted _ _ => r
  end.

(** The turns for a list of sections, the last section first: the
    [for] loop over [reversed(snippet_sections)] (see [main_is_turns]). *)
Definition turns (diagrams_dir : str) (files : str -> lookup)
    (secs : list nat) (v : vars) : result :=
  fold_right (fun n acc => then_section diagrams_dir files acc n) (Finished v) secs.

Definition report_line (m : modification) : str :=
  py "  Line " ++ str_of_nat (line_num m) ++ py ": " ++ pattern m ++ py " ("
  ++ filename m ++ py ".py, " ++ str_of_nat (code_length m) ++ py " chars)".

(** The first part of [main], up to the loop: the sections are found
    and counted. *)
Definition find_sections (master_file : str) (master_lines : list str) : vars :=
  let v := mkVars master_lines [] [] in
  let v := print (py "Reading " ++ master_file ++ py "...") v in
  print (py "Found " ++ str_of_nat (length (snippet_sections (lines v)))
         ++ py " Python Architecture Diagram Snippet sections") v.

(** The loop over [reversed(snippet_sections)]. *)
Definition fill_sections (diagrams_dir : str) (files : str -> lookup)
    (v : vars) : result :=
  fold_left (then_section diagrams_dir files) (rev (snippet_sections (lines v)))
            (Finished v).

(** The last part of [main]: the report and the closing messages. *)
Definition report (master_file output_file : str) (v : vars) : vars :=
  let v := print ([NL] ++ py "Modified " ++ str_of_nat (length (modifications v))
                  ++ py " sections:") v in
  let v := fold_left (fun v m => print (report_line m) v) (rev (modifications v)) v in
  let v := print ([NL] ++ py "Writing to " ++ output_file ++ py "...") v in
  let v := print ([NL; 0x2713]%N ++ py " Done! Review " ++ output_file
                  ++ py " and replace master_output.md if correct.") v in
  let v := print ([NL] ++ py "To replace:") v in
  print (py "  mv " ++ output_file ++ py " " ++ master_file) v.

(** [base_dir / 'build' / 'diagrams'] *)
Definition diagrams_dir (base_dir : str) : str :=
  joinpath (joinpath base_dir (py "build")) (py "diagrams").

(** [main], from the lines read from [master_file].  When the run
    comes to its end, [lines] is what is written to
    [master_output_updated.md]; when it is stopped, nothing is
    written.  [base_dir] is [Path(__file__).parent] as it prints. *)
Definition main (base_dir : str) (files : str -> lookup)
    (master_lines : list str) : result :=
  let master_file := joinpath base_dir (py "master_output.md") in
  let diagrams_dir := diagrams_dir base_dir in
  let output_file := joinpath base_dir (py "master_output_updated.md") in
  match fill_sections diagrams_dir files (find_sections master_file master_lines) with
  | Finished v => Finished (report master_file output_file v)
  | Aborted exn v => Aborted exn v
  end.

(** A document with one empty snippet section whose diagram source
    is not on disk. *)
Definition one_missing : list str :=
  [ py "# Design Patterns" ++ [NL];
    py "## CONTINUED: Structural - Proxy Pattern" ++ [NL];
    [NL];
    py "## Python Architecture Diagram Snippet" ++ [NL];
    [NL];
    py "## Notes" ++ [NL] ].

(** A document whose snippet section has its image already: the line
    after the header is not blank. *)
Definition one_with_content : list str :=
  [ py "# Design Patterns" ++ [NL];
    py "## CONTINUED: Structural - Proxy Pattern" ++ [NL];
    py "## Python Architecture Diagram Snippet" ++ [NL];
    py "![Proxy](docs/images/proxy_pattern.png)" ++ [NL] ].

End WithUnicode.
End AddPythonSnippets.

(* ================================================================== *)
(** * How-X-works/replace_code_with_png.py *)
(* ================================================================== *)

Module ReplaceCodeWithPng.
Section WithUnicode.
Context {U : Unicode}.

(** [r'docs/images/(\w+)\.png'] *)
Definition png_path : re :=
  seq [ str_lit (py "docs/images/"); Group 1 (Plus true (Chr is_word));
        str_lit (py ".png") ].

(** [r'diagrams/(\w+)\.py'] *)
Definition py_path : re :=
  seq [ str_lit (py "diagrams/"); Group 1 (Plus true (Chr is_word));
        str_lit (py ".py") ].

Definition extract_pattern_name_from_code (code_block : str) : option str :=
  match re_search png_path code_block with
  | Some m => Some (group 1 m)
  | None =>
      match re_search py_path code_block with
      | Some m => Some (group 1 m)
      | None => None
      end
  end.

(** [png_ref]: the image line and the blank line after it *)
Definition png_ref (pattern_name : str) : str :=
  py "![" ++ title (replace (py "_") (py " ") pattern_name)
  ++ py " Architecture](docs/images/" ++ pattern_name ++ py ".png)" ++ [NL; NL].

(** The callback of [re.sub], on the three groups of a match. *)
Definition replace_diagram_section (header python_code after_code : str) : str :=
  match extract_pattern_name_from_code python_code with
  | None | Some [] => header ++ [NL; NL] ++ after_code
  | Some pattern_name =>
      if contains (pattern_name ++ py ".png") (slice_to 200 after_code)
      then header ++ [NL; NL] ++ after_code
      else header ++ [NL; NL] ++ png_ref pattern_name ++ after_code
  end.

(** The pieces of the section pattern: the two headers, the opening of
    the code block ["\n```python\n"], its closing ["```\n\n"] and the
    start of the next section ["\n## "]. *)
Definition headers : list str :=
  [ py "## Python Architecture Diagram Snippet" ++ [NL];
    py "## Architecture Diagram" ++ [NL] ].
Definition block_open : str := [NL] ++ py "```python" ++ [NL].
Definition block_close : str := py "```" ++ [NL; NL].
Definition next_section : str := [NL] ++ py "## ".

(** The section pattern, under [re.DOTALL]:
    [(## (?:Python Architecture Diagram Snippet|Architecture Diagram)\n)\n```python\n(.*?)```\n\n(.*?)(?=\n## |\Z)] *)
Definition section : re :=
  seq [ Group 1 (seq [ str_lit (py "## ");
                       Alt (str_lit (py "Python Architecture Diagram Snippet"))
                           (str_lit (py "Architecture Diagram"));
                       Chr (lit NL) ]);
        str_lit block_open;
        Group 2 (Star false (Chr any));
        str_lit block_close;
        Group 3 (Star false (Chr any));
        Ahead (Alt (str_lit next_section) Eos) ].

(** [r'```python'] *)
Definition python_fence : re := str_lit (py "```python").

(** [r'!\[.*?\]\(docs/images/.*?\.png\)'] *)
Definition png_reference : re :=
  seq [ str_lit (py "!["); Star false (Chr dot); str_lit (py "](docs/images/");
        Star false (Chr dot); str_lit (py ".png)") ].

Definition modified_content (content : str) : str :=
  re_sub section
         (fun m => replace_diagram_section (group 1 m) (group 2 m) (group 3 m))
         content.

(** What [main] computes from the text of [master_output.md]: the text
    written to [master_output_with_png.md] and the counts it prints. *)
Record report := mkReport {
  written : str;
  sections_replaced : nat;
  remaining_python : nat;
  png_refs : nat
}.

Definition main (content : str) : report :=
  let modified := modified_content content in
  mkReport modified (count_matches section content)
           (count_matches python_fence modified)
           (count_matches png_reference modified).

(** The number of image references to [docs/images/<name>.png] in a text. *)
Definition references_to (pattern_name text : str) : nat :=
  count_matches (str_lit (py "](docs/images/" ++ pattern_name ++ py ".png)")) text.

(** A section whose image reference stands more than 200 characters
    after the code block. *)
Definition far_reference : str :=
  py "## Architecture Diagram" ++ [NL; NL]
  ++ py "```python" ++ [NL]
  ++ py "plt.savefig('docs/images/proxy_pattern.png')" ++ [NL]
  ++ py "```" ++ [NL; NL]
  ++ repeat (chr "-") 200 ++ [NL]
  ++ py "![Proxy Pattern Architecture](docs/images/proxy_pattern.png)" ++ [NL].

End WithUnicode.
End ReplaceCodeWithPng.

(* ================================================================== *)
(** * javascript-and-design/convert_to_org.py *)
(* ================================================================== *)

Module ConvertToOrg.
Section WithUnicode.
Context {U : Unicode}.

(** [r'\[([^\]]+)\]\(([^\)]+)\)'] *)
Definition link : re :=
  seq [ Chr (lit (chr "[")); Group 1 (Plus true (Chr (none_of (py "]"))));
        Chr (lit (chr "]")); Chr (lit (chr "("));
        Group 2 (Plus true (Chr (none_of (py ")")))); Chr (lit (chr ")")) ].

(** [r'\*\*(.+?)\*\*'], [r'__(.+?)__'] and [r'~~(.+?)~~'] *)
Definition doubled (c : N) : re :=
  seq [ Chr (lit c); Chr (lit c); Group 1 (Plus false (Chr dot));
        Chr (lit c); Chr (lit c) ].

(** [r'(?<!X)X(?!X)(.+?)(?<!X)X(?!X)'], where X is the escaped star in
    the first italic pattern and [_] in the second *)
Definition single (c : N) : re :=
  seq [ NotBehind (lit c); Chr (lit c); NotAhead (Chr (lit c));
        Group 1 (Plus false (Chr dot));
        NotBehind (lit c); Chr (lit c); NotAhead (Chr (lit c)) ].

(** [r'`([^`]+)`'] *)
Definition inline_code : re :=
  seq [ Chr (lit (chr "`")); Group 1 (Plus true (Chr (none_of (py "`"))));
        Chr (lit (chr "`")) ].

(** The characters that start an inline markup: a text without them
    has no link, bold, italic, code or strikethrough to convert. *)
Definition markup_chars : str := py "[*_`~".

(** A replacement of the form [x\1y]. *)
Definition wrap (l r : str) : state -> str := fun m => l ++ group 1 m ++ r.

Definition convert_inline_formatting (text : str) : str :=
  (* links [text](url) -> [[url][text]] *)
  let text := re_sub link
                (fun m => py "[[" ++ group 2 m ++ py "][" ++ group 1 m ++ py "]]")
                text in
  (* bold **text** or __text__ -> *text* *)
  let text := re_sub (doubled (chr "*")) (wrap (py "*") (py "*")) text in
  let text := re_sub (doubled (chr "_")) (wrap (py "*") (py "*")) text in
  (* italic *text* or _text_ -> /text/ *)
  let text := re_sub (single (chr "*")) (wrap (py "/") (py "/")) text in
  let text := re_sub (single (chr "_")) (wrap (py "/") (py "/")) text in
  (* inline code `code` -> =code= *)
  let text := re_sub inline_code (wrap (py "=") (py "=")) text in
  (* strikethrough ~~text~~ -> +text+ *)
  let text := re_sub (doubled (chr "~")) (wrap (py "+") (py "+")) text in
  text.

(** [r'^(\w+):\s*(.+)$'] *)
Definition yaml_property : re :=
  seq [ Bol; Group 1 (Plus true (Chr is_word)); Chr (lit (chr ":"));
        Star true (Chr isspace); Group 2 (Plus true (Chr dot)); Eol ].

(** [r'^(#{1,6})\s+(.+)$'] *)
Definition heading : re :=
  seq [ Bol; Group 1 (rep 1 5 (Chr (lit (chr "#")))); Plus true (Chr isspace);
        Group 2 (Plus true (Chr dot)); Eol ].

(** [r'^\|[\s\-:|]+\|$'] *)
Definition table_separator : re :=
  seq [ Bol; Chr (lit (chr "|"));
        Plus true (Chr (fun c => isspace c || one_of (py "-:|") c));
        Chr (lit (chr "|")); Eol ].

(** [r'^[\-*_]{3,}$'] *)
Definition horizontal_rule : re :=
  seq [ Bol; Chr (one_of (py "-*_")); Chr (one_of (py "-*_"));
        Chr (one_of (py "-*_")); Star true (Chr (one_of (py "-*_"))); Eol ].

(** [yaml_properties[k] = v]: a dictionary keeps the order of first insertion *)
Fixpoint dict_set (k v : str) (d : list (str * str)) : list (str * str) :=
  match d with
  | [] => [(k, v)]
  | (k', v') :: d' =>
      if str_eqb k k' then (k, v) :: d' else (k', v') :: dict_set k v d'
  end.

(** The variables of the [while] loop of [convert_md_to_org]. *)
Record vars := mkVars {
  org_lines : list str;
  in_code_block : bool;
  in_yaml_frontmatter : bool;
  code_language : str;
  yaml_properties : list (str * str)
}.

Definition emit (ls : list str) (v : vars) : vars :=
  mkVars (org_lines v ++ ls) (in_code_block v) (in_yaml_frontmatter v)
         (code_language v) (yaml_properties v).

Definition is_truthy (s : str) : bool := negb (str_eqb s []).

(** The loop, on the lines from index [i] on.  A turn consumes one
    line, or two when a table row is followed by its separator. *)
Fixpoint loop (first : bool) (todo : list str) (v : vars) : vars :=
  match todo with
  | [] => v
  | line :: todo' =>
      (* YAML frontmatter *)
      if first && str_eqb (strip line) (py "---") then
        loop false todo'
             (mkVars (org_lines v) (in_code_block v) true
                     (code_language v) (yaml_properties v))
      else if in_yaml_frontmatter v then
        if str_eqb (strip line) (py "---") then
          loop false todo'
               (mkVars
                  (org_lines v
                   ++ map (fun kv => py "#+" ++ upper (fst kv) ++ py ": " ++ snd kv)
                          (yaml_properties v)
                   ++ [[]])
                  (in_code_block v) false (code_language v) (yaml_properties v))
        else
          match re_match yaml_property line with
          | Some m =>
              loop false todo'
                   (mkVars (org_lines v) (in_code_block v) true (code_language v)
                           (dict_set (group 1 m)
                                     (strip_chars [34%N] (group 2 m))
                                     (yaml_properties v)))
          | None => loop false todo' v
          end
      (* code blocks *)
      else if startswith (py "```") line then
        if negb (in_code_block v) then
          let code_language := strip (slice_from 3 line) in
          loop false todo'
               (mkVars
                  (org_lines v ++
                     [if is_truthy code_language
                      then py "#+BEGIN_SRC " ++ code_language
                      else py "#+BEGIN_EXAMPLE"])
                  true (in_yaml_frontmatter v) code_language (yaml_properties v))
        else
          loop false todo'
               (mkVars
                  (org_lines v ++
                     [if is_truthy (code_language v)
                      then py "#+END_SRC" else py "#+END_EXAMPLE"])
                  false (in_yaml_frontmatter v) [] (yaml_properties v))
      else if in_code_block v then loop false todo' (emit [line] v)
      else
        (* headings *)
        match re_match heading line with
        | Some heading_match =>
            let level := length (group 1 heading_match) in
            let title := convert_inline_formatting (group 2 heading_match) in
            loop false todo' (emit [repeat (chr "*") level ++ py " " ++ title] v)
        | None =>
            (* tables *)
            if contains (py "|") line && startswith (py "|") (strip line) then
              match todo' with
              | next :: todo'' =>
                  match re_match table_separator next with
                  | Some _ =>
                      let separator :=
                        re_sub (Plus true (Chr (lit (chr "-")))) (fun _ => py "-") next in
                      let separator :=
                        re_sub (Chr (lit (chr "|"))) (fun _ => py "|") separator in
                      loop false todo'' (emit [line; separator] v)
                  | None => loop false todo' (emit [line] v)
                  end
              | [] => loop false todo' (emit [line] v)
              end
            (* horizontal rules *)
            else
              match re_match horizontal_rule (strip line) with
              | Some _ => loop false todo' (emit [py "-----"] v)
              | None => loop false todo' (emit [convert_inline_formatting line] v)
              end
        end
  end.

Definition convert_md_to_org (md_content : str) : str :=
  let lines := split_nl md_content in
  join_nl (org_lines (loop true lines (mkVars [] false false [] []))).

(** [s.rsplit('.', 1)[0]]: the text before the last ["."], all of [s]
    when it has none *)
Definition before_last_dot (s : str) : str :=
  if existsb (N.eqb (chr ".")) s
  then rev (tl (dropWhile (fun c => negb (c =? chr ".")%N) (rev s)))
  else s.

(** [input_file], from [sys.argv], and [output_file] *)
Definition input_file (argv : list str) : str :=
  match argv with
  | _ :: f :: _ => f
  | _ => py "frontend-design-problems.md"
  end.
Definition output_file (input_file : str) : str :=
  before_last_dot input_file ++ py ".org".

(** What [main] computes from the command line and the text of the
    input file: the name of the file it writes, the text it writes
    and the two line counts it prints. *)
Record report := mkReport {
  output : str;
  written : str;
  original_lines : nat;
  converted_lines : nat
}.

Definition main (argv : list str) (md_content : str) : report :=
  let org_content := convert_md_to_org md_content in
  mkReport (output_file (input_file argv)) org_content
           (length (split_nl md_content)) (length (split_nl org_content)).

End WithUnicode.
End ConvertToOrg.

(* ================================================================== *)
(** * generate_diagrams.py *)
(* ================================================================== *)

(** The effects of the script: lines printed, directories made,
    diagrams rendered, files read and written. *)
Module IO.

Inductive event :=
| Print (line : str)
| Mkdir (path : str)
| Render (path : str)
| ReadFile (path : str)
| WriteFile (path content : str).

Record world := mkWorld {
  files : str -> option str;   (* what the files that exist hold *)
  trace : list event           (* what has happened, oldest first *)
}.

(** A computation returns a value or raises an exception nobody catches. *)
Inductive result (A : Type) :=
| Ok (a : A)
| Raised (exn : str).
Arguments Ok {A} a.
Arguments Raised {A} exn.

Definition M (A : Type) : Type := world -> result A * world.

Definition ret {A : Type} (a : A) : M A := fun w => (Ok a, w).

Definition bind {A B : Type} (m : M A) (k : A -> M B) : M B :=
  fun w =>
    match m w with
    | (Ok a, w') => k a w'
    | (Raised e, w') => (Raised e, w')
    end.

Definition log (e : event) : M unit :=
  fun w => (Ok tt, mkWorld (files w) (trace w ++ [e])).

Definition print (line : str) : M unit := log (Print line).

(** [try: body except Exception as e: handler(e)] *)
Definition try_except {A : Type} (body : M A) (handler : str -> M A) : M A :=
  fun w =>
    match body w with
    | (Ok a, w') => (Ok a, w')
    | (Raised exn, w') => handler exn w'
    end.

(** [open(path).readlines()].  [error] is the exception that opening
    or reading raises for another reason than the absence of the file,
    if there is one: a directory, a file without permission, bytes
    that are not UTF-8. *)
Definition read_lines (error : option str) (path : str) : M (list str) :=
  fun w =>
    match error with
    | Some exn => (Raised exn, w)
    | None =>
        match files w path with
        | Some text =>
            (Ok (readlines text), mkWorld (files w) (trace w ++ [ReadFile path]))
        | None => (Raised (py "FileNotFoundError"), w)
        end
    end.

(** [open(path, 'w').writelines(ls)].  [error] is the exception that
    opening for writing raises, if there is one: a directory that is
    missing or cannot be written, a file without permission. *)
Definition write_lines (error : option str) (path : str) (ls : list str) : M unit :=
  fun w =>
    match error with
    | Some exn => (Raised exn, w)
    | None =>
        (Ok tt,
         mkWorld (fun p => if str_eqb p path then Some (writelines ls) else files w p)
                 (trace w ++ [WriteFile path (writelines ls)]))
    end.

Fixpoint for_each {A : Type} (xs : list A) (body : A -> M unit) : M unit :=
  match xs with
  | [] => ret tt
  | x :: xs' => bind (body x) (fun _ => for_each xs' body)
  end.

(** Whether an event is a call of [open]. *)
Definition opens_file (e : event) : bool :=
  match e with
  | ReadFile _ | WriteFile _ _ => true
  | _ => false
  end.

End IO.

Module GenerateDiagrams.
Import IO.

Notation "x <- m ;; k" := (bind m (fun x => k))
  (at level 61, m at next level, right associativity).
Notation "m ;;; k" := (bind m (fun _ => k))
  (at level 61, right associativity).

(** A [Digraph] is built by a fixed sequence of [attr], [node] and
    [edge] calls and handed to Graphviz; only its comment is kept. *)
Record Digraph := mkDigraph { comment : str }.

(** What the script finds on the machine it runs on. *)
Record env := mkEnv {
  (** whether [import graphviz] succeeds *)
  graphviz_importable : bool;
  (** the text of the ImportError when it does not *)
  import_error : str;
  (** the exit status of [os.system("which dot > /dev/null 2>&1")] *)
  which_dot : Z;
  (** the exception [Path(path).mkdir(exist_ok=True)] raises where no
      file stands at [path], if it raises one: a parent directory that
      is missing, a directory that cannot be written *)
  mkdir_error : str -> option str;
  (** the exception [diagram.render(path, cleanup=True)] raises, if it
      raises one *)
  render_error : str -> option str;
  (** the image [dot] draws of a graph *)
  image : Digraph -> str;
  (** what a rendering that raises leaves at a path it writes to,
      given what was there *)
  left_behind : str -> option str -> option str;
  (** the exception that opening and reading the file at a path
      raises for another reason than its absence, if it raises one *)
  read_error : str -> option str;
  (** the exception that opening the file at a path for writing
      raises, if it raises one *)
  write_error : str -> option str;
  (** [sys.argv] *)
  argv : list str
}.

Definition install_dependencies (e : env) : M bool :=
  if negb (graphviz_importable e) then
    print (py "ERROR: python3-graphviz not found.") ;;;
    print ([NL] ++ py "To install, run:") ;;;
    print (py "  sudo apt-get update") ;;;
    print (py "  sudo apt-get install graphviz python3-graphviz") ;;;
    print ([NL] ++ py "Or create a virtual environment:") ;;;
    print (py "  python3 -m venv venv") ;;;
    print (py "  source venv/bin/activate") ;;;
    print (py "  pip install graphviz") ;;;
    ret false
  else if negb (which_dot e =? 0)%Z then
    print (py "WARNING: Graphviz system package not found.") ;;;
    print (py "Install with: sudo apt-get install graphviz") ;;;
    ret false
  else ret true.

(** The five [create_*_architecture] functions: the graph, or [None]
    after printing the exception caught. *)
Definition create (e : env) (what comment : str) : M (option Digraph) :=
  if graphviz_importable e then ret (Some (mkDigraph comment))
  else
    print (py "Error creating " ++ what ++ py " diagram: " ++ import_error e) ;;;
    ret None.

Definition create_virtuallist_architecture (e : env) :=
  create e (py "VirtualList") (py "VirtualList Architecture").
Definition create_canvas_architecture (e : env) :=
  create e (py "Canvas") (py "Canvas Architecture").
Definition create_reactive_engine_architecture (e : env) :=
  create e (py "Reactive Engine") (py "Reactive Engine").
Definition create_spreadsheet_architecture (e : env) :=
  create e (py "Spreadsheet") (py "Spreadsheet Architecture").
Definition create_charts_architecture (e : env) :=
  create e (py "Charts") (py "Real-time Charts").

(** [os.path.join(a, b)] *)
Definition path_join (a b : str) : str :=
  if startswith (py "/") b then b
  else if str_eqb a [] || endswith (py "/") a then a ++ b
  else a ++ py "/" ++ b.

(** The exception [Path(path).mkdir(exist_ok=True)] raises, if it
    raises one: FileExistsError where a file that is no directory
    stands at [path], or what the machine answers. *)
Definition mkdir_raises (e : env) (w : world) (path : str) : option str :=
  match files w path with
  | Some _ => Some (py "FileExistsError")
  | None => mkdir_error e path
  end.

(** [Path(path).mkdir(exist_ok=True)] *)
Definition mkdir (e : env) (path : str) : M unit :=
  fun w =>
    match mkdir_raises e w path with
    | Some exn => (Raised exn, w)
    | None => log (Mkdir path) w
    end.

(** The files after [diagram.render(output_path, cleanup=True)] of a
    graph of format [png].  Graphviz writes the source of the graph to
    [output_path], has [dot] draw the image into [output_path.png] and
    removes the source.  When the call raises, what it leaves at these
    two paths is up to the machine.  No other file is touched. *)
Definition after_render (e : env) (diagram : Digraph) (output_path : str)
    (files : str -> option str) : str -> option str :=
  fun p =>
    if str_eqb p output_path then
      match render_error e output_path with
      | None => None
      | Some _ => left_behind e p (files p)
      end
    else if str_eqb p (output_path ++ py ".png") then
      match render_error e output_path with
      | None => Some (image e diagram)
      | Some _ => left_behind e p (files p)
      end
    else files p.

(** [diagram.render(output_path, cleanup=True)] *)
Definition render (e : env) (diagram : Digraph) (output_path : str) : M unit :=
  fun w =>
    (match render_error e output_path with
     | None => Ok tt
     | Some exn => Raised exn
     end,
     mkWorld (after_render e diagram output_path (files w))
             (trace w ++ [Render output_path])).

(** The body of the loop of [create_all_diagrams]. *)
Definition render_one (e : env) (output_dir : str)
    (generated : list str) (item : str * option Digraph) : M (list str) :=
  match snd item with
  | None => ret generated
  | Some diagram =>
      let output_path := path_join output_dir (fst item) in
      try_except
        (render e diagram output_path ;;;
         print (py "Generated: " ++ output_path ++ py ".png") ;;;
         ret (generated ++ [output_path ++ py ".png"]))
        (fun exn =>
           print (py "Error rendering " ++ fst item ++ py ": " ++ exn) ;;;
           ret generated)
  end.

Fixpoint render_all (e : env) (output_dir : str) (generated : list str)
    (items : list (str * option Digraph)) : M (list str) :=
  match items with
  | [] => ret generated
  | item :: items' =>
      generated <- render_one e output_dir generated item ;;
      render_all e output_dir generated items'
  end.

Definition create_all_diagrams (e : env) (output_dir : str) : M (list str) :=
  mkdir e output_dir ;;;
  d1 <- create_virtuallist_architecture e ;;
  d2 <- create_canvas_architecture e ;;
  d3 <- create_reactive_engine_architecture e ;;
  d4 <- create_spreadsheet_architecture e ;;
  d5 <- create_charts_architecture e ;;
  render_all e output_dir []
    [ (py "virtuallist-architecture", d1); (py "canvas-architecture", d2);
      (py "reactive-engine-architecture", d3); (py "spreadsheet-architecture", d4);
      (py "charts-architecture", d5) ].

(** The dictionary of [create_all_diagrams] when the five graphs are
    built: the names of the diagrams, in order, and their graphs. *)
Definition diagrams : list (str * Digraph) :=
  [ (py "virtuallist-architecture", mkDigraph (py "VirtualList Architecture"));
    (py "canvas-architecture", mkDigraph (py "Canvas Architecture"));
    (py "reactive-engine-architecture", mkDigraph (py "Reactive Engine"));
    (py "spreadsheet-architecture", mkDigraph (py "Spreadsheet Architecture"));
    (py "charts-architecture", mkDigraph (py "Real-time Charts")) ].

Definition diagram_names : list str := map fst diagrams.

(** Whether a rendering of [create_all_diagrams] writes to [p]: the
    image of a diagram, or the source of its graph. *)
Definition is_render_path (output_dir p : str) : bool :=
  existsb (fun name => str_eqb p (path_join output_dir name)
                       || str_eqb p (path_join output_dir name ++ py ".png"))
          diagram_names.

(** [primary_insertions]: section heading -> diagram file *)
Definition primary_insertions : list (str * str) :=
  [ (py "# Virtualized Infinite List with Dynamic Heights", py "virtuallist-architecture.png");
    (py "# High-Fidelity Pixel-Perfect Zoomable Canvas", py "canvas-architecture.png");
    (py "# Reactive Formulas Engine (Spreadsheet-like)", py "reactive-engine-architecture.png");
    (py "# DOM-Based Spreadsheet Renderer (Excel Clone)", py "spreadsheet-architecture.png");
    (py "# High-Volume Real-Time Charts with Backfill", py "charts-architecture.png") ].

(** The box-drawing characters of the first test (at a code fence)... *)
Definition box_chars : str :=
  [0x250C; 0x2502; 0x251C; 0x2514; 0x2500; 0x2510; 0x2518; 0x2524; 0x252C; 0x2534]%N.
(** ... and of the second (after an Architecture Overview line). *)
Definition box_chars_overview : str := box_chars ++ [0x253C]%N.

(** [any(char in line for char in chars)] *)
Definition has_any (chars line : str) : bool :=
  existsb (fun char => contains [char] line) chars.

Definition is_fence (line : str) : bool := startswith (py "```") (strip line).
Definition is_blank (line : str) : bool := str_eqb (strip line) [].

(** The look-ahead at a code fence, [for j in range(i, min(i + 20, len(lines)))]:
    [window] is the lines from index [i] on, at most twenty. *)
Fixpoint look_ahead (window : list str) : bool :=
  match window with
  | [] => false
  | l :: window' =>
      if has_any box_chars l then true
      else if is_fence l then false
      else look_ahead window'
  end.

(** [while j < len(lines) and lines[j].strip() == '': j += 1] *)
Fixpoint skip_blank (ls : list str) (j : nat) : nat :=
  match ls with
  | l :: ls' => if is_blank l then skip_blank ls' (S j) else j
  | [] => j
  end.

(** The scan for the closing fence, [while k < len(lines)]: the index of
    the closing fence when the block holds a box-drawing character. *)
Fixpoint closing_fence (ls : list str) (k : nat) (is_ascii_block : bool) : option nat :=
  match ls with
  | [] => None
  | l :: ls' =>
      if is_fence l then (if is_ascii_block then Some k else None)
      else closing_fence ls' (S k)
             (if has_any box_chars_overview l then true else is_ascii_block)
  end.

Fixpoint dict_find (k : str) (d : list (str * str)) : option (str * str) :=
  match d with
  | [] => None
  | (k', v) :: d' => if str_eqb k k' then Some (k', v) else dict_find k d'
  end.

(** Whether a line, stripped, is one of the section headings. *)
Definition is_section_heading (line : str) : bool :=
  match dict_find (strip line) primary_insertions with
  | Some _ => true
  | None => false
  end.

(** The variables of the [while] loop of
    [replace_ascii_diagrams_with_images], and the lines it prints. *)
Record vars := mkVars {
  i : nat;
  current_section : option str;
  modified_lines : list str;
  inserted_count : nat;
  removed_count : nat;
  in_code_block : bool;
  skip_until_code_end : bool;
  printed : list str
}.

Definition diagram_text (diagram_dir diagram : str) : str :=
  [NL] ++ py "![Architecture Diagram](" ++ diagram_dir ++ py "/" ++ diagram
  ++ py ")" ++ [NL; NL].

(** [for heading, diagram in primary_insertions.items(): ...]: the
    image after a section heading. *)
Definition at_heading (diagram_dir : str) (lines : list str) (line : str)
    (v : vars) : vars :=
  match dict_find (strip line) primary_insertions with
  | Some (heading, diagram) =>
      let blank := (i v + 1 <? length lines) && is_blank (nth (i v + 1) lines []) in
      let i' := if blank then i v + 1 else i v in
      mkVars i' (Some diagram)
             (modified_lines v
              ++ (if blank then [nth i' lines []] else [])
              ++ [diagram_text diagram_dir diagram])
             (inserted_count v + 1) (removed_count v)
             (in_code_block v) (skip_until_code_end v)
             (printed v ++ [py "  Inserted diagram at heading: "
                            ++ slice_to 50 heading ++ py "..."])
  | None => v
  end.

(** The index of the closing fence of the ASCII-art block that follows
    index [i'], if there is one. *)
Definition ascii_block_after (lines : list str) (i' : nat) : option nat :=
  let j := skip_blank (skipn (i' + 1) lines) (i' + 1) in
  if (j <? length lines) && str_eqb (strip (nth j lines [])) (py "```")
  then closing_fence (skipn (j + 1) lines) (j + 1) false
  else None.

(** [if not in_code_block and current_section: ...]: the image after an
    "**Architecture Overview**:" line, and the removal of the block
    that follows it. *)
Definition at_overview (diagram_dir : str) (lines : list str) (line : str)
    (v : vars) : vars :=
  match current_section v with
  | Some section =>
      if negb (in_code_block v)
         && str_eqb (strip line) (py "**Architecture Overview**:")
      then
        let blank := (i v + 1 <? length lines) && is_blank (nth (i v + 1) lines []) in
        let i' := if blank then i v + 1 else i v in
        let modified :=
          modified_lines v
          ++ (if blank then [nth i' lines []] else [])
          ++ [diagram_text diagram_dir section] in
        let out :=
          printed v ++ [py "  Inserted diagram at Architecture Overview for: " ++ section] in
        match ascii_block_after lines i' with
        | Some k =>
            mkVars (skip_blank (skipn (k + 1) lines) (k + 1) - 1) (Some section)
                   modified (inserted_count v + 1) (removed_count v + 1)
                   (in_code_block v) (skip_until_code_end v)
                   (out ++ [py "    Removed ASCII art code block"])
        | None =>
            mkVars i' (Some section) modified (inserted_count v + 1)
                   (removed_count v) (in_code_block v) (skip_until_code_end v) out
        end
      else v
  | None => v
  end.

(** [i += 1] *)
Definition next (v : vars) : vars :=
  mkVars (i v + 1) (current_section v) (modified_lines v) (inserted_count v)
         (removed_count v) (in_code_block v) (skip_until_code_end v) (printed v).

(** The part of the loop body after [modified_lines.append(line)]. *)
Definition after_append (diagram_dir : str) (lines : list str) (line : str)
    (v : vars) : vars :=
  next (at_overview diagram_dir lines line (at_heading diagram_dir lines line v)).

(** One turn of [while i < len(lines)]. *)
Definition step (diagram_dir : str) (lines : list str) (v : vars) : vars :=
  let line := nth (i v) lines [] in
  let append v :=
    if skip_until_code_end v then next v
    else after_append diagram_dir lines line
           (mkVars (i v) (current_section v) (modified_lines v ++ [line])
                   (inserted_count v) (removed_count v) (in_code_block v)
                   (skip_until_code_end v) (printed v)) in
  if is_fence line then
    let is_ascii_diagram :=
      match current_section v with
      | Some _ =>
          negb (in_code_block v) && look_ahead (firstn 20 (skipn (i v) lines))
      | None => false
      end in
    if is_ascii_diagram then
      mkVars (i v + 1) (current_section v) (modified_lines v) (inserted_count v)
             (removed_count v + 1) (in_code_block v) true (printed v)
    else
      let in_code := negb (in_code_block v) in
      if negb in_code && skip_until_code_end v then
        mkVars (i v + 1) (current_section v) (modified_lines v) (inserted_count v)
               (removed_count v) in_code false (printed v)
      else
        append (mkVars (i v) (current_section v) (modified_lines v)
                       (inserted_count v) (removed_count v) in_code
                       (skip_until_code_end v) (printed v))
  else append v.

(** The loop; every turn moves [i] on, so [length lines] turns are
    enough (see [while_loop_finishes]). *)
Fixpoint while_loop (fuel : nat) (diagram_dir : str) (lines : list str)
    (v : vars) : vars :=
  match fuel with
  | O => v
  | S fuel' =>
      if i v <? length lines
      then while_loop fuel' diagram_dir lines (step diagram_dir lines v)
      else v
  end.

Definition run_loop (diagram_dir : str) (lines : list str) : vars :=
  while_loop (length lines) diagram_dir lines
             (mkVars 0 None [] 0 0 false false []).

Definition replace_ascii_diagrams_with_images (e : env) (markdown_file : str)
    (output_file : option str) (diagram_dir : str) : M unit :=
  let output_file :=
    match output_file with Some f => f | None => markdown_file end in
  lines <- read_lines (read_error e markdown_file) markdown_file ;;
  let v := run_loop diagram_dir lines in
  for_each (printed v) print ;;;
  write_lines (write_error e output_file) output_file (modified_lines v) ;;;
  print (py "Inserted " ++ str_of_nat (inserted_count v) ++ py " diagrams, removed "
         ++ str_of_nat (removed_count v) ++ py " ASCII art blocks") ;;;
  print (py "Output written to: " ++ output_file).

Definition main (e : env) : M unit :=
  print (repeat (chr "=") 60) ;;;
  print (py "Diagram Generation Tool") ;;;
  print (repeat (chr "=") 60) ;;;
  ok <- install_dependencies e ;;
  if negb ok then
    print ([NL] ++ py "Please install Graphviz and try again.")
  else
    print ([NL] ++ py "Generating diagrams...") ;;;
    generated <- create_all_diagrams e (py "diagrams") ;;
    print ([NL] ++ py "Generated " ++ str_of_nat (length generated) ++ py " diagrams") ;;;
    match argv e with
    | _ :: markdown_file :: rest_args =>
        let output_file := match rest_args with f :: _ => Some f | [] => None end in
        print ([NL] ++ py "Processing markdown file: " ++ markdown_file) ;;;
        replace_ascii_diagrams_with_images e markdown_file output_file (py "diagrams")
    | _ =>
        print ([NL] ++ py "To insert diagrams into markdown:") ;;;
        print (py "  python3 generate_diagrams.py <input.md> [output.md]")
    end.

(** A chapter with an ASCII-art block that does not follow an
    Architecture Overview line. *)
Definition chapter_with_ascii_art : list str :=
  [ py "# Virtualized Infinite List with Dynamic Heights" ++ [NL];
    [NL];
    py "The layout:" ++ [NL];
    py "```" ++ [NL];
    [0x250C; 0x2500; 0x2500; 0x2510; NL]%N;
    [0x2514; 0x2500; 0x2500; 0x2518; NL]%N;
    py "```" ++ [NL] ].

(** A machine without the [graphviz] module. *)
Definition no_graphviz : env :=
  mkEnv false (py "No module named 'graphviz'") 0 (fun _ => None) (fun _ => None)
        (fun _ => py "PNG") (fun _ old => old) (fun _ => None) (fun _ => None)
        [py "generate_diagrams.py"; py "input.md"].

(** A line of the input, or the image link of one of the diagrams. *)
Definition known_line (diagram_dir : str) (lines : list str) (l : str) : Prop :=
  In l lines
  \/ exists diagram, In diagram (map snd primary_insertions)
                     /\ l = diagram_text diagram_dir diagram.

(** What holds of the variables at every turn of the loop: the lines
    made so far are known ones, and the current section is one of the
    diagrams. *)
Definition loop_invariant (diagram_dir : str) (lines : list str) (v : vars) : Prop :=
  Forall (known_line diagram_dir lines) (modified_lines v)
  /\ forall section, current_section v = Some section ->
                     In section (map snd primary_insertions).

(** A machine with Graphviz on which rendering the canvas diagram
    fails, the source of the graph being left behind; the script is
    run without a Markdown file. *)
Definition canvas_fails : env :=
  mkEnv true [] 0 (fun _ => None)
        (fun path => if str_eqb path (py "diagrams/canvas-architecture")
                     then Some (py "ExecutableNotFound") else None)
        (fun d => py "PNG of " ++ comment d)
        (fun path old => if str_eqb path (py "diagrams/canvas-architecture")
                         then Some (py "// Canvas Architecture") else old)
        (fun _ => None) (fun _ => None)
        [py "generate_diagrams.py"].

(** A machine with Graphviz; the script is run on [input.md]. *)
Definition with_input : env :=
  mkEnv true [] 0 (fun _ => None) (fun _ => None)
        (fun d => py "PNG of " ++ comment d) (fun _ old => old)
        (fun _ => None) (fun _ => None)
        [py "generate_diagrams.py"; py "input.md"].

(** The files of a directory that holds [input.md] and nothing else. *)
Definition only_input (text : str) : str -> option str :=
  fun p => if str_eqb p (py "input.md") then Some text else None.

End GenerateDiagrams.

(* ================================================================== *)
(** * Properties *)
(* ================================================================== *)

(* ------------------------------------------------------------------ *)
(** ** The matcher: how far a match goes, what [re.sub] returns *)

Lemma hd_error_In (A : Type) (l : list A) (x : A) :
  hd_error l = Some x -> In x l.
Proof. destruct l; simpl; [discriminate | intros [= ->]; now left]. Qed.

Lemma star_loop_shrinks (body : state -> list state) (g : bool) :
  (forall st e, In e (body st) -> length (rest e) <= length (rest st)) ->
  forall n st e, In e (star_loop body g n st) ->
                 length (rest e) <= length (rest st).
Proof.
  intros Hb n; induction n as [|n IH]; intros st e; simpl.
  - intros [<- | []]; lia.
  - assert (Hmore : forall e', In e'
              (flat_map (fun x => if length (rest x) <? length (rest st)
                                  then star_loop body g n x else []) (body st)) ->
              length (rest e') <= length (rest st)).
    { intros e' Hin. apply in_flat_map in Hin as (x & Hx & Hin).
      destruct (Nat.ltb_spec (length (rest x)) (length (rest st))); [|destruct Hin].
      apply IH in Hin. lia. }
    destruct g.
    + intros Hin. apply in_app_or in Hin as [Hin | [<- | []]]; [now apply Hmore | lia].
    + intros [<- | Hin]; [lia | now apply Hmore].
Qed.

Lemma run_min_len (r : re) :
  forall st e, In e (run r st) -> length (rest e) + min_len r <= length (rest st).
Proof.
  induction r as [ | p | a IHa b IHb | a IHa b IHb | g a IHa | i a IHa
                 | a IHa | a IHa | p | | | ]; intros st e; simpl.
  - intros [<- | []]; lia.
  - destruct (rest st) as [|c tl] eqn:E; [intros [] |].
    destruct (p c); [|intros []]. intros [<- | []]. simpl. lia.
  - intros Hin. apply in_flat_map in Hin as (x & Hx & Hin).
    apply IHa in Hx. apply IHb in Hin. lia.
  - intros Hin. apply in_app_or in Hin as [Hin | Hin];
      [apply IHa in Hin | apply IHb in Hin]; lia.
  - intros Hin. rewrite Nat.add_0_r.
    apply star_loop_shrinks in Hin; [exact Hin |].
    intros st' e' H'. apply IHa in H'. lia.
  - intros Hin. apply in_map_iff in Hin as (x & <- & Hx). simpl.
    now apply IHa.
  - destruct (run a st); [intros [] | intros [<- | []]; lia].
  - destruct (run a st); [intros [<- | []]; lia | intros []].
  - destruct (prev st) as [|c ?]; [intros [<- | []]; lia |].
    destruct (p c); [intros [] | intros [<- | []]; lia].
  - destruct (prev st); [intros [<- | []]; lia | intros []].
  - destruct (rest st) as [|c [|? ?]] eqn:E;
      [intros [<- | []]; rewrite E; simpl; lia | | intros []].
    destruct (c =? NL)%N; [intros [<- | []]; rewrite E; simpl; lia | intros []].
  - destruct (rest st) eqn:E; [intros [<- | []]; rewrite E; simpl; lia | intros []].
Qed.

(** The matcher only moves forward: what it has passed is a prefix of
    the text that was to come, and is recorded before the position. *)
Lemma star_loop_consumes (body : state -> list state) (g : bool) :
  (forall st e, In e (body st) ->
                exists m, rest st = m ++ rest e /\ prev e = rev m ++ prev st) ->
  forall n st e, In e (star_loop body g n st) ->
                 exists m, rest st = m ++ rest e /\ prev e = rev m ++ prev st.
Proof.
  intros Hb n; induction n as [|n IH]; intros st e; cbn [star_loop].
  - intros [<- | []]. now exists [].
  - assert (Hmore : forall e', In e'
              (flat_map (fun x => if length (rest x) <? length (rest st)
                                  then star_loop body g n x else []) (body st)) ->
              exists m, rest st = m ++ rest e' /\ prev e' = rev m ++ prev st).
    { intros e' Hin. apply in_flat_map in Hin as (x & Hx & Hin).
      destruct (length (rest x) <? length (rest st)); [|destruct Hin].
      apply Hb in Hx as (m1 & R1 & P1). apply IH in Hin as (m2 & R2 & P2).
      exists (m1 ++ m2). rewrite R1, R2, P2, P1, rev_app_distr, !app_assoc.
      now split. }
    destruct g.
    + intros Hin. apply in_app_or in Hin as [Hin | [<- | []]];
        [now apply Hmore | now exists []].
    + intros [<- | Hin]; [now exists [] | now apply Hmore].
Qed.

Lemma stays_or_fails (st e : state) (l : list state) :
  l = [st] \/ l = [] ->
  In e l -> exists m, rest st = m ++ rest e /\ prev e = rev m ++ prev st.
Proof. intros [-> | ->]; [intros [<- | []]; now exists [] | intros []]. Qed.

Lemma run_consumes (r : re) :
  forall st e, In e (run r st) ->
               exists m, rest st = m ++ rest e /\ prev e = rev m ++ prev st.
Proof.
  induction r as [ | p | a IHa b IHb | a IHa b IHb | g a IHa | i a IHa
                 | a IHa | a IHa | p | | | ]; intros st e; cbn [run].
  - apply stays_or_fails. now left.
  - destruct (rest st) as [|c tl] eqn:E; [intros [] |].
    destruct (p c); [|intros []]. intros [<- | []].
    exists [c]. split; reflexivity.
  - intros Hin. apply in_flat_map in Hin as (x & Hx & Hin).
    apply IHa in Hx as (m1 & R1 & P1). apply IHb in Hin as (m2 & R2 & P2).
    exists (m1 ++ m2). rewrite R1, R2, P2, P1, rev_app_distr, !app_assoc.
    now split.
  - intros Hin. apply in_app_or in Hin as [Hin | Hin]; auto.
  - now apply star_loop_consumes.
  - intros Hin. apply in_map_iff in Hin as (x & <- & Hx). cbn [set_cap rest prev].
    now apply IHa.
  - apply stays_or_fails. destruct (run a st); auto.
  - apply stays_or_fails. destruct (run a st); auto.
  - apply stays_or_fails. destruct (prev st) as [|c ?]; [auto |]. destruct (p c); auto.
  - apply stays_or_fails. destruct (prev st); auto.
  - apply stays_or_fails. destruct (rest st) as [|c [|? ?]]; [auto | | auto].
    destruct (c =? NL)%N; auto.
  - apply stays_or_fails. destruct (rest st); auto.
Qed.

Lemma match_at_min_len (r : re) (pre s : str) (e : state) :
  match_at r pre s = Some e -> length (rest e) + min_len r <= length s.
Proof.
  intros H. apply hd_error_In in H. apply run_min_len in H. exact H.
Qed.

Lemma match_at_consumed (r : re) (pre s : str) (e : state) :
  match_at r pre s = Some e ->
  min_len r <= consumed (start pre s) e /\ consumed (start pre s) e <= length s.
Proof.
  intros H. apply match_at_min_len in H. unfold consumed, start.
  cbn [rest]. lia.
Qed.

(** For a pattern that cannot match the empty string [re.sub] is a plain
    scan: copy a character, or emit the replacement and pass the match. *)
Lemma sub_go_nonempty (r : re) (repl : state -> str) (pre : str) (s : str) :
  1 <= min_len r ->
  sub_go r repl 0 pre s =
  match s with
  | [] => []
  | c :: tl =>
      match match_at r pre s with
      | None => c :: sub_go r repl 0 (c :: pre) tl
      | Some e => repl e ++ sub_go r repl (consumed (start pre s) e - 1) (c :: pre) tl
      end
  end.
Proof.
  intros Hr. destruct s as [|c tl]; cbn [sub_go].
  - destruct (match_at r pre []) eqn:E; [|reflexivity].
    apply match_at_consumed in E. cbn [length] in E. lia.
  - destruct (match_at r pre (c :: tl)) as [e|] eqn:E; [|reflexivity].
    pose proof (match_at_consumed _ _ _ _ E) as [Hl _].
    destruct (consumed (start pre (c :: tl)) e) eqn:Ec; [lia |].
    cbn [Nat.sub]. now rewrite Nat.sub_0_r.
Qed.

Lemma sub_go_length (r : re) (repl : state -> str) :
  1 <= min_len r ->
  (forall e, length (repl e) <= min_len r) ->
  forall s skip pre, length (sub_go r repl skip pre s) <= length s - skip.
Proof.
  intros Hr Hrepl s; induction s as [|c tl IH]; intros skip pre.
  - destruct skip; [|cbn; lia].
    rewrite sub_go_nonempty by exact Hr. cbn. lia.
  - destruct skip as [|k].
    + rewrite sub_go_nonempty by exact Hr.
      destruct (match_at r pre (c :: tl)) as [e|] eqn:E.
      * pose proof (match_at_consumed _ _ _ _ E) as [Hl Hu].
        rewrite length_app.
        specialize (IH (consumed (start pre (c :: tl)) e - 1) (c :: pre)).
        specialize (Hrepl e). cbn [length] in *. lia.
      * cbn [length]. specialize (IH 0 (c :: pre)). lia.
    + cbn [sub_go length Nat.sub]. apply IH.
Qed.

Theorem re_sub_length (r : re) (repl : state -> str) (s : str) :
  1 <= min_len r ->
  (forall e, length (repl e) <= min_len r) ->
  length (re_sub r repl s) <= length s.
Proof.
  intros Hr Hrepl. unfold re_sub.
  pose proof (sub_go_length r repl Hr Hrepl s 0 []). lia.
Qed.

(** Every character [re.sub] returns is copied from the subject or
    comes from a replacement. *)
Lemma sub_go_chars (r : re) (repl : state -> str) (x : N) :
  forall s skip pre,
    In x (sub_go r repl skip pre s) ->
    In x s \/ exists e, In x (repl e).
Proof.
  induction s as [|c tl IH]; intros skip pre; destruct skip as [|k]; cbn [sub_go].
  - destruct (match_at r pre []) as [e|]; [|intros []].
    intros H. right. now exists e.
  - intros [].
  - destruct (match_at r pre (c :: tl)) as [e|].
    + destruct (consumed (start pre (c :: tl)) e).
      * intros H. apply in_app_or in H as [H | H]; [right; now exists e |].
        destruct (match_advancing r pre (c :: tl)) as [e'|].
        -- apply in_app_or in H as [H | H]; [right; now exists e' |].
           apply IH in H as [H | H]; [left; now right | now right].
        -- destruct H as [<- | H]; [left; now left |].
           apply IH in H as [H | H]; [left; now right | now right].
      * intros H. apply in_app_or in H as [H | H]; [right; now exists e |].
        apply IH in H as [H | H]; [left; now right | now right].
    + intros [<- | H]; [left; now left |].
      apply IH in H as [H | H]; [left; now right | now right].
  - intros H. apply IH in H as [H | H]; [left; now right | now right].
Qed.

Lemma re_sub_chars (r : re) (repl : state -> str) (s : str) (x : N) :
  In x (re_sub r repl s) -> In x s \/ exists e, In x (repl e).
Proof. apply sub_go_chars. Qed.

Lemma star_loop_nonempty (body : state -> list state) (g : bool) (n : nat)
    (st : state) :
  star_loop body g n st <> [].
Proof.
  destruct n; cbn [star_loop]; [discriminate |].
  destruct g; [|discriminate].
  intros H. apply app_eq_nil in H as [_ H]. discriminate.
Qed.

(** [c+] matches wherever the next character is in the class. *)
Lemma plus_chr_matches (p : N -> bool) (g : bool) (pre : str) (c : N) (tl : str) :
  p c = true -> match_at (Plus g (Chr p)) pre (c :: tl) <> None.
Proof.
  intros Hp. unfold match_at, Plus. cbn [run start rest]. rewrite Hp.
  cbn [flat_map]. rewrite app_nil_r.
  match goal with
  | |- hd_error ?l <> None =>
      destruct l eqn:E; [now apply star_loop_nonempty in E | discriminate]
  end.
Qed.

(** After [re.sub('[class]+', '', s)] no character of the class is left. *)
Lemma sub_plus_chr_removes (p : N -> bool) (x : N) :
  forall s skip pre,
    In x (sub_go (Plus true (Chr p)) (fun _ => []) skip pre s) -> p x = false.
Proof.
  induction s as [|c tl IH]; intros skip pre; destruct skip as [|k].
  - rewrite sub_go_nonempty by (cbn; lia). intros [].
  - intros [].
  - rewrite sub_go_nonempty by (cbn; lia).
    destruct (match_at (Plus true (Chr p)) pre (c :: tl)) as [e|] eqn:E.
    + cbn [app]. apply IH.
    + intros [<- | H]; [|now apply IH in H].
      destruct (p c) eqn:Hp; [|reflexivity].
      now apply (plus_chr_matches p true pre c tl) in Hp.
  - cbn [sub_go]. apply IH.
Qed.

(* ------------------------------------------------------------------ *)
(** ** remove_emojis.py *)

Lemma replace_go_chars (old new : str) (x : N) :
  forall s skip, In x (replace_go old new skip s) -> In x s \/ In x new.
Proof.
  induction s as [|c tl IH]; intros skip; cbn [replace_go]; [intros [] |].
  destruct skip as [|k].
  - destruct (startswith old (c :: tl)).
    + intros H. apply in_app_or in H as [H | H]; [now right |].
      apply IH in H as [H | H]; [left; now right | now right].
    + intros [<- | H]; [left; now left |].
      apply IH in H as [H | H]; [left; now right | now right].
  - intros H. apply IH in H as [H | H]; [left; now right | now right].
Qed.

Lemma replace_chars (old new s : str) (x : N) :
  In x (replace old new s) -> In x s \/ In x new.
Proof.
  destruct old as [|o old']; cbn [replace]; [|apply replace_go_chars].
  intros H. apply in_app_or in H as [H | H]; [now right |].
  apply in_flat_map in H as (c & Hc & [<- | H]); [now left | now right].
Qed.

Lemma replace_go_length (old : str) :
  forall s skip, length (replace_go old [] skip s) <= length s - skip.
Proof.
  induction s as [|c tl IH]; intros skip; cbn [replace_go]; [cbn; lia |].
  destruct skip as [|k].
  - destruct (startswith old (c :: tl)); cbn [app length].
    + specialize (IH (length old - 1)). lia.
    + specialize (IH 0). lia.
  - cbn [length Nat.sub]. apply IH.
Qed.

(** Deleting the occurrences of a literal never lengthens a string. *)
Lemma replace_delete_length (old s : str) :
  length (replace old [] s) <= length s.
Proof.
  destruct old as [|o old']; cbn [replace].
  - cbn [app]. induction s as [|c tl IH]; cbn; [lia | lia].
  - pose proof (replace_go_length (o :: old') s 0). lia.
Qed.

Lemma fold_replace_delete_length (olds : list str) :
  forall s, length (fold_left (fun text old => replace old [] text) olds s) <= length s.
Proof.
  induction olds as [|old olds IH]; intros s; cbn [fold_left]; [lia |].
  specialize (IH (replace old [] s)).
  pose proof (replace_delete_length old s). lia.
Qed.

Lemma fold_replace_delete_chars (olds : list str) (x : N) :
  forall s, In x (fold_left (fun text old => replace old [] text) olds s) -> In x s.
Proof.
  induction olds as [|old olds IH]; intros s; cbn [fold_left]; [easy |].
  intros H. apply IH in H. apply replace_chars in H as [H | []]. exact H.
Qed.

(** C10. [remove_emojis] never lengthens its input, so the number of
    removed characters that [main] prints is never negative. *)
Theorem remove_emojis_never_lengthens (s : str) :
  length (RemoveEmojis.remove_emojis s) <= length s
  /\ (0 <= RemoveEmojis.removed (RemoveEmojis.main s))%Z.
Proof.
  assert (H : length (RemoveEmojis.remove_emojis s) <= length s).
  { unfold RemoveEmojis.remove_emojis.
    etransitivity; [apply re_sub_length; [cbn; lia | intros e; cbn; lia] |].
    etransitivity; [apply re_sub_length; [cbn; lia | intros e; cbn; lia] |].
    etransitivity; [apply fold_replace_delete_length |].
    apply re_sub_length; [cbn; lia | intros e; cbn; lia]. }
  split; [exact H |].
  unfold RemoveEmojis.main. cbn [RemoveEmojis.removed]. lia.
Qed.

(** C3, the failing input.  [remove_emojis] is to remove all emoji
    characters, and [main] announces its output as the emoji-free
    version.  The watch emoji U+231A is below every range of
    [emoji_pattern], and the later steps delete only U+FE0F, U+200D,
    spaces and newlines: it passes through [remove_emojis] untouched. *)
Lemma remove_emojis_keeps_watch :
  In RemoveEmojis.WATCH
     (RemoveEmojis.remove_emojis (py "at " ++ [RemoveEmojis.WATCH] ++ py " sharp")).
Proof. vm_compute. tauto. Qed.

(* ------------------------------------------------------------------ *)
(** ** replace_br_tags.py *)

Lemma no_br_nil : ReplaceBrTags.no_br [].
Proof.
  intros p t H. symmetry in H. apply app_eq_nil in H as [_ ->]. reflexivity.
Qed.

Lemma no_br_cons (c : N) (s : str) :
  ReplaceBrTags.br_at (c :: s) = false -> ReplaceBrTags.no_br s -> ReplaceBrTags.no_br (c :: s).
Proof.
  intros Hc Hs [|x p] t H; cbn [app] in H.
  - now subst t.
  - injection H as _ H. now apply (Hs p).
Qed.

Lemma no_br_tail (c : N) (s : str) : ReplaceBrTags.no_br (c :: s) -> ReplaceBrTags.no_br s.
Proof. intros H p t E. apply (H (c :: p)). now rewrite E. Qed.

Lemma no_br_head (s : str) : ReplaceBrTags.no_br s -> ReplaceBrTags.br_at s = false.
Proof. intros H. now apply (H []). Qed.

(** The pattern of the substitution matches wherever a plain [<br>] stands. *)
Lemma br_tag_matches (pre s : str) :
  ReplaceBrTags.br_at s = true -> match_at ReplaceBrTags.br_tag pre s <> None.
Proof.
  destruct s as [|a [|b [|r [|g tl]]]]; try discriminate.
  cbn [ReplaceBrTags.br_at]. intros H.
  apply andb_prop in H as [H Hg]. apply andb_prop in H as [H Hr].
  apply andb_prop in H as [Ha Hb].
  unfold lit in Ha, Hg. apply N.eqb_eq in Ha, Hg. subst a g.
  change (chr "b") with 98%N in Hb. change (chr "r") with 114%N in Hr.
  unfold match_at, ReplaceBrTags.br_tag, Opt.
  cbn [seq run start rest flat_map advance prev caps app map].
  change (lit (chr "<") (chr "<")) with true.
  change (chr "b") with 98%N. change (chr "r") with 114%N.
  cbn [flat_map app rest advance prev caps]. rewrite Hb.
  cbn [flat_map app rest advance prev caps]. rewrite Hr.
  cbn [flat_map app rest advance prev caps length star_loop].
  change (isspace (chr ">")) with false.
  cbn [flat_map app rest advance prev caps].
  change (lit (chr "/") (chr ">")) with false.
  cbn [flat_map app rest advance prev caps length star_loop].
  change (isspace (chr ">")) with false.
  cbn [flat_map app rest advance prev caps].
  change (lit (chr ">") (chr ">")) with true.
  cbn [flat_map app hd_error]. discriminate.
Qed.

(** The pattern the script counts with matches only at a plain [<br>]. *)
Lemma br_plain_matches (pre s : str) :
  match_at ReplaceBrTags.br_plain pre s <> None -> ReplaceBrTags.br_at s = true.
Proof.
  unfold match_at, ReplaceBrTags.br_plain.
  destruct s as [|a [|b [|r [|g tl]]]]; cbn [seq run start rest flat_map app ReplaceBrTags.br_at].
  - intros H; now contradiction H.
  - destruct (lit (chr "<") a); cbn; intros H; now contradiction H.
  - destruct (lit (chr "<") a); cbn [flat_map app run rest advance];
      [|intros H; now contradiction H].
    destruct (ci (chr "b") b); cbn; intros H; now contradiction H.
  - destruct (lit (chr "<") a); cbn [flat_map app run rest advance];
      [|intros H; now contradiction H].
    destruct (ci (chr "b") b); cbn [flat_map app run rest advance];
      [|intros H; now contradiction H].
    destruct (ci (chr "r") r); cbn; intros H; now contradiction H.
  - destruct (lit (chr "<") a); cbn [flat_map app run rest advance];
      [|intros H; now contradiction H].
    destruct (ci (chr "b") b); cbn [flat_map app run rest advance];
      [|intros H; now contradiction H].
    destruct (ci (chr "r") r); cbn [flat_map app run rest advance];
      [|intros H; now contradiction H].
    destruct (lit (chr ">") g); cbn; [reflexivity | intros H; now contradiction H].
Qed.

(** A character of the result other than the newline was copied from
    the subject, at the same place. *)
Lemma sub_br_head (pre s : str) (x : N) (o : str) :
  sub_go ReplaceBrTags.br_tag ReplaceBrTags.nl_repl 0 pre s = x :: o ->
  x <> NL ->
  exists tl, s = x :: tl /\ o = sub_go ReplaceBrTags.br_tag ReplaceBrTags.nl_repl 0 (x :: pre) tl.
Proof.
  rewrite sub_go_nonempty by (cbn; lia).
  destruct s as [|c tl]; [discriminate |].
  destruct (match_at ReplaceBrTags.br_tag pre (c :: tl)) as [e|].
  - cbn [ReplaceBrTags.nl_repl app]. intros [= <- _] Hx. now contradiction Hx.
  - intros [= <- <-] _. now exists tl.
Qed.

Lemma ci_not_nl (a x : N) :
  ci a x = true -> (a = chr "b" \/ a = chr "r") -> x <> NL.
Proof.
  intros H [-> | ->] ->; vm_compute in H; discriminate.
Qed.

Lemma sub_br_no_br :
  forall s skip pre, ReplaceBrTags.no_br (sub_go ReplaceBrTags.br_tag ReplaceBrTags.nl_repl skip pre s).
Proof.
  induction s as [|c tl IH]; intros skip pre; destruct skip as [|k].
  - rewrite sub_go_nonempty by (cbn; lia). apply no_br_nil.
  - apply no_br_nil.
  - rewrite sub_go_nonempty by (cbn; lia).
    destruct (match_at ReplaceBrTags.br_tag pre (c :: tl)) as [e|] eqn:E.
    + cbn [ReplaceBrTags.nl_repl app]. apply no_br_cons; [|apply IH].
      destruct (sub_go _ _ _ _ _) as [|? [|? [|? ?]]]; reflexivity.
    + apply no_br_cons; [|apply IH].
      destruct (ReplaceBrTags.br_at (c :: sub_go ReplaceBrTags.br_tag ReplaceBrTags.nl_repl 0 (c :: pre) tl)) eqn:B;
        [exfalso | reflexivity].
      destruct (sub_go ReplaceBrTags.br_tag ReplaceBrTags.nl_repl 0 (c :: pre) tl)
        as [|b [|r [|g o]]] eqn:Eo; try discriminate.
      cbn [ReplaceBrTags.br_at] in B.
      apply andb_prop in B as [B Hg]. apply andb_prop in B as [B Hr].
      apply andb_prop in B as [Ha Hb].
      apply sub_br_head in Eo as (tl1 & -> & Eo);
        [|apply (ci_not_nl _ _ Hb); now left].
      symmetry in Eo. apply sub_br_head in Eo as (tl2 & -> & Eo);
        [|apply (ci_not_nl _ _ Hr); now right].
      symmetry in Eo. apply sub_br_head in Eo as (tl3 & -> & Eo);
        [|unfold lit in Hg; apply N.eqb_eq in Hg; subst g; discriminate].
      apply (br_tag_matches pre (c :: b :: r :: g :: tl3)); [|exact E].
      cbn [ReplaceBrTags.br_at]. now rewrite Ha, Hb, Hr, Hg.
  - cbn [sub_go]. apply IH.
Qed.

Lemma count_br_plain_zero :
  forall s skip pre, ReplaceBrTags.no_br s -> count_go ReplaceBrTags.br_plain skip pre s = 0.
Proof.
  induction s as [|c tl IH]; intros skip pre H; destruct skip as [|k]; cbn [count_go].
  - destruct (match_at ReplaceBrTags.br_plain pre []) eqn:E; [|reflexivity].
    assert (B : ReplaceBrTags.br_at [] = true) by (apply (br_plain_matches pre); now rewrite E).
    discriminate.
  - reflexivity.
  - destruct (match_at ReplaceBrTags.br_plain pre (c :: tl)) eqn:E.
    + assert (B : ReplaceBrTags.br_at (c :: tl) = true) by (apply (br_plain_matches pre); now rewrite E).
      now rewrite (no_br_head _ H) in B.
    + apply IH. now apply no_br_tail in H.
  - apply IH. now apply no_br_tail in H.
Qed.

(** C1. Whatever the input, the text [replace_br_tags] returns holds no
    [<br>] in any letter case, and the count of remaining tags that
    [main] takes on it with [re.findall(r'<br>', ..., re.IGNORECASE)]
    is zero. *)
Theorem replace_br_tags_leaves_no_br (content : str) :
  (forall pre tag post,
      In tag [py "<br>"; py "<BR>"; py "<Br>"; py "<bR>"] ->
      ReplaceBrTags.replace_br_tags content <> pre ++ tag ++ post)
  /\ ReplaceBrTags.remaining_br (ReplaceBrTags.main content) = 0.
Proof.
  pose proof (sub_br_no_br content 0 []) as H.
  change (ReplaceBrTags.no_br (ReplaceBrTags.replace_br_tags content)) in H.
  split.
  - intros pre tag post Htag E. apply H in E.
    cbn [In] in Htag. destruct Htag as [<- | [<- | [<- | [<- | []]]]];
      vm_compute in E; discriminate.
  - unfold ReplaceBrTags.main. cbn [ReplaceBrTags.remaining_br].
    now apply count_br_plain_zero.
Qed.

(* ------------------------------------------------------------------ *)
(** ** The equations of the matcher *)

Lemma run_Seq (a b : re) (st : state) :
  run (Seq a b) st = flat_map (run b) (run a st).
Proof. reflexivity. Qed.

Lemma run_Alt (a b : re) (st : state) : run (Alt a b) st = run a st ++ run b st.
Proof. reflexivity. Qed.

Lemma run_Eps (st : state) : run Eps st = [st].
Proof. reflexivity. Qed.

Lemma run_Chr_cons (p : N -> bool) (pre : str) (c : N) (tl : str)
    (cs : list (nat * str)) :
  run (Chr p) (mkState pre (c :: tl) cs)
  = if p c then [mkState (c :: pre) tl cs] else [].
Proof. reflexivity. Qed.

Lemma run_Chr_nil (p : N -> bool) (pre : str) (cs : list (nat * str)) :
  run (Chr p) (mkState pre [] cs) = [].
Proof. reflexivity. Qed.

Lemma run_Group (i : nat) (a : re) (st : state) :
  run (Group i a) st = map (set_cap i st) (run a st).
Proof. reflexivity. Qed.

Lemma run_Bol_start (s : str) (cs : list (nat * str)) :
  run Bol (mkState [] s cs) = [mkState [] s cs].
Proof. reflexivity. Qed.

Lemma flat_map_one (A B : Type) (f : A -> list B) (x : A) :
  flat_map f [x] = f x.
Proof. cbn. apply app_nil_r. Qed.

(* ------------------------------------------------------------------ *)
(** ** Greedy stars over one class *)

(** What [c*] yields, longest first, as a function of the text alone. *)
Lemma star_loop_chr (p : N -> bool) :
  forall fuel s pre cs,
    length s <= fuel ->
    star_loop (run (Chr p)) true fuel (mkState pre s cs) = star_chr p pre s cs.
Proof.
  induction fuel as [|f IH]; intros s pre cs Hlen.
  - destruct s; [reflexivity | cbn in Hlen; lia].
  - destruct s as [|c tl]; [reflexivity |].
    cbn [star_loop star_chr].
    change (run (Chr p) (mkState pre (c :: tl) cs))
      with (if p c then [advance c tl (mkState pre (c :: tl) cs)] else []).
    destruct (p c); [|reflexivity].
    cbn [flat_map advance rest prev caps length].
    assert (L : (length tl <? S (length tl)) = true) by (apply Nat.ltb_lt; lia).
    rewrite L, app_nil_r. unfold advance. cbn [prev rest caps].
    rewrite IH by (cbn in Hlen; lia). reflexivity.
Qed.

Lemma run_star_chr (p : N -> bool) (pre s : str) (cs : list (nat * str)) :
  run (Star true (Chr p)) (mkState pre s cs) = star_chr p pre s cs.
Proof. cbn [run rest]. now apply star_loop_chr. Qed.

Lemma repeat_snoc_app (c : N) (n : nat) (s : str) :
  repeat c n ++ c :: s = repeat c (S n) ++ s.
Proof.
  induction n as [|n IH]; [reflexivity |].
  cbn [repeat app] in *. now rewrite IH.
Qed.

(** When what follows the star cannot start with a character of the
    class, only the longest iteration goes through. *)
Lemma flat_map_star_run (c : N) (K : state -> list state) :
  (forall pre tl cs, K (mkState pre (c :: tl) cs) = []) ->
  forall n t pre cs,
    hd_error t <> Some c ->
    flat_map K (star_chr (lit c) pre (repeat c n ++ t) cs)
    = K (mkState (repeat c n ++ pre) t cs).
Proof.
  intros HK. induction n as [|n IH]; intros t pre cs Ht.
  - cbn [repeat app]. destruct t as [|x tl]; [cbn; apply app_nil_r |].
    cbn [star_chr]. unfold lit at 1.
    destruct (N.eqb_spec x c) as [-> | _]; [now contradiction Ht |].
    cbn. apply app_nil_r.
  - cbn [repeat app star_chr]. unfold lit at 1. rewrite N.eqb_refl.
    rewrite flat_map_app. cbn [flat_map]. rewrite HK, !app_nil_r.
    rewrite IH by exact Ht. now rewrite repeat_snoc_app.
Qed.

Lemma flat_map_map_compose (A B C : Type) (f : A -> B) (g : B -> list C)
    (l : list A) :
  flat_map g (map f l) = flat_map (fun x => g (f x)) l.
Proof. induction l as [|x l IH]; cbn; [reflexivity | now rewrite IH]. Qed.

(* ------------------------------------------------------------------ *)
(** ** promote_headings.py *)

(** What [re.match(r'^(#+)\s', line)] returns on a line that starts
    with [n+1] hash marks followed by something else. *)
Lemma heading_match (n : nat) (t : str) :
  hd_error t <> Some (chr "#") ->
  re_match PromoteHeadings.heading (repeat (chr "#") (S n) ++ t)
  = match t with
    | w :: r =>
        if isspace w
        then Some (mkState (w :: repeat (chr "#") (S n)) r
                           [(1, repeat (chr "#") (S n))])
        else None
    | [] => None
    end.
Proof.
  intros Ht. unfold re_match, match_at, PromoteHeadings.heading, Plus, start.
  cbn [seq repeat app].
  rewrite run_Seq, run_Bol_start, flat_map_one.
  rewrite run_Seq, run_Group, run_Seq, run_Chr_cons.
  change (lit (chr "#") (chr "#")) with true. cbv iota. rewrite flat_map_one.
  rewrite run_star_chr, flat_map_map_compose.
  rewrite (flat_map_star_run (chr "#")
             (fun x => run (Chr isspace)
                         (set_cap 1 (mkState [] (chr "#" :: repeat (chr "#") n ++ t) []) x)));
    [| intros; reflexivity | exact Ht].
  unfold set_cap. cbn [rest prev caps].
  destruct t as [|w r]; [reflexivity |].
  rewrite run_Chr_cons.
  destruct (isspace w); [|reflexivity].
  cbn [hd_error]. unfold consumed. cbn [rest].
  change (chr "#" :: repeat (chr "#") n ++ w :: r)
    with (repeat (chr "#") (S n) ++ w :: r).
  rewrite length_app, repeat_length.
  replace (S n + length (w :: r) - length (w :: r)) with (S n + 0) by lia.
  rewrite <- (repeat_length (chr "#") (S n)) at 1.
  rewrite firstn_app_2, firstn_O, app_nil_r.
  rewrite (repeat_snoc_app (chr "#") n []), app_nil_r. reflexivity.
Qed.

(** Every text is a run of hash marks followed by a text that does not
    start with one. *)
Lemma hashes_split (line : str) :
  exists n t, line = repeat (chr "#") n ++ t /\ hd_error t <> Some (chr "#").
Proof.
  induction line as [|c tl (n & t & -> & Ht)].
  - exists 0, []. split; [reflexivity | discriminate].
  - destruct (N.eqb_spec c (chr "#")) as [-> | Hc].
    + exists (S n), t. split; [reflexivity | exact Ht].
    + exists 0, (c :: repeat (chr "#") n ++ t). split; [reflexivity |].
      cbn. intros [= E]. now apply Hc.
Qed.

Lemma repeat_app_inj (c : N) :
  forall n m t u,
    hd_error t <> Some c -> hd_error u <> Some c ->
    repeat c n ++ t = repeat c m ++ u -> n = m /\ t = u.
Proof.
  induction n as [|n IH]; intros [|m] t u Ht Hu E; cbn [repeat app] in E.
  - now split.
  - subst t. now contradiction Ht.
  - subst u. now contradiction Hu.
  - injection E as E. destruct (IH m t u Ht Hu E) as [-> ->]. now split.
Qed.

Lemma isspace_not_hash (w : N) : isspace w = true -> hd_error (w :: []) <> Some (chr "#").
Proof. intros H [= ->]. vm_compute in H. discriminate. Qed.

(** The line the loop appends, by the shape of the line it reads. *)
Lemma promote_line_shape (n : nat) (t : str) :
  hd_error t <> Some (chr "#") ->
  PromoteHeadings.promote_line (repeat (chr "#") n ++ t)
  = match n, t with
    | S (S m), w :: r =>
        if isspace w then repeat (chr "#") (S m) ++ w :: r
        else repeat (chr "#") n ++ t
    | _, _ => repeat (chr "#") n ++ t
    end.
Proof.
  intros Ht. unfold PromoteHeadings.promote_line.
  destruct n as [|n].
  - cbn [repeat app]. destruct t as [|x tl]; [reflexivity |].
    cbn [py map list_ascii_of_string startswith].
    destruct (N.eqb_spec (N_of_ascii "#") x) as [<- | _]; [now contradiction Ht | reflexivity].
  - replace (startswith (py "#") (repeat (chr "#") (S n) ++ t)) with true by reflexivity.
    rewrite heading_match by exact Ht.
    destruct t as [|w r]; [now destruct n |].
    destruct (isspace w); [|now destruct n].
    unfold group. cbn [caps lookup Nat.eqb]. rewrite repeat_length.
    destruct n; reflexivity.
Qed.

Lemma promote_headings_map (lines : list str) :
  PromoteHeadings.promote_headings lines = map PromoteHeadings.promote_line lines.
Proof.
  unfold PromoteHeadings.promote_headings.
  enough (H : forall acc,
             fold_left (fun new_lines line =>
                          new_lines ++ [PromoteHeadings.promote_line line]) lines acc
             = acc ++ map PromoteHeadings.promote_line lines) by apply (H []).
  induction lines as [|l ls IH]; intros acc; cbn [fold_left map].
  - now rewrite app_nil_r.
  - rewrite IH, <- app_assoc. reflexivity.
Qed.

(** C2. The script rewrites the file line by line.  A line of two or
    more hash marks followed by a whitespace character loses its first
    hash mark; every other line (a level-1 heading, hash marks not
    followed by whitespace, a line that is no heading) is written back
    as it was read. *)
Theorem promote_headings_line_by_line (content : str) :
  PromoteHeadings.main content
  = writelines (map PromoteHeadings.promote_line (readlines content))
  /\ forall line,
       (exists n w r,
           line = repeat (chr "#") (S (S n)) ++ w :: r /\ isspace w = true
           /\ PromoteHeadings.promote_line line = repeat (chr "#") (S n) ++ w :: r)
       \/ ((forall n w r, isspace w = true ->
                          line <> repeat (chr "#") (S (S n)) ++ w :: r)
           /\ PromoteHeadings.promote_line line = line).
Proof.
  split.
  - unfold PromoteHeadings.main. now rewrite promote_headings_map.
  - intros line. destruct (hashes_split line) as (n & t & -> & Ht).
    rewrite (promote_line_shape n t Ht).
    destruct n as [|[|m]].
    + right. split; [|reflexivity].
      intros n w r Hw E.
      apply (repeat_app_inj (chr "#") 0 (S (S n)) t (w :: r)) in E as [E _];
        [discriminate | exact Ht |].
      intros [= ->]. vm_compute in Hw. discriminate.
    + right. split; [|now destruct t].
      intros n w r Hw E.
      apply (repeat_app_inj (chr "#") 1 (S (S n)) t (w :: r)) in E as [E _];
        [discriminate | exact Ht |].
      intros [= ->]. vm_compute in Hw. discriminate.
    + destruct t as [|w r].
      * right. split; [|reflexivity].
        intros n w r Hw E.
        apply (repeat_app_inj (chr "#") (S (S m)) (S (S n)) [] (w :: r)) in E as [_ E];
          [discriminate | exact Ht |].
        intros [= ->]. vm_compute in Hw. discriminate.
      * destruct (isspace w) eqn:Hw.
        -- left. exists m, w, r. now repeat split.
        -- right. split; [|reflexivity].
           intros n w' r' Hw' E.
           apply (repeat_app_inj (chr "#") (S (S m)) (S (S n)) (w :: r) (w' :: r'))
             in E as [_ E]; [| exact Ht |].
           ++ injection E as -> _. congruence.
           ++ intros [= ->]. vm_compute in Hw'. discriminate.
Qed.

(* ------------------------------------------------------------------ *)
(** ** add_newlines_before_lists.py *)

Section AddNewlinesFacts.
Context {U : Unicode}.
Import AddNewlines.

Lemma nth_last_done (done : list str) (l : str) (todo : list str) :
  nth (length (done ++ [l]) - 1) ((done ++ [l]) ++ todo) [] = l.
Proof.
  rewrite length_app. cbn [length]. replace (length done + 1 - 1) with (length done) by lia.
  rewrite <- app_assoc. rewrite app_nth2 by lia. now rewrite Nat.sub_diag.
Qed.

(** The loop over indices is the loop over (previous line, line). *)
Lemma loop_go :
  forall todo done in_code result,
    loop (done ++ todo) (length done) todo in_code result
    = result ++ go (match done with [] => None | _ => Some (last done []) end)
                   todo in_code.
Proof.
  induction todo as [|line todo IH]; intros done in_code result.
  - cbn. now rewrite app_nil_r.
  - assert (E : done ++ line :: todo = (done ++ [line]) ++ todo)
      by now rewrite <- app_assoc.
    assert (L : S (length done) = length (done ++ [line]))
      by (rewrite length_app; cbn; lia).
    assert (B : match done ++ [line] with [] => None | _ => Some (last (done ++ [line]) []) end
                = Some line).
    { rewrite last_last. now destruct done. }
    cbn [loop go].
    destruct (is_code_fence line).
    { rewrite E, L, IH, B, <- app_assoc. reflexivity. }
    destruct in_code.
    { rewrite E, L, IH, B, <- app_assoc. reflexivity. }
    destruct (is_list_item line).
    + destruct done as [|d done'].
      * replace (0 <? length (@nil str)) with false by reflexivity.
        cbn [andb]. rewrite E, L, IH, B, <- app_assoc. reflexivity.
      * replace (0 <? length (d :: done')) with true by reflexivity.
        cbn [andb].
        assert (N : nth (length (d :: done') - 1) ((d :: done') ++ line :: todo) []
                    = last (d :: done') []).
        { destruct (exists_last (l := d :: done')) as (front & x & Ex); [discriminate |].
          rewrite Ex, last_last. apply nth_last_done. }
        rewrite N.
        destruct (is_blank_line (last (d :: done') [])); cbn [negb].
        -- rewrite E, L, IH, B, <- app_assoc. reflexivity.
        -- destruct (is_list_item (last (d :: done') [])); cbn [negb].
           ++ rewrite E, L, IH, B, <- app_assoc. reflexivity.
           ++ rewrite E, L, IH, B, <- !app_assoc. reflexivity.
    + rewrite E, L, IH, B, <- app_assoc. reflexivity.
Qed.

Lemma loop_is_go (lines : list str) :
  loop lines 0 lines false [] = go None lines false.
Proof. apply (loop_go lines [] false []). Qed.

Lemma empty_line_facts :
  is_code_fence [] = false /\ is_list_item [] = false /\ is_blank_line [] = true.
Proof. repeat split. Qed.

(** What the loop produces is settled... *)
Lemma go_settled :
  forall todo before in_code, settled before (go before todo in_code) in_code = true.
Proof.
  destruct empty_line_facts as (F0 & L0 & B0).
  induction todo as [|line todo IH]; intros before in_code; [reflexivity |].
  cbn [go].
  destruct (is_code_fence line) eqn:F; [cbn [settled]; now rewrite F |].
  destruct in_code; [cbn [settled]; now rewrite F |].
  destruct (is_list_item line) eqn:L.
  - destruct before as [p|].
    + destruct (is_blank_line p) eqn:B; cbn [negb].
      * cbn [app settled]. now rewrite F, L, B, IH.
      * destruct (is_list_item p) eqn:Lp; cbn [negb].
        -- cbn [app settled]. rewrite F, L, B, Lp, IH. reflexivity.
        -- cbn [app settled]. now rewrite F0, L0, F, L, B0, IH.
    + cbn [app settled]. now rewrite F, L, IH.
  - cbn [app settled]. now rewrite F, L, IH.
Qed.

(** ... and on settled lines the loop inserts nothing. *)
Lemma go_on_settled :
  forall todo before in_code,
    settled before todo in_code = true -> go before todo in_code = todo.
Proof.
  induction todo as [|line todo IH]; intros before in_code; [reflexivity |].
  cbn [go settled].
  destruct (is_code_fence line); [intros H; now rewrite IH |].
  destruct in_code; [intros H; now rewrite IH |].
  intros H. apply andb_prop in H as [H1 H2]. rewrite (IH _ _ H2).
  destruct (is_list_item line); [|reflexivity].
  destruct before as [p|]; [|reflexivity].
  destruct (is_blank_line p); [reflexivity |].
  cbn [orb] in H1. now rewrite H1.
Qed.

(** A second pass over what the loop produced changes nothing. *)
Lemma go_idempotent (todo : list str) (before : option str) (in_code : bool) :
  go before (go before todo in_code) in_code = go before todo in_code.
Proof. apply go_on_settled, go_settled. Qed.

Lemma go_lines (x : str) :
  forall todo before in_code,
    In x (go before todo in_code) -> x = [] \/ In x todo.
Proof.
  induction todo as [|line todo IH]; intros before in_code; cbn [go]; [intros [] |].
  assert (T : forall b ic, In x (line :: go b todo ic) -> x = [] \/ In x (line :: todo)).
  { intros b ic [<- | H]; [right; now left |].
    apply IH in H as [H | H]; [now left | right; now right]. }
  destruct (is_code_fence line); [apply T |].
  destruct in_code; [apply T |].
  intros H. apply in_app_or in H as [H | H]; [|now apply T in H].
  left. destruct (is_list_item line); [|destruct H].
  destruct before as [p|]; [|destruct H].
  destruct (negb (is_blank_line p)); [|destruct H].
  destruct (negb (is_list_item p)); [|destruct H].
  destruct H as [<- | []]. reflexivity.
Qed.

Lemma go_nonempty (todo : list str) (before : option str) (in_code : bool) :
  todo <> [] -> go before todo in_code <> [].
Proof.
  destruct todo as [|line todo]; [easy |]. intros _. cbn [go].
  destruct (is_code_fence line); [discriminate |].
  destruct in_code; [discriminate |].
  intros H. apply app_eq_nil in H as [_ H]. discriminate.
Qed.

End AddNewlinesFacts.

(** [split('\n')] and ['\n'.join] *)
Lemma split_nl_nonempty (s : str) : split_nl s <> [].
Proof.
  induction s as [|c tl IH]; cbn [split_nl]; [discriminate |].
  destruct (c =? NL)%N; [discriminate |].
  destruct (split_nl tl); [now contradiction IH | discriminate].
Qed.

Lemma split_nl_no_nl (s : str) (l : str) : In l (split_nl s) -> ~ In NL l.
Proof.
  revert l. induction s as [|c tl IH]; intros l; cbn [split_nl].
  - intros [<- | []] [].
  - destruct (N.eqb_spec c NL) as [-> | Hc].
    + intros [<- | H]; [intros [] | now apply IH].
    + destruct (split_nl tl) as [|l0 ls] eqn:E.
      * intros [<- | []] [H | []]. now apply Hc.
      * intros [<- | H].
        -- intros [H | H]; [now apply Hc | apply (IH l0); [now left | exact H]].
        -- apply IH. now right.
Qed.

Lemma split_nl_app_line (l : str) (s : str) :
  ~ In NL l ->
  split_nl (l ++ NL :: s) = l :: split_nl s.
Proof.
  induction l as [|c l IH]; intros H; cbn [app split_nl].
  - now rewrite N.eqb_refl.
  - destruct (N.eqb_spec c NL) as [-> | _]; [contradiction H; now left |].
    rewrite IH; [reflexivity |]. intros H'. apply H. now right.
Qed.

Lemma split_nl_line (l : str) : ~ In NL l -> split_nl l = [l].
Proof.
  induction l as [|c l IH]; intros H; cbn [split_nl]; [reflexivity |].
  destruct (N.eqb_spec c NL) as [-> | _]; [contradiction H; now left |].
  rewrite IH; [reflexivity |]. intros H'. apply H. now right.
Qed.

Lemma split_join_nl (ls : list str) :
  ls <> [] -> (forall l, In l ls -> ~ In NL l) -> split_nl (join_nl ls) = ls.
Proof.
  induction ls as [|l ls IH]; [easy |]. intros _ H.
  destruct ls as [|l' ls'].
  - cbn [join_nl]. apply split_nl_line. apply H. now left.
  - change (join_nl (l :: l' :: ls')) with (l ++ NL :: join_nl (l' :: ls')).
    rewrite split_nl_app_line by (apply H; now left).
    rewrite IH; [reflexivity | discriminate |].
    intros x Hx. apply H. now right.
Qed.

(** C9. [add_newlines_before_lists] is idempotent.  In its result every
    list item outside a code block already comes after a blank line or
    another list item, so a second pass inserts nothing. *)
Theorem add_newlines_before_lists_idempotent {U : Unicode} (s : str) :
  AddNewlines.settled None
    (split_nl (AddNewlines.add_newlines_before_lists s)) false = true
  /\ AddNewlines.add_newlines_before_lists (AddNewlines.add_newlines_before_lists s)
     = AddNewlines.add_newlines_before_lists s.
Proof.
  unfold AddNewlines.add_newlines_before_lists.
  rewrite !loop_is_go.
  assert (E : split_nl (join_nl (AddNewlines.go None (split_nl s) false))
              = AddNewlines.go None (split_nl s) false).
  { apply split_join_nl.
    - apply go_nonempty, split_nl_nonempty.
    - intros l Hl. apply go_lines in Hl as [-> | Hl]; [intros [] |].
      now apply split_nl_no_nl in Hl. }
  rewrite E. split; [apply go_settled | now rewrite go_idempotent].
Qed.

(* ------------------------------------------------------------------ *)
(** ** generate_diagrams.py *)

Section GenerateDiagramsFacts.
Import IO GenerateDiagrams.

Lemma install_dependencies_fails (e : env) (w : world) :
  graphviz_importable e = false \/ which_dot e <> 0%Z ->
  exists msgs,
    msgs <> []
    /\ install_dependencies e w
       = (Ok false, mkWorld (files w) (trace w ++ map Print msgs)).
Proof.
  intros H. unfold install_dependencies.
  destruct (graphviz_importable e) eqn:G; cbn [negb].
  - destruct H as [H | H]; [discriminate |].
    destruct (Z.eqb_spec (which_dot e) 0) as [E | _]; [now contradiction H |].
    cbn [negb]. eexists [_; _]. split; [discriminate |].
    unfold bind, print, log, ret. cbn [files trace map].
    now rewrite <- !app_assoc.
  - eexists [_; _; _; _; _; _; _; _]. split; [discriminate |].
    unfold bind, print, log, ret. cbn [files trace map].
    now rewrite <- !app_assoc.
Qed.

(** C6. Without the [graphviz] module, or without the [dot] binary,
    [install_dependencies] prints its message and returns [False], and
    [main] returns after one more message: it only prints.  No diagram
    is rendered, no file is read or written, and every file, the
    Markdown file named on the command line among them, is as it was. *)
Theorem main_aborts_without_graphviz (e : env) (w : world) :
  graphviz_importable e = false \/ which_dot e <> 0%Z ->
  (exists msgs,
      msgs <> []
      /\ install_dependencies e w
         = (Ok false, mkWorld (files w) (trace w ++ map Print msgs)))
  /\ exists msgs,
      main e w = (Ok tt, mkWorld (files w) (trace w ++ map Print msgs))
      /\ (forall ev, In ev (map Print msgs) ->
                     forall p c, ev <> Render p /\ ev <> ReadFile p
                                 /\ ev <> WriteFile p c /\ ev <> Mkdir p).
Proof.
  intros H. split; [now apply install_dependencies_fails |].
  unfold main, bind at 1 2 3 4, print at 1 2 3, log. cbn [files trace].
  destruct (install_dependencies_fails e
              (mkWorld (files w)
                 (((trace w ++ [Print (repeat (chr "=") 60)])
                   ++ [Print (py "Diagram Generation Tool")])
                  ++ [Print (repeat (chr "=") 60)])) H) as (msgs & _ & ->).
  cbn [negb files trace]. unfold print, log. cbn [files trace].
  exists ([repeat (chr "=") 60; py "Diagram Generation Tool"; repeat (chr "=") 60]
          ++ msgs ++ [[NL] ++ py "Please install Graphviz and try again."]).
  split.
  - rewrite !map_app. cbn [map app]. now rewrite <- !app_assoc.
  - intros ev Hev p c. apply in_map_iff in Hev as (l & <- & _).
    repeat split; discriminate.
Qed.

Lemma main_aborts_without_graphviz_witness :
  exists msgs,
    main no_graphviz (mkWorld (fun _ => Some (py "# Title")) [])
    = (Ok tt, mkWorld (fun _ => Some (py "# Title")) ([] ++ map Print msgs)).
Proof.
  destruct (main_aborts_without_graphviz no_graphviz
              (mkWorld (fun _ => Some (py "# Title")) [])
              (or_introl eq_refl)) as (_ & msgs & E & _).
  exists msgs. exact E.
Defined.

Lemma skip_blank_ge (ls : list str) : forall j, j <= skip_blank ls j.
Proof.
  induction ls as [|l ls IH]; intros j; cbn [skip_blank]; [lia |].
  destruct (is_blank l); [|lia]. specialize (IH (S j)). lia.
Qed.

Lemma closing_fence_ge (ls : list str) :
  forall k b k', closing_fence ls k b = Some k' -> k <= k'.
Proof.
  induction ls as [|l ls IH]; intros k b k'; cbn [closing_fence]; [discriminate |].
  destruct (is_fence l).
  - destruct b; [intros [= <-]; lia | discriminate].
  - intros H. apply IH in H. lia.
Qed.

Lemma at_heading_advances (dir : str) (lines : list str) (line : str) (v : vars) :
  i v <= i (at_heading dir lines line v).
Proof.
  unfold at_heading.
  destruct (dict_find (strip line) primary_insertions) as [[heading diagram]|];
    cbn [i]; [|lia].
  destruct (_ && _); lia.
Qed.

Lemma ascii_block_after_ge (lines : list str) (i' k : nat) :
  ascii_block_after lines i' = Some k -> i' < k.
Proof.
  unfold ascii_block_after.
  pose proof (skip_blank_ge (skipn (i' + 1) lines) (i' + 1)) as Hj.
  destruct (_ && _); [|discriminate].
  intros H. apply closing_fence_ge in H. lia.
Qed.

Lemma at_overview_advances (dir : str) (lines : list str) (line : str) (v : vars) :
  i v <= i (at_overview dir lines line v).
Proof.
  unfold at_overview.
  destruct (current_section v) as [section|]; [|lia].
  destruct (negb (in_code_block v) && _); [|lia].
  set (i' := if (i v + 1 <? length lines) && is_blank (nth (i v + 1) lines [])
             then i v + 1 else i v).
  assert (H : i v <= i') by (subst i'; destruct (_ && _); lia).
  destruct (ascii_block_after lines i') as [k|] eqn:Ek; cbn [i]; [|lia].
  apply ascii_block_after_ge in Ek.
  pose proof (skip_blank_ge (skipn (k + 1) lines) (k + 1)). lia.
Qed.

Lemma after_append_advances (dir : str) (lines : list str) (line : str) (v : vars) :
  i v < i (after_append dir lines line v).
Proof.
  unfold after_append, next. cbn [i].
  pose proof (at_heading_advances dir lines line v).
  pose proof (at_overview_advances dir lines line (at_heading dir lines line v)).
  lia.
Qed.

(** Every turn of the loop moves the index on. *)
Lemma step_advances (dir : str) (lines : list str) (v : vars) :
  i v < i (step dir lines v).
Proof.
  unfold step.
  repeat match goal with
         | |- context [if ?c then _ else _] => destruct c
         | |- context [after_append ?d ?l ?x ?w] =>
             pose proof (after_append_advances d l x w);
             generalize dependent (after_append d l x w); intros
         end;
    cbn [i next] in *; lia.
Qed.

(** The fuel of the loop is enough: it stops because the index has
    reached the end of the lines. *)
Lemma while_loop_finishes (dir : str) (lines : list str) :
  length lines <= i (run_loop dir lines).
Proof.
  unfold run_loop.
  enough (H : forall fuel v, length lines <= i v + fuel ->
                             length lines <= i (while_loop fuel dir lines v))
    by (apply H; cbn [i]; lia).
  induction fuel as [|fuel IH]; intros v Hv; cbn [while_loop]; [lia |].
  destruct (Nat.ltb_spec (i v) (length lines)); [|lia].
  apply IH. pose proof (step_advances dir lines v). lia.
Qed.

(** C4, the failing input.  The look-ahead at a code fence starts on
    the fence itself and stops there: it sees a box-drawing character
    only when the fence line holds one.  So the ASCII-art block of the
    chapter is written out with the rest. *)
Theorem ascii_art_block_is_kept :
  (forall fence window,
      is_fence fence = true ->
      look_ahead (fence :: window) = has_any box_chars fence)
  /\ modified_lines (run_loop (py "diagrams") chapter_with_ascii_art)
     = [ py "# Virtualized Infinite List with Dynamic Heights" ++ [NL];
         [NL];
         diagram_text (py "diagrams") (py "virtuallist-architecture.png");
         py "The layout:" ++ [NL];
         py "```" ++ [NL];
         [0x250C; 0x2500; 0x2500; 0x2510; NL]%N;
         [0x2514; 0x2500; 0x2500; 0x2518; NL]%N;
         py "```" ++ [NL] ]
  /\ removed_count (run_loop (py "diagrams") chapter_with_ascii_art) = 0.
Proof.
  split; [|split; vm_compute; reflexivity].
  intros fence window H. cbn [look_ahead]. rewrite H.
  now destruct (has_any box_chars fence).
Qed.

End GenerateDiagramsFacts.

(* ------------------------------------------------------------------ *)
(** ** convert_to_org.py *)

(** C8, the failing input.  A bold title comes out as [/Hi/]: the
    pattern for italics matches the [*Hi*] that the bold step has just
    produced. *)
Theorem bold_heading_becomes_italic {U : Unicode} :
  ConvertToOrg.convert_inline_formatting (py "**Hi**") = py "/Hi/"
  /\ ConvertToOrg.convert_md_to_org (py "# **Hi**") = py "* /Hi/".
Proof. split; vm_compute; reflexivity. Qed.


(* ------------------------------------------------------------------ *)
(** ** add_python_snippets.py *)

Section AddPythonSnippetsFacts.
Context {U : Unicode}.
Import AddPythonSnippets.
Variable dir : str.
Variable files : str -> lookup.

Lemma set_nth_length (i : nat) (x : str) (ls : list str) :
  length (set_nth i x ls) = length ls.
Proof.
  revert i. induction ls as [|l ls IH]; intros [|i]; cbn; auto.
Qed.

Lemma set_nth_other (i j : nat) (x : str) (ls : list str) :
  i <> j -> nth j (set_nth i x ls) [] = nth j ls [].
Proof.
  revert i j. induction ls as [|l ls IH]; intros [|i] [|j] H; cbn; auto.
  now contradiction H.
Qed.

Lemma set_nth_same (i : nat) (x : str) (ls : list str) :
  i < length ls -> nth i (set_nth i x ls) [] = x.
Proof.
  revert i. induction ls as [|l ls IH]; intros [|i] H; cbn in *; try lia; auto.
  apply IH. lia.
Qed.

Lemma dict_get_In (k v : str) (d : list (str * str)) :
  dict_get k d = Some v -> In v (map snd d).
Proof.
  induction d as [|[k' v'] d IH]; cbn [dict_get map snd]; [discriminate |].
  destruct (str_eqb k k'); [intros [= ->]; now left | intros H; right; now apply IH].
Qed.

Lemma endswith_nonempty (p s : str) : p <> [] -> endswith p s = true -> s <> [].
Proof.
  intros Hp H ->. unfold endswith in H. cbn [rev] in H.
  destruct (rev p) eqn:E; [|discriminate].
  apply (f_equal (@rev N)) in E. rewrite rev_involutive in E. now apply Hp.
Qed.

(** The name [pattern_name_to_filename] returns is not empty: it ends
    in [_pattern] or is a name of the mapping. *)
Lemma pattern_filename_nonempty (pattern_header name : str) :
  pattern_name_to_filename (Some pattern_header) = Some name -> name <> [].
Proof.
  unfold pattern_name_to_filename.
  destruct pattern_header as [|x0 h0]; [discriminate |].
  destruct (re_search after_dash (x0 :: h0)) as [m|]; [|discriminate].
  match goal with
  | |- context [dict_get ?f _] => set (f9 := f)
  end.
  assert (H9 : f9 <> []).
  { subst f9.
    match goal with
    | |- context [endswith ?p ?f] => destruct (endswith p f) eqn:E; cbn [negb]
    end.
    - now apply (endswith_nonempty (py "_pattern")).
    - intros H. apply app_eq_nil in H as [_ H]. discriminate. }
  destruct (dict_get f9 mapping) as [v|] eqn:E; intros [= <-]; [|exact H9].
  apply dict_get_In in E. cbn in E.
  repeat (destruct E as [<- | E]; [discriminate |]).
  destruct E.
Qed.


(** A turn touches at most the line after its header. *)
Lemma process_section_frame (v : vars) (n j : nat) :
  length (lines (vars_of (process_section dir files v n))) = length (lines v)
  /\ (j <> n + 1 ->
      nth j (lines (vars_of (process_section dir files v n))) [] = nth j (lines v) []).
Proof.
  unfold process_section.
  destruct (examine dir files (lines v) n); cbn [vars_of lines print].
  - now split.
  - now split.
  - split; [apply set_nth_length |]. intros H. apply set_nth_other. lia.
  - now split.
Qed.

Lemma then_section_frame (r : result) (n j : nat) :
  length (lines (vars_of (then_section dir files r n))) = length (lines (vars_of r))
  /\ (j <> n + 1 ->
      nth j (lines (vars_of (then_section dir files r n))) []
      = nth j (lines (vars_of r)) []).
Proof.
  destruct r as [v | exn v]; cbn [then_section vars_of]; [|now split].
  apply process_section_frame.
Qed.

Lemma turns_frame (secs : list nat) (v : vars) (j : nat) :
  length (lines (vars_of (turns dir files secs v))) = length (lines v)
  /\ ((forall m, In m secs -> j <> m + 1) ->
      nth j (lines (vars_of (turns dir files secs v))) [] = nth j (lines v) []).
Proof.
  induction secs as [|n secs [IHl IHn]]; cbn [turns fold_right]; [now split |].
  fold (turns dir files secs v).
  destruct (then_section_frame (turns dir files secs v) n j) as [Hl Hn].
  split; [congruence |].
  intros H. rewrite Hn by (apply H; now left).
  apply IHn. intros m Hm. apply H. now right.
Qed.

(** The look for the header reads the lines before the section only. *)
Lemma scan_back_local (ls ls0 : list str) :
  forall count i,
    (forall j, j <= i -> nth j ls [] = nth j ls0 []) ->
    scan_back ls i count = scan_back ls0 i count.
Proof.
  induction count as [|count IH]; intros i H; cbn [scan_back]; [reflexivity |].
  rewrite (H i) by lia. rewrite IH; [reflexivity |].
  intros j Hj. apply H. lia.
Qed.

(** The tests of a turn read the length and the lines up to the one
    after the header. *)
Lemma examine_local (ls ls0 : list str) (n : nat) :
  length ls = length ls0 ->
  (forall j, j <= n + 1 -> nth j ls [] = nth j ls0 []) ->
  examine dir files ls n = examine dir files ls0 n.
Proof.
  intros Hl H. unfold examine, find_pattern_name_before_line.
  rewrite Hl, (H (n + 1)) by lia.
  rewrite (scan_back_local ls ls0); [reflexivity |].
  intros j Hj. apply H. lia.
Qed.

Lemma sections_from_bounds (ls : list str) :
  forall i m, In m (sections_from i ls) -> i <= m.
Proof.
  induction ls as [|l ls IH]; intros i m; cbn [sections_from]; [intros [] |].
  destruct (str_eqb (strip l) snippet_header).
  - intros [<- | H]; [lia | apply IH in H; lia].
  - intros H. apply IH in H. lia.
Qed.

(** What the tests of a turn make of a section that can be filled. *)
Lemma examine_filled (ls : list str) (n : nat) (h name code : str) :
  n + 1 < length ls ->
  strip (nth (n + 1) ls []) = [] ->
  find_pattern_name_before_line ls n = Some h ->
  pattern_name_to_filename (Some h) = Some name ->
  files (joinpath dir (name ++ py ".py")) = Found code ->
  examine dir files ls n
  = Filled (insert_text code) (mkMod (n + 1) (strip h) name (length code)).
Proof.
  intros Hlen Hblank Hfind Hname Hfile. unfold examine.
  destruct (Nat.ltb_spec (n + 1) (length ls)) as [_ | H]; [|lia].
  rewrite Hblank, Hfind. cbn [str_eqb andb].
  destruct h as [|c h]; [unfold pattern_name_to_filename in Hname; discriminate |].
  rewrite Hname.
  destruct name as [|d name]; [now destruct (pattern_filename_nonempty (c :: h) [] Hname) |].
  now rewrite Hfile.
Qed.


(** The tests of a turn end in an exception or in the code only for a
    section that is looked up, and the exception or the code is what
    is found at the path of its file. *)
Lemma examine_lookup (ls : list str) (n : nat) :
  match examine dir files ls n with
  | Raises exn =>
      exists h name,
        n + 1 < length ls
        /\ strip (nth (n + 1) ls []) = []
        /\ find_pattern_name_before_line ls n = Some h
        /\ pattern_name_to_filename (Some h) = Some name
        /\ files (joinpath dir (name ++ py ".py")) = Fails exn
  | Filled text m =>
      exists h name code,
        n + 1 < length ls
        /\ strip (nth (n + 1) ls []) = []
        /\ find_pattern_name_before_line ls n = Some h
        /\ pattern_name_to_filename (Some h) = Some name
        /\ files (joinpath dir (name ++ py ".py")) = Found code
        /\ text = insert_text code
        /\ m = mkMod (n + 1) (strip h) name (length code)
  | _ => True
  end.
Proof.
  unfold examine.
  destruct (Nat.ltb_spec (n + 1) (length ls)) as [Hlen | _]; cbn [andb]; [|exact I].
  destruct (str_eqb (strip (nth (n + 1) ls [])) []) eqn:Hblank; [|exact I].
  assert (Hb : strip (nth (n + 1) ls []) = []).
  { destruct (strip (nth (n + 1) ls [])); [reflexivity | discriminate]. }
  destruct (find_pattern_name_before_line ls n) as [[|c h]|] eqn:Hfind;
    [exact I | | exact I].
  match goal with
  | |- context [pattern_name_to_filename ?x] =>
      destruct (pattern_name_to_filename x) as [[|d name]|] eqn:Hname;
      [exact I | | exact I]
  end.
  match goal with
  | |- context [files ?x] => destruct (files x) as [|code|exn] eqn:Hfile; [exact I | |]
  end.
  - exists (c :: h), (d :: name), code. repeat split; auto.
  - exists (c :: h), (d :: name). repeat split; auto.
Qed.

(** The outcome of a run, section by section: it is the outcome of the
    tests made on the lines as they were read.  The run is stopped by
    a section whose tests raise, and by nothing else. *)
Lemma turns_outcome (lines0 : list str) (v : vars) :
  lines v = lines0 ->
  forall ls i,
    match turns dir files (sections_from i ls) v with
    | Finished v' =>
        forall n, In n (sections_from i ls) ->
          match examine dir files lines0 n with
          | Untouched => nth (n + 1) (lines v') [] = nth (n + 1) lines0 []
          | Warned w =>
              In w (printed v') /\ nth (n + 1) (lines v') [] = nth (n + 1) lines0 []
          | Filled text m =>
              nth (n + 1) (lines v') [] = text /\ In m (modifications v')
          | Raises _ => False
          end
    | Aborted exn _ =>
        exists n, In n (sections_from i ls) /\ examine dir files lines0 n = Raises exn
    end.
Proof.
  intros Hv. induction ls as [|l ls IH]; intros i; cbn [sections_from];
    [cbn; intros n [] |].
  destruct (str_eqb (strip l) snippet_header); [|apply IH].
  cbn [turns fold_right]. fold (turns dir files (sections_from (S i) ls) v).
  pose proof (turns_frame (sections_from (S i) ls) v) as Hframe.
  specialize (IH (S i)).
  destruct (turns dir files (sections_from (S i) ls) v) as [v' | exn v'];
    cbn [then_section vars_of] in *.
  2: { destruct IH as (n & Hn & E). exists n. split; [now right | exact E]. }
  assert (Hlen : length (lines v') = length lines0)
    by (rewrite <- Hv; apply (Hframe 0)).
  assert (Hfar : forall j, j <= i + 1 -> nth j (lines v') [] = nth j lines0 []).
  { intros j Hj. rewrite <- Hv. apply (Hframe j).
    intros m Hm. apply sections_from_bounds in Hm. lia. }
  unfold process_section. rewrite (examine_local (lines v') lines0 i Hlen Hfar).
  destruct (examine dir files lines0 i) as [|w|text m|exn] eqn:E.
  - intros n [<- | Hn]; [rewrite E; apply Hfar; lia | now apply IH].
  - intros n [<- | Hn].
    + rewrite E. cbn [lines printed print].
      split; [apply in_or_app; right; now left | apply Hfar; lia].
    + specialize (IH n Hn). cbn [lines printed print modifications].
      destruct (examine dir files lines0 n); auto.
      destruct IH as [Hw Hl]. split; [apply in_or_app; now left | exact Hl].
  - assert (Hi : i + 1 < length lines0).
    { unfold examine in E.
      destruct (Nat.ltb_spec (i + 1) (length lines0)) as [Hlt | _];
        [exact Hlt | discriminate]. }
    intros n [<- | Hn].
    + rewrite E. cbn [lines modifications].
      split; [apply set_nth_same; now rewrite Hlen | apply in_or_app; right; now left].
    + specialize (IH n Hn). cbn [lines printed modifications].
      pose proof (sections_from_bounds ls (S i) n Hn) as Hb.
      rewrite set_nth_other by lia.
      destruct (examine dir files lines0 n); auto.
      destruct IH as [Hl Hm]. split; [exact Hl | apply in_or_app; now left].
  - exists i. split; [now left | exact E].
Qed.

End AddPythonSnippetsFacts.

Section AddPythonSnippetsMain.
Context {U : Unicode}.
Import AddPythonSnippets.

Lemma str_eqb_eq (a b : str) : str_eqb a b = true <-> a = b.
Proof.
  revert b. induction a as [|x a IH]; intros [|y b]; cbn [str_eqb];
    try (split; [discriminate | discriminate]); [now split |].
  rewrite andb_true_iff, N.eqb_eq, IH. split.
  - now intros [-> ->].
  - now intros [= -> ->].
Qed.


Lemma fold_left_rev (A B : Type) (g : A -> B -> A) (l : list B) (a : A) :
  fold_left g (rev l) a = fold_right (fun x acc => g acc x) a l.
Proof.
  induction l as [|x l IH]; cbn [rev fold_right]; [reflexivity |].
  rewrite fold_left_app. cbn [fold_left]. now rewrite IH.
Qed.

Lemma fold_print_lines (f : modification -> str) (ms : list modification) :
  forall v,
    lines (fold_left (fun v m => print (f m) v) ms v) = lines v
    /\ forall w, In w (printed v) ->
                 In w (printed (fold_left (fun v m => print (f m) v) ms v)).
Proof.
  induction ms as [|m ms IH]; intros v; cbn [fold_left]; [now split |].
  destruct (IH (print (f m) v)) as [Hl Hp]. split; [exact Hl |].
  intros w Hw. apply Hp. cbn [print printed]. apply in_or_app. now left.
Qed.

Lemma fold_print_reports (f : modification -> str) (ms : list modification) :
  forall v m, In m ms ->
              In (f m) (printed (fold_left (fun v m => print (f m) v) ms v)).
Proof.
  induction ms as [|m0 ms IH]; intros v m; [intros [] |]. cbn [fold_left].
  intros [-> | H]; [|now apply IH].
  apply (fold_print_lines f ms). cbn [print printed]. apply in_or_app. right. now left.
Qed.

Lemma report_keeps (master_file output_file : str) (v : vars) :
  lines (report master_file output_file v) = lines v
  /\ forall w, In w (printed v) -> In w (printed (report master_file output_file v)).
Proof.
  unfold report.
  set (v1 := print _ v).
  destruct (fold_print_lines report_line (rev (modifications v1)) v1) as [Hl Hp].
  cbn [lines printed print]. split; [now rewrite Hl |].
  intros w Hw. do 4 (apply in_or_app; left). apply Hp.
  subst v1. cbn [printed print]. apply in_or_app. now left.
Qed.

Lemma report_lists (master_file output_file : str) (v : vars) (m : modification) :
  In m (modifications v) ->
  In (report_line m) (printed (report master_file output_file v)).
Proof.
  intros H. unfold report. cbn [printed print].
  do 4 (apply in_or_app; left). apply fold_print_reports.
  cbn [modifications print]. now apply -> in_rev.
Qed.

(** [main] is the turns of the loop, last section first, and the
    report when the run comes to its end. *)
Lemma main_is_turns (base_dir : str) (files : str -> lookup) (master_lines : list str) :
  main base_dir files master_lines
  = match turns (diagrams_dir base_dir) files (snippet_sections master_lines)
                (find_sections (joinpath base_dir (py "master_output.md")) master_lines)
    with
    | Finished v =>
        Finished (report (joinpath base_dir (py "master_output.md"))
                         (joinpath base_dir (py "master_output_updated.md")) v)
    | Aborted exn v => Aborted exn v
    end.
Proof.
  unfold main, fill_sections. rewrite fold_left_rev. reflexivity.
Qed.

(** A run of [main], section by section.  When it comes to its end,
    the file written has as many lines as the file read, the lines
    that do not follow a header are as they were, and every section
    has the outcome of the tests made on the lines as they were read;
    it is stopped only by a section whose tests raise. *)
Lemma main_outcome (base_dir : str) (files : str -> lookup) (master_lines : list str) :
  match main base_dir files master_lines with
  | Finished v =>
      length (lines v) = length master_lines
      /\ (forall j, (forall m, In m (snippet_sections master_lines) -> j <> m + 1) ->
                    nth j (lines v) [] = nth j master_lines [])
      /\ forall n, In n (snippet_sections master_lines) ->
           match examine (diagrams_dir base_dir) files master_lines n with
           | Untouched => nth (n + 1) (lines v) [] = nth (n + 1) master_lines []
           | Warned w =>
               In w (printed v)
               /\ nth (n + 1) (lines v) [] = nth (n + 1) master_lines []
           | Filled text m =>
               nth (n + 1) (lines v) [] = text /\ In (report_line m) (printed v)
           | Raises _ => False
           end
  | Aborted exn _ =>
      exists n, In n (snippet_sections master_lines)
                /\ examine (diagrams_dir base_dir) files master_lines n = Raises exn
  end.
Proof.
  rewrite main_is_turns.
  set (v1 := find_sections (joinpath base_dir (py "master_output.md")) master_lines).
  pose proof (turns_outcome (diagrams_dir base_dir) files master_lines v1 eq_refl
                master_lines 0) as Hout.
  pose proof (turns_frame (diagrams_dir base_dir) files
                (snippet_sections master_lines) v1) as Hframe.
  fold (snippet_sections master_lines) in Hout.
  destruct (turns (diagrams_dir base_dir) files (snippet_sections master_lines) v1)
    as [v | exn v]; cbn [vars_of] in Hframe; [|exact Hout].
  match goal with
  | |- context [report ?a ?b v] => destruct (report_keeps a b v) as [Hl Hp];
                                   pose proof (report_lists a b v) as Hr
  end.
  rewrite Hl. split; [apply (Hframe 0) |]. split; [intros j; apply (Hframe j) |].
  intros n Hn. specialize (Hout n Hn).
  destruct (examine (diagrams_dir base_dir) files master_lines n); auto.
  - destruct Hout as [Hw Hline]. split; [now apply Hp | exact Hline].
  - destruct Hout as [Hline Hm]. split; [exact Hline | now apply Hr].
Qed.


End AddPythonSnippetsMain.


(** The section of [one_with_content] has a pattern header that is
    found and parsed: the file looked for would be that of the proxy
    pattern. *)
Example one_with_content_source :
  AddPythonSnippets.find_pattern_name_before_line AddPythonSnippets.one_with_content 2
  = Some (py "## CONTINUED: Structural - Proxy Pattern" ++ [NL])
  /\ @AddPythonSnippets.pattern_name_to_filename ascii_only
       (Some (py "## CONTINUED: Structural - Proxy Pattern" ++ [NL]))
     = Some (py "proxy_pattern").
Proof. split; reflexivity. Qed.



(* ------------------------------------------------------------------ *)
(** ** Literals and lazy stars *)

Lemma flat_map_unit (A : Type) (l : list A) : flat_map (fun x => [x]) l = l.
Proof. induction l as [|x l IH]; cbn; [reflexivity | now rewrite IH]. Qed.

Lemma run_seq_cons (r : re) (rs : list re) (st : state) :
  run (seq (r :: rs)) st = flat_map (run (seq rs)) (run r st).
Proof.
  destruct rs as [|r' rs]; [|reflexivity].
  cbn [seq]. symmetry. apply flat_map_unit.
Qed.

Lemma startswith_app (l t : str) : startswith l (l ++ t) = true.
Proof.
  induction l as [|c l IH]; [now destruct t |].
  cbn [app startswith]. now rewrite N.eqb_refl, IH.
Qed.

(** A literal matches where the text starts with it, and nowhere else. *)
Lemma run_str_lit (l : str) :
  forall pre s cs,
    run (str_lit l) (mkState pre s cs)
    = if startswith l s
      then [mkState (rev l ++ pre) (skipn (length l) s) cs]
      else [].
Proof.
  unfold str_lit. induction l as [|c l IH]; intros pre s cs.
  - now destruct s.
  - cbn [map]. rewrite run_seq_cons.
    destruct s as [|y s]; [reflexivity |].
    rewrite run_Chr_cons. cbn [startswith length skipn]. unfold lit.
    rewrite (N.eqb_sym y c).
    destruct (N.eqb_spec c y) as [<- | _]; [|reflexivity].
    rewrite flat_map_one, IH. cbn [andb rev].
    now rewrite <- app_assoc.
Qed.

Lemma run_str_lit_app (l t pre : str) (cs : list (nat * str)) :
  run (str_lit l) (mkState pre (l ++ t) cs) = [mkState (rev l ++ pre) t cs].
Proof.
  rewrite run_str_lit, startswith_app.
  now rewrite skipn_app, skipn_all, Nat.sub_diag.
Qed.

Lemma star_loop_lazy_any :
  forall fuel s pre cs,
    length s <= fuel ->
    star_loop (run (Chr any)) false fuel (mkState pre s cs) = lazy_all pre s cs.
Proof.
  induction fuel as [|f IH]; intros s pre cs Hlen.
  - destruct s; [reflexivity | cbn in Hlen; lia].
  - destruct s as [|c tl]; [reflexivity |].
    cbn [star_loop lazy_all]. rewrite run_Chr_cons.
    change (any c) with true. cbn [flat_map rest length].
    assert (L : (length tl <? S (length tl)) = true) by (apply Nat.ltb_lt; lia).
    rewrite L, app_nil_r, IH by (cbn in Hlen; lia). reflexivity.
Qed.

Lemma run_lazy_any (pre s : str) (cs : list (nat * str)) :
  run (Star false (Chr any)) (mkState pre s cs) = lazy_all pre s cs.
Proof. cbn [run rest]. now apply star_loop_lazy_any. Qed.

(** When what follows a lazy star fails all along [code], the star
    passes the whole of it. *)
Lemma flat_map_lazy_all (K : state -> list state) (t : str) (cs : list (nat * str)) :
  forall code pre,
    (forall a b, code = a ++ b -> b <> [] ->
                 K (mkState (rev a ++ pre) (b ++ t) cs) = []) ->
    flat_map K (lazy_all pre (code ++ t) cs)
    = flat_map K (lazy_all (rev code ++ pre) t cs).
Proof.
  induction code as [|c code IH]; intros pre H; [reflexivity |].
  cbn [app lazy_all flat_map].
  pose proof (H [] (c :: code) eq_refl) as H0. cbn [rev app] in H0.
  rewrite H0 by discriminate.
  cbn [app rev]. rewrite <- app_assoc. cbn [app].
  apply IH. intros a b E Hb.
  specialize (H (c :: a) b). cbn [rev app] in H. rewrite <- app_assoc in H.
  apply H; [now rewrite E | exact Hb].
Qed.

Lemma run_seq_lit (l : str) (rs : list re) (pre t : str) (cs : list (nat * str)) :
  run (seq (str_lit l :: rs)) (mkState pre (l ++ t) cs)
  = run (seq rs) (mkState (rev l ++ pre) t cs).
Proof. now rewrite run_seq_cons, run_str_lit_app, flat_map_one. Qed.

Lemma run_seq_lit_fails (l : str) (rs : list re) (pre s : str) (cs : list (nat * str)) :
  startswith l s = false ->
  run (seq (str_lit l :: rs)) (mkState pre s cs) = [].
Proof. intros H. now rewrite run_seq_cons, run_str_lit, H. Qed.

Lemma run_seq_group (i : nat) (a : re) (rs : list re) (st : state) :
  run (seq (Group i a :: rs)) st
  = flat_map (fun x => run (seq rs) (set_cap i st x)) (run a st).
Proof. now rewrite run_seq_cons, run_Group, flat_map_map_compose. Qed.

Lemma firstn_consumed (m r : str) :
  firstn (length (m ++ r) - length r) (m ++ r) = m.
Proof.
  rewrite length_app. replace (length m + length r - length r) with (length m + 0) by lia.
  now rewrite firstn_app_2, firstn_O, app_nil_r.
Qed.

Lemma set_cap_app (i : nat) (pre pre' m r : str) (cs cs' : list (nat * str)) :
  set_cap i (mkState pre (m ++ r) cs) (mkState pre' r cs')
  = mkState pre' r ((i, m) :: cs').
Proof.
  unfold set_cap, consumed. cbn [rest prev caps]. now rewrite firstn_consumed.
Qed.

Lemma set_cap_all (i : nat) (pre pre' m : str) (cs cs' : list (nat * str)) :
  set_cap i (mkState pre m cs) (mkState pre' [] cs')
  = mkState pre' [] ((i, m) :: cs').
Proof.
  unfold set_cap, consumed. cbn [rest prev caps length].
  now rewrite Nat.sub_0_r, firstn_all.
Qed.

(** After a match that takes the whole subject nothing is left to do. *)
Lemma sub_go_skip_all (r : re) (repl : state -> str) :
  1 <= min_len r ->
  forall s skip pre, length s <= skip -> sub_go r repl skip pre s = [].
Proof.
  intros Hr. induction s as [|c tl IH]; intros skip pre H.
  - destruct skip; [|reflexivity]. now rewrite sub_go_nonempty.
  - destruct skip as [|k]; [cbn in H; lia |].
    cbn [sub_go]. apply IH. cbn in H. lia.
Qed.

(* ------------------------------------------------------------------ *)
(** ** replace_code_with_png.py: a document that is one section *)

Section OneSection.
Context {U : Unicode}.
Import ReplaceCodeWithPng.

Lemma run_header (h : str) :
  In h headers ->
  forall pre t cs,
    run (seq [ str_lit (py "## ");
               Alt (str_lit (py "Python Architecture Diagram Snippet"))
                   (str_lit (py "Architecture Diagram"));
               Chr (lit NL) ])
        (mkState pre (h ++ t) cs)
    = [mkState (rev h ++ pre) t cs].
Proof.
  intros [<- | [<- | []]] pre t cs; vm_compute; reflexivity.
Qed.

Lemma run_ahead_next (l : str) (st : state) :
  run (Ahead (Alt (str_lit l) Eos)) st
  = if startswith l (rest st) || match rest st with [] => true | _ => false end
    then [st] else [].
Proof.
  destruct st as [pre s cs]. cbn [run rest]. rewrite run_str_lit.
  destruct (startswith l s); [reflexivity |].
  now destruct s.
Qed.

Variables code after : str.

(** The first ["```\n\n"] after the opening of the block is the one that
    closes it... *)
Hypothesis closes_first :
  forall a b, code = a ++ b -> b <> [] ->
              startswith block_close (b ++ block_close ++ after) = false.

(** ... and no other section starts in the text that follows. *)
Hypothesis no_next_section :
  forall a b, after = a ++ b -> b <> [] -> startswith next_section b = false.

Lemma hd_flat_map_lazy (K : state -> list state) (pre s : str)
    (cs : list (nat * str)) (e : state) (l : list state) :
  K (mkState pre s cs) = e :: l ->
  hd_error (flat_map K (lazy_all pre s cs)) = Some e.
Proof. intros H. destruct s; cbn [lazy_all flat_map]; now rewrite H. Qed.

Lemma section_match (h : str) :
  In h headers ->
  exists e,
    match_at section [] (h ++ block_open ++ code ++ block_close ++ after) = Some e
    /\ rest e = []
    /\ group 1 e = h /\ group 2 e = code /\ group 3 e = after.
Proof.
  intros Hh. unfold match_at, section, start.
  rewrite run_seq_group, (run_header h Hh), flat_map_one, set_cap_app.
  rewrite run_seq_lit.
  rewrite run_seq_group, run_lazy_any.
  rewrite flat_map_lazy_all.
  2:{ intros a b E Hb. unfold set_cap. cbn [rest prev caps].
      apply run_seq_lit_fails. now apply (closes_first a b). }
  eexists. split.
  - apply hd_flat_map_lazy with (l := []).
    rewrite set_cap_app, run_seq_lit, run_seq_group, run_lazy_any.
    match goal with
    | |- context [lazy_all ?p after ?c] =>
        replace (lazy_all p after c) with (lazy_all p (after ++ []) c)
          by (f_equal; apply app_nil_r)
    end.
    rewrite flat_map_lazy_all.
    2:{ intros a b E Hb. unfold set_cap. cbn [rest prev caps seq].
        rewrite run_ahead_next. cbn [rest]. rewrite app_nil_r.
        rewrite (no_next_section a b E Hb). now destruct b. }
    cbn [lazy_all flat_map seq]. rewrite run_ahead_next.
    unfold set_cap at 1. cbn [rest prev caps]. rewrite orb_true_r.
    cbn [app]. reflexivity.
  - rewrite set_cap_all. unfold group. cbn [rest caps lookup Nat.eqb].
    repeat split.
Qed.

(** On such a document the substitution is one call of the callback, on
    the header, the code and the text that follows. *)
Lemma one_section_rewritten (h : str) :
  In h headers ->
  modified_content (h ++ block_open ++ code ++ block_close ++ after)
  = replace_diagram_section h code after.
Proof.
  intros Hh. destruct (section_match h Hh) as (e & He & Hrest & H1 & H2 & H3).
  unfold modified_content, re_sub.
  rewrite sub_go_nonempty by (cbn; lia).
  destruct (h ++ block_open ++ code ++ block_close ++ after) as [|c tl] eqn:E.
  - apply match_at_min_len in He. cbn in He. lia.
  - rewrite He, H1, H2, H3.
    rewrite sub_go_skip_all; [apply app_nil_r | cbn; lia |].
    unfold consumed, start. rewrite Hrest. cbn [rest length]. lia.
Qed.

End OneSection.

(** C7, as amended.  The callback drops the code block in every case:
    its result is the header, a blank line, possibly one image
    reference, and the text that followed the block.  The reference is
    put in exactly when a pattern name is found in the code and
    [<name>.png] does not occur in the first 200 characters of that
    text.  On a document that is one section, what the script writes is
    the result of the callback on the three parts of the section. *)
Theorem replace_diagram_section_cases {U : Unicode} (header code after : str) :
  (exists inserted,
      ReplaceCodeWithPng.replace_diagram_section header code after
      = header ++ [NL; NL] ++ inserted ++ after
      /\ match ReplaceCodeWithPng.extract_pattern_name_from_code code with
         | Some (c :: name) =>
             if contains ((c :: name) ++ py ".png") (firstn 200 after)
             then inserted = []
             else inserted
                  = py "![" ++ title (replace (py "_") (py " ") (c :: name))
                    ++ py " Architecture](docs/images/" ++ (c :: name) ++ py ".png)"
                    ++ [NL; NL]
         | _ => inserted = []
         end)
  /\ (In header ReplaceCodeWithPng.headers ->
      (forall a b, code = a ++ b -> b <> [] ->
                   startswith ReplaceCodeWithPng.block_close
                              (b ++ ReplaceCodeWithPng.block_close ++ after) = false) ->
      (forall a b, after = a ++ b -> b <> [] ->
                   startswith ReplaceCodeWithPng.next_section b = false) ->
      ReplaceCodeWithPng.written
        (ReplaceCodeWithPng.main
           (header ++ ReplaceCodeWithPng.block_open ++ code
            ++ ReplaceCodeWithPng.block_close ++ after))
      = ReplaceCodeWithPng.replace_diagram_section header code after).
Proof.
  split.
  - unfold ReplaceCodeWithPng.replace_diagram_section.
    destruct (ReplaceCodeWithPng.extract_pattern_name_from_code code) as [[|c name]|].
    + now exists [].
    + unfold slice_to.
      destruct (contains ((c :: name) ++ py ".png") (firstn 200 after)).
      * now exists [].
      * exists (ReplaceCodeWithPng.png_ref (c :: name)). split; reflexivity.
    + now exists [].
  - intros Hh Hc Ha. unfold ReplaceCodeWithPng.main.
    cbn [ReplaceCodeWithPng.written].
    now apply one_section_rewritten.
Qed.

Lemma replace_diagram_section_cases_witness :
  ReplaceCodeWithPng.written
    (@ReplaceCodeWithPng.main ascii_only
       ((py "## Architecture Diagram" ++ [NL])
        ++ ReplaceCodeWithPng.block_open ++ [120; 10]%N
        ++ ReplaceCodeWithPng.block_close ++ [111; 107]%N))
  = @ReplaceCodeWithPng.replace_diagram_section ascii_only
      (py "## Architecture Diagram" ++ [NL]) [120; 10]%N [111; 107]%N.
Proof.
  apply (proj2 (@replace_diagram_section_cases ascii_only
                  (py "## Architecture Diagram" ++ [NL]) [120; 10]%N [111; 107]%N)).
  - right. now left.
  - intros a b E Hb.
    destruct a as [|x a]; [cbn [app] in E; subst b; reflexivity |].
    cbn [app] in E. injection E as _ E.
    destruct a as [|y a]; [cbn [app] in E; subst b; reflexivity |].
    cbn [app] in E. injection E as _ E.
    destruct a; [cbn [app] in E; subst b; now contradiction Hb | discriminate].
  - intros a b E Hb.
    destruct a as [|x a]; [cbn [app] in E; subst b; reflexivity |].
    cbn [app] in E. injection E as _ E.
    destruct a as [|y a]; [cbn [app] in E; subst b; reflexivity |].
    cbn [app] in E. injection E as _ E.
    destruct a; [cbn [app] in E; subst b; now contradiction Hb | discriminate].
Defined.


(** C7, counterexample.  The section already has its image reference,
    but more than 200 characters after the code block: a second one is
    put in, whatever the Unicode tables. *)
Lemma far_reference_is_duplicated :
  ~ exists U : Unicode,
      ReplaceCodeWithPng.references_to (py "proxy_pattern")
        (@ReplaceCodeWithPng.modified_content U ReplaceCodeWithPng.far_reference)
      <= ReplaceCodeWithPng.references_to (py "proxy_pattern")
           ReplaceCodeWithPng.far_reference.
Proof.
  intros [U H]. vm_compute in H. lia.
Qed.

(* ------------------------------------------------------------------ *)
(** ** The matcher on examples

    The answers are those of CPython's [re] module on the same
    pattern, replacement and subject. *)

(** [re.sub('x*', '-', 'abxd') == '-a-b--d-']: empty matches count, also
    next to a match that was not empty. *)
Example sub_empty_matches :
  re_sub (Star true (Chr (lit (chr "x")))) (fun _ => py "-") (py "abxd")
  = py "-a-b--d-".
Proof. reflexivity. Qed.

(** [re.sub('a|ab', 'X', 'abab') == 'XbXb']: the first alternative that
    matches wins, not the longest. *)
Example sub_first_alternative :
  re_sub (Alt (Chr (lit (chr "a"))) (str_lit (py "ab"))) (fun _ => py "X") (py "abab")
  = py "XbXb".
Proof. reflexivity. Qed.

(** With a lazy [a+?] as group 1 and a greedy star of [a] as group 2,
    [re.sub(p, r'[\1|\2]', 'aaa b a') == '[a|aa] b [a|]']: a lazy plus
    takes as little as it can. *)
Example sub_lazy_groups :
  re_sub (seq [Group 1 (Plus false (Chr (lit (chr "a"))));
               Group 2 (Star true (Chr (lit (chr "a"))))])
         (fun m => py "[" ++ group 1 m ++ py "|" ++ group 2 m ++ py "]")
         (py "aaa b a")
  = py "[a|aa] b [a|]".
Proof. reflexivity. Qed.

(** [re.sub('<.*>', '_', '<a><b>c') == '_c'] and
    [re.sub('<.*?>', '_', '<a><b>c') == '__c'] *)
Example sub_greedy_and_lazy :
  re_sub (seq [Chr (lit (chr "<")); Star true (Chr dot); Chr (lit (chr ">"))])
         (fun _ => py "_") (py "<a><b>c") = py "_c"
  /\ re_sub (seq [Chr (lit (chr "<")); Star false (Chr dot); Chr (lit (chr ">"))])
            (fun _ => py "_") (py "<a><b>c") = py "__c".
Proof. split; reflexivity. Qed.

(** [re.sub('(?<!a)b(?!c)', 'X', 'ab bc bd b') == 'ab bc Xd X'] *)
Example sub_look_around :
  re_sub (seq [NotBehind (lit (chr "a")); Chr (lit (chr "b"));
               NotAhead (Chr (lit (chr "c")))])
         (fun _ => py "X") (py "ab bc bd b")
  = py "ab bc Xd X".
Proof. reflexivity. Qed.

(** [re.sub('b$', 'X', 'ab\n') == 'aX\n']: [$] also matches before a
    final newline. *)
Example sub_end_of_line :
  re_sub (seq [Chr (lit (chr "b")); Eol]) (fun _ => py "X") (py "ab" ++ [NL])
  = py "aX" ++ [NL].
Proof. reflexivity. Qed.

(** ['aaaaa'.replace('aa', 'b') == 'bba'] and ['abc'.replace('', '-') == '-a-b-c-'] *)
Example replace_examples :
  replace (py "aa") (py "b") (py "aaaaa") = py "bba"
  /\ replace [] (py "-") (py "abc") = py "-a-b-c-".
Proof. split; reflexivity. Qed.

(** The scripts' own patterns. *)
Example br_nested :
  ReplaceBrTags.replace_br_tags (py "a<br>b<BR />c<br<br>>d")
  = py "a" ++ [NL] ++ py "b" ++ [NL] ++ py "c<br" ++ [NL] ++ py ">d".
Proof. reflexivity. Qed.

Example blank_lines_collapse :
  re_sub RemoveEmojis.blank_lines (fun _ => [NL; NL])
         (py "a" ++ [NL; NL; NL; NL; NL] ++ py "b" ++ [NL; SP; NL; 9; NL]%N ++ py "c")
  = py "a" ++ [NL; NL] ++ py "b" ++ [NL; NL] ++ py "c".
Proof. reflexivity. Qed.

Example promote_examples :
  map PromoteHeadings.promote_line
      [py "## a"; py "# a"; py "#a"; py "##a"; py "###" ++ [NL]; py "text"]
  = [py "# a"; py "# a"; py "#a"; py "##a"; py "##" ++ [NL]; py "text"].
Proof. reflexivity. Qed.

Example filename_examples :
  @AddPythonSnippets.pattern_name_to_filename ascii_only
    (Some (py "## CONTINUED: Behavioral - Pub/Sub Pattern" ++ [NL]))
  = Some (py "pubsub_pattern")
  /\ @AddPythonSnippets.pattern_name_to_filename ascii_only
       (Some (py "## CONTINUED: Functional " ++ [0x2014]%N
              ++ py " Currying & Partial Application" ++ [NL]))
     = Some (py "currying__partial_application_pattern").
Proof. split; vm_compute; reflexivity. Qed.

(** A section without image reference gets one; a section that has it
    right after the code block only loses the code.  (The header group
    ends with its own newline, hence the three newlines.) *)
Example png_sections {U : Unicode} :
  ReplaceCodeWithPng.modified_content
    (py "## Architecture Diagram" ++ [NL; NL]
     ++ py "```python" ++ [NL] ++ py "# ./build/diagrams/mvc_pattern.py" ++ [NL]
     ++ py "```" ++ [NL; NL] ++ py "Notes." ++ [NL]
     ++ py "## Python Architecture Diagram Snippet" ++ [NL; NL]
     ++ py "```python" ++ [NL] ++ py "plt.savefig('docs/images/mvp_pattern.png')" ++ [NL]
     ++ py "```" ++ [NL; NL] ++ py "![MVP](docs/images/mvp_pattern.png)" ++ [NL])
  = py "## Architecture Diagram" ++ [NL; NL; NL]
    ++ py "![Mvc Pattern Architecture](docs/images/mvc_pattern.png)" ++ [NL; NL]
    ++ py "Notes." ++ [NL]
    ++ py "## Python Architecture Diagram Snippet" ++ [NL; NL; NL]
    ++ py "![MVP](docs/images/mvp_pattern.png)" ++ [NL].
Proof. vm_compute. reflexivity. Qed.

(** The block that follows an Architecture Overview line is removed,
    with the blank lines after it. *)
Example overview_block_removed :
  GenerateDiagrams.modified_lines
    (GenerateDiagrams.run_loop (py "diagrams")
       [ py "# High-Fidelity Pixel-Perfect Zoomable Canvas" ++ [NL];
         py "**Architecture Overview**:" ++ [NL];
         [NL];
         py "```" ++ [NL];
         [0x2502; 0x20; 0x2502; NL]%N;
         py "```" ++ [NL];
         [NL];
         py "Text" ++ [NL] ])
  = [ py "# High-Fidelity Pixel-Perfect Zoomable Canvas" ++ [NL];
      GenerateDiagrams.diagram_text (py "diagrams") (py "canvas-architecture.png");
      py "**Architecture Overview**:" ++ [NL];
      [NL];
      GenerateDiagrams.diagram_text (py "diagrams") (py "canvas-architecture.png");
      py "Text" ++ [NL] ].
Proof. vm_compute. reflexivity. Qed.

(** Frontmatter, a heading with a link and code, a code block, a table
    and a rule. *)
Example org_document {U : Unicode} :
  ConvertToOrg.convert_md_to_org
    (py "---" ++ [NL] ++ py "title: Notes" ++ [NL] ++ py "---" ++ [NL]
     ++ py "## See [docs](http://x.org) and `run`" ++ [NL]
     ++ py "```js" ++ [NL] ++ py "# not a heading" ++ [NL] ++ py "```" ++ [NL]
     ++ py "| a | b |" ++ [NL] ++ py "|---|:--|" ++ [NL]
     ++ py "***")
  = py "#+TITLE: Notes" ++ [NL] ++ [NL]
    ++ py "** See [[http://x.org][docs]] and =run=" ++ [NL]
    ++ py "#+BEGIN_SRC js" ++ [NL] ++ py "# not a heading" ++ [NL]
    ++ py "#+END_SRC" ++ [NL]
    ++ py "| a | b |" ++ [NL] ++ py "|-|:-|" ++ [NL]
    ++ py "-----".
Proof. vm_compute. reflexivity. Qed.

(** A list after a paragraph gets its blank line; a list inside a code
    block is left alone. *)
Example lists_example {U : Unicode} :
  AddNewlines.add_newlines_before_lists
    (py "Intro" ++ [NL] ++ py "- a" ++ [NL] ++ py "- b" ++ [NL]
     ++ py "```" ++ [NL] ++ py "1. x" ++ [NL] ++ py "```" ++ [NL] ++ py "2) y")
  = py "Intro" ++ [NL] ++ [NL] ++ py "- a" ++ [NL] ++ py "- b" ++ [NL]
    ++ py "```" ++ [NL] ++ py "1. x" ++ [NL] ++ py "```" ++ [NL] ++ [NL] ++ py "2) y".
Proof. vm_compute. reflexivity. Qed.

(* ================================================================== *)
(** * Further properties, script by script *)
(* ================================================================== *)

(* ------------------------------------------------------------------ *)
(** ** Texts a pattern does not match *)

(** Where a pattern matches at no position of the subject, [re.sub]
    returns the subject and [re.findall] finds nothing. *)
Lemma sub_go_no_match (r : re) (repl : state -> str) :
  forall s pre,
    (forall a b, s = a ++ b -> match_at r (rev a ++ pre) b = None) ->
    sub_go r repl 0 pre s = s.
Proof.
  induction s as [|c tl IH]; intros pre H; cbn [sub_go].
  - pose proof (H [] [] eq_refl) as E. cbn [rev app] in E. now rewrite E.
  - pose proof (H [] (c :: tl) eq_refl) as E. cbn [rev app] in E. rewrite E.
    f_equal. apply IH.
    intros a b ->. specialize (H (c :: a) b eq_refl).
    cbn [rev] in H. now rewrite <- app_assoc in H.
Qed.

Lemma count_go_no_match (r : re) :
  forall s pre,
    (forall a b, s = a ++ b -> match_at r (rev a ++ pre) b = None) ->
    count_go r 0 pre s = 0.
Proof.
  induction s as [|c tl IH]; intros pre H; cbn [count_go].
  - pose proof (H [] [] eq_refl) as E. cbn [rev app] in E. now rewrite E.
  - pose proof (H [] (c :: tl) eq_refl) as E. cbn [rev app] in E. rewrite E.
    apply IH.
    intros a b ->. specialize (H (c :: a) b eq_refl).
    cbn [rev] in H. now rewrite <- app_assoc in H.
Qed.

(** A pattern that begins with a character test fails where the next
    character does not pass it, and at the end of the text. *)
Lemma match_at_first_chr (p : N -> bool) (rs : list re) (pre s : str) :
  match s with c :: _ => p c = false | [] => True end ->
  match_at (seq (Chr p :: rs)) pre s = None.
Proof.
  intros H. unfold match_at, start. rewrite run_seq_cons.
  destruct s as [|c tl]; [now rewrite run_Chr_nil |].
  now rewrite run_Chr_cons, H.
Qed.

Lemma contains_suffix (p : str) :
  forall a b, contains p (a ++ b) = false -> startswith p b = false.
Proof.
  induction a as [|c a IH]; intros b H.
  - destruct b; cbn [app contains] in H; now apply orb_false_elim in H.
  - cbn [app contains] in H. apply orb_false_elim in H as [_ H]. now apply IH.
Qed.

Lemma startswith_one (c : N) (s : str) :
  startswith [c] s = false ->
  match s with x :: _ => lit c x = false | [] => True end.
Proof.
  destruct s as [|x tl]; [trivial |]. cbn [startswith]. unfold lit.
  rewrite andb_true_r, N.eqb_sym. trivial.
Qed.

Lemma dropWhile_head (p : N -> bool) (s : str) (c : N) (tl : str) :
  dropWhile p s = c :: tl -> p c = false.
Proof.
  induction s as [|x s IH]; cbn [dropWhile]; [discriminate |].
  destruct (p x) eqn:E; [exact IH | now intros [= <- _]].
Qed.

Lemma dropWhile_last (p : N -> bool) (c : N) :
  p c = false -> forall a, dropWhile p (a ++ [c]) = dropWhile p a ++ [c].
Proof.
  intros Hc. induction a as [|x a IH]; cbn [app dropWhile]; [now rewrite Hc |].
  destruct (p x); [exact IH | reflexivity].
Qed.

Lemma star_chr_class (p : N -> bool) (cs : list (nat * str)) :
  forall s pre e,
    In e (star_chr p pre s cs) ->
    exists m, s = m ++ rest e /\ forallb p m = true.
Proof.
  induction s as [|c tl IH]; intros pre e; cbn [star_chr].
  - intros [<- | []]. now exists [].
  - destruct (p c) eqn:Hc.
    + intros H. apply in_app_or in H as [H | [<- | []]]; [|now exists []].
      apply IH in H as (m & E & Hm). exists (c :: m). cbn [app forallb].
      now rewrite <- E, Hc, Hm.
    + intros [<- | []]. now exists [].
Qed.

Lemma plus_chr_class (p : N -> bool) (st e : state) :
  In e (run (Plus true (Chr p)) st) ->
  exists m, rest st = m ++ rest e /\ m <> [] /\ forallb p m = true.
Proof.
  destruct st as [pre s cs]. unfold Plus. rewrite run_Seq.
  destruct s as [|c tl]; [rewrite run_Chr_nil; intros [] |].
  rewrite run_Chr_cons. destruct (p c) eqn:Hc; [|intros []].
  rewrite flat_map_one, run_star_chr. intros H.
  apply star_chr_class in H as (m & E & Hm). exists (c :: m). cbn [rest app forallb].
  rewrite <- E, Hc, Hm. repeat split. discriminate.
Qed.

Lemma startswith_split (p s : str) :
  startswith p s = true -> s = p ++ skipn (length p) s.
Proof.
  revert s. induction p as [|x p IH]; intros s; [reflexivity |].
  destruct s as [|y s]; [discriminate |]. cbn [startswith length skipn app].
  intros H. apply andb_prop in H as [Hx H]. apply N.eqb_eq in Hx as ->.
  f_equal. now apply IH.
Qed.

Lemma contains_middle (p : str) : forall a t, contains p (a ++ p ++ t) = true.
Proof.
  induction a as [|c a IH]; intros t.
  - cbn [app]. destruct (p ++ t) eqn:E; cbn [contains]; rewrite <- E, startswith_app;
      reflexivity.
  - cbn [app contains]. rewrite IH. apply orb_true_r.
Qed.

(* ------------------------------------------------------------------ *)
(** ** replace_br_tags.py: a text without tags *)

(** X1.  replace_br_tags.py: a text that contains no ["<"] holds no tag.
    [main] writes it back unchanged and the three numbers it prints -
    tags found, tags left, tags replaced - are all zero. *)
Theorem replace_br_tags_without_tags (content : str) :
  contains (py "<") content = false ->
  ReplaceBrTags.main content = ReplaceBrTags.mkReport 0 0 0 content.
Proof.
  intros H.
  assert (Hsub : ReplaceBrTags.replace_br_tags content = content).
  { apply sub_go_no_match. intros a b ->.
    apply (match_at_first_chr (lit (chr "<"))), startswith_one.
    now apply (contains_suffix _ a). }
  assert (Hcount : count_matches ReplaceBrTags.br_plain content = 0).
  { apply count_go_no_match. intros a b ->.
    apply (match_at_first_chr (lit (chr "<"))), startswith_one.
    now apply (contains_suffix _ a). }
  unfold ReplaceBrTags.main. now rewrite Hsub, Hcount.
Qed.

Lemma replace_br_tags_without_tags_witness :
  ReplaceBrTags.main (py "two lines" ++ [NL] ++ py "of text")
  = ReplaceBrTags.mkReport 0 0 0 (py "two lines" ++ [NL] ++ py "of text").
Proof. apply replace_br_tags_without_tags. reflexivity. Defined.

(* ------------------------------------------------------------------ *)
(** ** promote_headings.py: a text without sub-headings *)

Lemma readlines_concat (s : str) : concat (readlines s) = s.
Proof.
  induction s as [|c tl IH]; [reflexivity |]. cbn [readlines].
  destruct (c =? NL)%N.
  - cbn [concat app]. now rewrite IH.
  - destruct (readlines tl) as [|l ls]; cbn [concat app] in *; now rewrite <- IH.
Qed.

(** Every line [readlines] returns is a piece of the text. *)
Lemma readlines_piece (s : str) :
  forall l, In l (readlines s) -> exists a b, s = a ++ l ++ b.
Proof.
  induction s as [|c tl IH]; intros l; cbn [readlines]; [intros [] |].
  destruct (c =? NL)%N.
  - intros [<- | H]; [now exists [], tl |].
    apply IH in H as (a & b & ->). now exists (c :: a), b.
  - destruct (readlines tl) as [|l0 ls] eqn:E.
    + intros [<- | []]. destruct tl as [|x tl'].
      * now exists [], [].
      * cbn [readlines] in E. destruct (x =? NL)%N; [discriminate |].
        destruct (readlines tl'); discriminate.
    + intros [<- | H].
      * destruct (IH l0 (or_introl eq_refl)) as (a & b & E').
        pose proof (readlines_concat tl) as Hc. rewrite E in Hc.
        cbn [concat] in Hc. exists [], (concat ls). cbn [app]. now rewrite Hc.
      * destruct (IH l (or_intror H)) as (a & b & ->). now exists (c :: a), b.
Qed.

Lemma startswith_prefix (p l b : str) :
  startswith p (l ++ b) = false -> startswith p l = false.
Proof.
  revert l; induction p as [|x p IH]; intros l; [discriminate |].
  destruct l as [|y l]; [reflexivity |]. cbn [app startswith].
  destruct (x =? y)%N; [apply IH | reflexivity].
Qed.

Lemma promote_line_plain (line : str) :
  startswith (py "##") line = false -> PromoteHeadings.promote_line line = line.
Proof.
  intros H. destruct (hashes_split line) as (n & t & -> & Ht).
  rewrite promote_line_shape by exact Ht.
  destruct n as [|[|n]]; try reflexivity. discriminate H.
Qed.

(** X2.  promote_headings.py: a text in which ["##"] does not occur has
    no heading to promote; the script writes it back character for
    character (cutting into lines and writing the lines loses nothing). *)
Theorem promote_headings_without_subheadings (content : str) :
  contains (py "##") content = false ->
  PromoteHeadings.main content = content.
Proof.
  intros H. unfold PromoteHeadings.main. rewrite promote_headings_map.
  rewrite <- (readlines_concat content) at 2. unfold writelines. f_equal.
  rewrite <- (map_id (readlines content)) at 2.
  apply map_ext_in. intros l Hl. apply promote_line_plain.
  apply readlines_piece in Hl as (a & b & ->).
  apply (startswith_prefix _ l b). now apply (contains_suffix _ a).
Qed.

Lemma promote_headings_without_subheadings_witness :
  PromoteHeadings.main (py "# Title" ++ [NL] ++ py "Text #1" ++ [NL])
  = py "# Title" ++ [NL] ++ py "Text #1" ++ [NL].
Proof. apply promote_headings_without_subheadings. reflexivity. Defined.

(* ------------------------------------------------------------------ *)
(** ** promote_headings.py: the lines of the file written *)

Lemma line_ok_nonempty (b : bool) (l : str) :
  PromoteHeadings.line_ok b l = true -> l <> [].
Proof. destruct l; [discriminate | discriminate]. Qed.

Lemma readlines_ok (s : str) : PromoteHeadings.lines_ok (readlines s) = true.
Proof.
  induction s as [|c tl IH]; [reflexivity |]. cbn [readlines].
  destruct (c =? NL)%N eqn:Ec.
  - cbn [PromoteHeadings.lines_ok PromoteHeadings.line_ok]. rewrite Ec, IH.
    now destruct (readlines tl).
  - destruct (readlines tl) as [|l ls]; cbn [PromoteHeadings.lines_ok] in *.
    + cbn [PromoteHeadings.line_ok]. reflexivity.
    + assert (H : forall b, PromoteHeadings.line_ok b l = true ->
                            PromoteHeadings.line_ok b (c :: l) = true).
      { intros b Hl. cbn [PromoteHeadings.line_ok]. rewrite Ec.
        destruct l; [discriminate | exact Hl]. }
      destruct ls; [now apply H |].
      apply andb_prop in IH as [H1 H2]. now rewrite (H false H1), H2.
Qed.

Lemma readlines_last (l : str) :
  PromoteHeadings.line_ok true l = true -> readlines l = [l].
Proof.
  induction l as [|c tl IH]; [discriminate |]. cbn [PromoteHeadings.line_ok readlines].
  destruct tl as [|d tl'].
  - destruct (c =? NL)%N; reflexivity.
  - intros H. apply andb_prop in H as [Hc H]. apply negb_true_iff in Hc.
    rewrite Hc, (IH H). reflexivity.
Qed.

Lemma readlines_line (l x : str) :
  PromoteHeadings.line_ok false l = true -> readlines (l ++ x) = l :: readlines x.
Proof.
  induction l as [|c tl IH]; [discriminate |].
  cbn [PromoteHeadings.line_ok app readlines].
  destruct tl as [|d tl'].
  - cbn [orb app]. now intros ->.
  - intros H. apply andb_prop in H as [Hc H]. apply negb_true_iff in Hc.
    rewrite Hc, (IH H). reflexivity.
Qed.

(** Writing lines that are as [readlines] returns them and reading
    them again gives the same lines. *)
Lemma readlines_writelines (ls : list str) :
  PromoteHeadings.lines_ok ls = true -> readlines (writelines ls) = ls.
Proof.
  unfold writelines. induction ls as [|l ls IH]; [reflexivity |].
  cbn [PromoteHeadings.lines_ok concat]. destruct ls as [|l' ls'].
  - intros H. cbn [concat]. rewrite app_nil_r. now apply readlines_last.
  - intros H. apply andb_prop in H as [H1 H2].
    rewrite readlines_line by exact H1. now rewrite IH.
Qed.

Lemma promote_line_ok (b : bool) (l : str) :
  PromoteHeadings.line_ok b l = true ->
  PromoteHeadings.line_ok b (PromoteHeadings.promote_line l) = true.
Proof.
  intros H. destruct (hashes_split l) as (n & t & -> & Ht).
  rewrite promote_line_shape by exact Ht.
  destruct n as [|[|m]]; try exact H.
  destruct t as [|w r]; [exact H |]. destruct (isspace w); [|exact H].
  cbn [repeat app PromoteHeadings.line_ok] in H.
  apply andb_prop in H as [_ H]. exact H.
Qed.

Lemma promote_lines_ok (ls : list str) :
  PromoteHeadings.lines_ok ls = true ->
  PromoteHeadings.lines_ok (map PromoteHeadings.promote_line ls) = true.
Proof.
  induction ls as [|l ls IH]; [reflexivity |].
  cbn [PromoteHeadings.lines_ok map]. destruct ls as [|l' ls'].
  - apply promote_line_ok.
  - intros H. apply andb_prop in H as [H1 H2]. cbn [map] in IH |- *.
    now rewrite (promote_line_ok false l H1), (IH H2).
Qed.

(** X3.  promote_headings.py: the file the script writes has the lines
    of the file it read, each one promoted: reading the output with
    [readlines] gives line for line what the loop made.  So the number
    of lines does not change, and no promotion joins or splits lines. *)
Theorem promoted_file_has_the_promoted_lines (content : str) :
  readlines (PromoteHeadings.main content)
  = map PromoteHeadings.promote_line (readlines content)
  /\ length (readlines (PromoteHeadings.main content)) = length (readlines content).
Proof.
  assert (H : readlines (PromoteHeadings.main content)
              = map PromoteHeadings.promote_line (readlines content)).
  { unfold PromoteHeadings.main. rewrite promote_headings_map.
    apply readlines_writelines, promote_lines_ok, readlines_ok. }
  split; [exact H |]. rewrite H. apply length_map.
Qed.

(* ------------------------------------------------------------------ *)
(** ** remove_emojis.py: the characters of the pattern *)

(** X27.  remove_emojis.py: whatever the text, no character of the
    class that [emoji_pattern] enumerates is left in what
    [remove_emojis] returns: the pattern deletes every run of them,
    and the replacements and the two substitutions after it put none
    back. *)
Theorem remove_emojis_clears_class (text : str) :
  Forall (fun c => RemoveEmojis.in_emoji_class c = false)
         (RemoveEmojis.remove_emojis text).
Proof.
  apply Forall_forall. intros c H.
  unfold RemoveEmojis.remove_emojis in H.
  apply re_sub_chars in H as [H | [e H]];
    [| cbn in H; destruct H as [<- | [<- | []]]; reflexivity].
  apply re_sub_chars in H as [H | [e H]];
    [| cbn in H; destruct H as [<- | []]; reflexivity].
  apply fold_replace_delete_chars in H.
  unfold re_sub, RemoveEmojis.emoji_pattern in H.
  now apply sub_plus_chr_removes in H.
Qed.

(* ------------------------------------------------------------------ *)
(** ** remove_emojis.py: runs of spaces *)

(** The first way the greedy star of a class matches takes every
    character of the class there is. *)
Lemma star_chr_longest (p : N -> bool) (cs : list (nat * str)) :
  forall s pre,
    exists pre' l, star_chr p pre s cs = mkState pre' (dropWhile p s) cs :: l.
Proof.
  induction s as [|c tl IH]; intros pre; cbn [star_chr dropWhile].
  - now exists pre, [].
  - destruct (p c).
    + destruct (IH (c :: pre)) as (pre' & l & ->). now exists pre', (l ++ [mkState pre (c :: tl) cs]).
    + now exists pre, [].
Qed.

Lemma plus_chr_longest (p : N -> bool) (pre : str) (c : N) (tl : str) :
  p c = true ->
  exists e, match_at (Plus true (Chr p)) pre (c :: tl) = Some e
            /\ rest e = dropWhile p tl.
Proof.
  intros Hc. unfold match_at, start, Plus.
  rewrite run_Seq, run_Chr_cons, Hc, flat_map_one, run_star_chr.
  destruct (star_chr_longest p [] tl (c :: pre)) as (pre' & l & ->).
  now eexists.
Qed.

Lemma dropWhile_length (p : N -> bool) (s : str) :
  length (dropWhile p s) <= length s.
Proof.
  induction s as [|c tl IH]; cbn [dropWhile length]; [lia |].
  destruct (p c); cbn [length]; lia.
Qed.

Lemma skipn_dropWhile (p : N -> bool) (s : str) :
  skipn (length s - length (dropWhile p s)) s = dropWhile p s.
Proof.
  induction s as [|c tl IH]; [reflexivity |]. cbn [dropWhile].
  destruct (p c).
  - pose proof (dropWhile_length p tl). cbn [length].
    replace (S (length tl) - length (dropWhile p tl))
      with (S (length tl - length (dropWhile p tl))) by lia.
    exact IH.
  - now rewrite Nat.sub_diag.
Qed.

Lemma single_spaced_cons (c : N) (s : str) :
  RemoveEmojis.single_spaced s = true ->
  (c = SP -> hd_error s <> Some SP) ->
  RemoveEmojis.single_spaced (c :: s) = true.
Proof.
  intros Hs Hc. cbn [RemoveEmojis.single_spaced]. rewrite Hs, andb_true_r.
  destruct s as [|y s']; [reflexivity |].
  destruct (N.eqb_spec c SP) as [-> | _]; [|reflexivity].
  destruct (N.eqb_spec y SP) as [-> | _]; [|reflexivity].
  now destruct (Hc eq_refl).
Qed.

Lemma single_spaced_tail (c : N) (s : str) :
  RemoveEmojis.single_spaced (c :: s) = true ->
  RemoveEmojis.single_spaced s = true /\ (c = SP -> hd_error s <> Some SP).
Proof.
  cbn [RemoveEmojis.single_spaced]. intros H. apply andb_prop in H as [H1 H2].
  split; [exact H2 |]. intros -> E. destruct s as [|y s']; [discriminate |].
  injection E as ->. discriminate.
Qed.

(** After [re.sub(' +', ' ', s)] no two spaces are side by side. *)
Lemma sub_spaces_single_spaced :
  forall s skip pre,
    RemoveEmojis.single_spaced
      (sub_go RemoveEmojis.spaces (fun _ => [SP]) skip pre s) = true
    /\ (hd_error (skipn skip s) <> Some SP ->
        hd_error (sub_go RemoveEmojis.spaces (fun _ => [SP]) skip pre s) <> Some SP).
Proof.
  induction s as [|c tl IH]; intros skip pre.
  - destruct skip; [rewrite sub_go_nonempty by (cbn; lia) | cbn [sub_go]];
      (split; [reflexivity | now intros _]).
  - destruct skip as [|k]; [|cbn [sub_go skipn]; apply IH].
    rewrite sub_go_nonempty by (cbn; lia). cbn [skipn hd_error].
    destruct (N.eqb_spec c SP) as [-> | Hc].
    + destruct (plus_chr_longest (lit SP) pre SP tl eq_refl) as (e & E & He).
      unfold RemoveEmojis.spaces. rewrite E. split; [|now intros []].
      unfold consumed, start. cbn [rest length]. rewrite He.
      pose proof (dropWhile_length (lit SP) tl).
      replace (S (length tl) - length (dropWhile (lit SP) tl) - 1)
        with (length tl - length (dropWhile (lit SP) tl)) by lia.
      destruct (IH (length tl - length (dropWhile (lit SP) tl)) (SP :: pre)) as [H1 H2].
      cbn [app]. apply single_spaced_cons; [exact H1 |]. intros _. apply H2.
      rewrite skipn_dropWhile.
      destruct (dropWhile (lit SP) tl) as [|y t'] eqn:Ed; [discriminate |].
      apply dropWhile_head in Ed. intros [= ->]. discriminate.
    + rewrite (match_at_first_chr (lit SP) [Star true (Chr (lit SP))])
        by (unfold lit; now apply N.eqb_neq).
      destruct (IH 0 (c :: pre)) as [H1 _].
      split; [apply single_spaced_cons; [exact H1 | now intros] | now intros _ [= ->]].
Qed.

(** Replacing matches by two newlines puts no two spaces side by side. *)
Lemma sub_newlines_single_spaced (r : re) :
  1 <= min_len r ->
  forall s skip pre,
    RemoveEmojis.single_spaced s = true ->
    RemoveEmojis.single_spaced (sub_go r (fun _ => [NL; NL]) skip pre s) = true.
Proof.
  intros Hr. induction s as [|c tl IH]; intros skip pre Hs.
  - destruct skip; [now rewrite sub_go_nonempty by exact Hr | reflexivity].
  - apply single_spaced_tail in Hs as [Htl Hc].
    destruct skip as [|k]; [|cbn [sub_go]; now apply IH].
    rewrite sub_go_nonempty by exact Hr.
    destruct (match_at r pre (c :: tl)) as [e|].
    + cbn [app]. apply single_spaced_cons; [|discriminate].
      apply single_spaced_cons; [now apply IH | discriminate].
    + apply single_spaced_cons; [now apply IH |].
      intros ->. rewrite sub_go_nonempty by exact Hr.
      destruct tl as [|y tl']; [discriminate |].
      destruct (match_at r (SP :: pre) (y :: tl')); [discriminate |].
      exact (Hc eq_refl).
Qed.

Lemma single_spaced_contains (s : str) :
  RemoveEmojis.single_spaced s = true -> contains [SP; SP] s = false.
Proof.
  induction s as [|c tl IH]; [reflexivity |]. intros H.
  apply single_spaced_tail in H as [Htl Hc].
  cbn [contains]. rewrite (IH Htl), orb_false_r. cbn [startswith].
  destruct (N.eqb_spec SP c) as [<- | _]; [|reflexivity].
  destruct tl as [|y tl']; [reflexivity |].
  destruct (N.eqb_spec SP y) as [<- | _]; [|reflexivity].
  now destruct (Hc eq_refl).
Qed.

(** X4.  remove_emojis.py: whatever the text, what [remove_emojis]
    returns has no two spaces side by side - the runs of spaces that
    removing emoji leaves behind are collapsed, and the later clean-up
    of blank lines does not bring any back. *)
Theorem remove_emojis_collapses_spaces (text : str) :
  contains (py "  ") (RemoveEmojis.remove_emojis text) = false.
Proof.
  apply single_spaced_contains. unfold RemoveEmojis.remove_emojis, re_sub.
  apply sub_newlines_single_spaced; [cbn; lia |].
  apply sub_spaces_single_spaced.
Qed.

(* ------------------------------------------------------------------ *)
(** ** remove_emojis.py: runs of blank lines *)

Lemma in_run_chr (p : N -> bool) (st x : state) :
  In x (run (Chr p) st) ->
  exists c, p c = true /\ rest st = c :: rest x.
Proof.
  destruct st as [pre s cs]. destruct s as [|c tl]; [rewrite run_Chr_nil; intros [] |].
  rewrite run_Chr_cons. destruct (p c) eqn:E; [|intros []].
  intros [<- | []]. now exists c.
Qed.

Lemma in_run_star_chr (p : N -> bool) (st x : state) :
  In x (run (Star true (Chr p)) st) ->
  exists m, rest st = m ++ rest x /\ forallb p m = true.
Proof.
  destruct st as [pre s cs]. rewrite run_star_chr. apply star_chr_class.
Qed.

(** What the blank-line pattern matches: a newline, white space, a
    newline, white space, a newline. *)
Lemma blank_lines_shape (st e : state) :
  In e (run RemoveEmojis.blank_lines st) ->
  exists m1 m2,
    rest st = NL :: m1 ++ NL :: m2 ++ NL :: rest e
    /\ forallb isspace m1 = true /\ forallb isspace m2 = true.
Proof.
  unfold RemoveEmojis.blank_lines. intros H.
  rewrite run_seq_cons in H. apply in_flat_map in H as (x1 & H1 & H).
  rewrite run_seq_cons in H. apply in_flat_map in H as (x2 & H2 & H).
  rewrite run_seq_cons in H. apply in_flat_map in H as (x3 & H3 & H).
  rewrite run_seq_cons in H. apply in_flat_map in H as (x4 & H4 & H5).
  cbn [seq] in H5.
  apply in_run_chr in H1 as (c1 & Hc1 & E1). apply N.eqb_eq in Hc1 as ->.
  apply in_run_star_chr in H2 as (m1 & E2 & Hm1).
  apply in_run_chr in H3 as (c3 & Hc3 & E3). apply N.eqb_eq in Hc3 as ->.
  apply in_run_star_chr in H4 as (m2 & E4 & Hm2).
  apply in_run_chr in H5 as (c5 & Hc5 & E5). apply N.eqb_eq in Hc5 as ->.
  exists m1, m2. rewrite E1, E2, E3, E4, E5. auto.
Qed.

Lemma space_newlines_app (m x : str) :
  forallb isspace m = true ->
  RemoveEmojis.space_newlines x <= RemoveEmojis.space_newlines (m ++ x).
Proof.
  induction m as [|c m IH]; cbn [forallb app RemoveEmojis.space_newlines]; [lia |].
  intros H. apply andb_prop in H as [-> H]. specialize (IH H). lia.
Qed.

Lemma space_newlines_NL (x : str) :
  RemoveEmojis.space_newlines (NL :: x) = S (RemoveEmojis.space_newlines x).
Proof. reflexivity. Qed.

(** A match starts with a newline and spans three of them. *)
Lemma blank_lines_match_needs (pre s : str) (e : state) :
  match_at RemoveEmojis.blank_lines pre s = Some e ->
  exists t, s = NL :: t /\ 2 <= RemoveEmojis.space_newlines t.
Proof.
  intros H. apply hd_error_In, blank_lines_shape in H as (m1 & m2 & E & H1 & H2).
  cbn [start rest] in E. exists (m1 ++ NL :: m2 ++ NL :: rest e). split; [exact E |].
  pose proof (space_newlines_app m1 (NL :: m2 ++ NL :: rest e) H1).
  pose proof (space_newlines_app m2 (NL :: rest e) H2).
  rewrite space_newlines_NL in *. lia.
Qed.

(** [\s*\n]: the ways to pass white space and then a newline,
    longest white space first. *)
Lemma after_space_exists (cs : list (nat * str)) :
  forall t pre,
    1 <= RemoveEmojis.space_newlines t ->
    flat_map (run (Chr (lit NL))) (star_chr isspace pre t cs) <> [].
Proof.
  induction t as [|c tl IH]; intros pre; cbn [RemoveEmojis.space_newlines star_chr];
    [lia |].
  destruct (isspace c); [|lia]. rewrite flat_map_app, flat_map_one, run_Chr_cons.
  unfold lit. destruct (c =? NL)%N.
  - intros _ H. apply app_eq_nil in H as [_ H]. discriminate.
  - intros Hn H. apply app_eq_nil in H as [H _]. now apply (IH (c :: pre)).
Qed.

Lemma after_space_longest (cs : list (nat * str)) :
  forall t pre e l,
    flat_map (run (Chr (lit NL))) (star_chr isspace pre t cs) = e :: l ->
    RemoveEmojis.space_newlines (rest e) = 0.
Proof.
  induction t as [|c tl IH]; intros pre e l; cbn [star_chr].
  - rewrite flat_map_one, run_Chr_nil. discriminate.
  - destruct (isspace c) eqn:Hc.
    + rewrite flat_map_app, flat_map_one, run_Chr_cons.
      destruct (flat_map (run (Chr (lit NL))) (star_chr isspace (c :: pre) tl cs))
        as [|e' l'] eqn:E.
      * cbn [app]. destruct (lit NL c); [|discriminate]. intros [= <- _]. cbn [rest].
        destruct (RemoveEmojis.space_newlines tl) eqn:En; [reflexivity |].
        exfalso. apply (after_space_exists cs tl (c :: pre)); [lia | exact E].
      * cbn [app]. intros [= <- _]. now apply (IH (c :: pre) e' l').
    + rewrite flat_map_one, run_Chr_cons. unfold lit.
      destruct (N.eqb_spec c NL) as [-> | _]; [discriminate Hc | discriminate].
Qed.

Lemma flat_map_hd (A B : Type) (f : A -> list B) :
  forall (l : list A) (e : B) (r : list B),
    flat_map f l = e :: r -> exists x r', In x l /\ f x = e :: r'.
Proof.
  induction l as [|x l IH]; intros e r; cbn [flat_map]; [discriminate |].
  destruct (f x) as [|y ys] eqn:E.
  - cbn [app]. intros H. apply IH in H as (x' & r' & Hx & Hf).
    exists x', r'. split; [now right | exact Hf].
  - cbn [app]. intros [= <- _]. exists x, ys. split; [now left | exact E].
Qed.

(** The match [re.sub] takes ends after the last newline of the white
    space: no newline is left in the white space that follows. *)
Lemma blank_lines_match_end (pre s : str) (e : state) :
  match_at RemoveEmojis.blank_lines pre s = Some e ->
  RemoveEmojis.space_newlines (rest e) = 0.
Proof.
  unfold match_at, start, RemoveEmojis.blank_lines. intros H.
  match type of H with
  | hd_error ?l = _ => destruct l as [|e0 l0] eqn:E; [discriminate |]
  end.
  injection H as ->.
  rewrite run_seq_cons in E. apply flat_map_hd in E as (x1 & r1 & _ & E).
  rewrite run_seq_cons in E. apply flat_map_hd in E as (x2 & r2 & _ & E).
  rewrite run_seq_cons in E. apply flat_map_hd in E as (x3 & r3 & _ & E).
  rewrite run_seq_cons in E. cbn [seq] in E.
  destruct x3 as [p3 s3 c3]. rewrite run_star_chr in E.
  now apply after_space_longest in E.
Qed.

(** Where a newline is followed by white space with two more newlines
    the pattern matches. *)
Lemma blank_lines_matches (pre t : str) :
  2 <= RemoveEmojis.space_newlines t ->
  match_at RemoveEmojis.blank_lines pre (NL :: t) <> None.
Proof.
  intros Ht. unfold match_at, start, RemoveEmojis.blank_lines.
  rewrite run_seq_cons, run_Chr_cons. cbn [lit N.eqb Pos.eqb NL]. rewrite flat_map_one.
  rewrite run_seq_cons, run_star_chr.
  enough (H : forall t pre cs,
             2 <= RemoveEmojis.space_newlines t ->
             flat_map (run (seq [Chr (lit NL); Star true (Chr isspace); Chr (lit NL)]))
                      (star_chr isspace pre t cs) <> []).
  { specialize (H t (NL :: pre) [] Ht).
    destruct (flat_map _ _); [now destruct H | discriminate]. }
  clear. induction t as [|c tl IH]; intros pre cs;
    cbn [RemoveEmojis.space_newlines star_chr]; [lia |].
  destruct (isspace c); [|lia]. rewrite flat_map_app, flat_map_one.
  destruct (N.eqb_spec c NL) as [-> | Hc].
  - intros Hn H. apply app_eq_nil in H as [_ H].
    rewrite run_seq_cons, run_Chr_cons in H. cbn [lit N.eqb Pos.eqb NL] in H.
    rewrite flat_map_one, run_seq_cons, run_star_chr in H. cbn [seq] in H.
    apply (after_space_exists cs tl (NL :: pre)); [lia | exact H].
  - intros Hn H. apply app_eq_nil in H as [H _]. apply (IH (c :: pre) cs); [lia | exact H].
Qed.

Lemma no_blank_run_cons (c : N) (o : str) :
  RemoveEmojis.no_blank_run o = true ->
  RemoveEmojis.newline_run (c :: o) <= 2 ->
  RemoveEmojis.no_blank_run (c :: o) = true.
Proof.
  intros Ho Hc. cbn [RemoveEmojis.no_blank_run]. rewrite Ho, andb_true_r.
  now apply Nat.leb_le.
Qed.

(** After [re.sub(r'\n\s*\n\s*\n', '\n\n', s)] there are nowhere more
    than two newlines in a row; [skip] counts what is left to pass of
    the last match. *)
Lemma sub_blank_lines_run :
  forall s skip pre,
    let o := sub_go RemoveEmojis.blank_lines (fun _ => [NL; NL]) skip pre s in
    RemoveEmojis.no_blank_run o = true
    /\ RemoveEmojis.newline_run o <= 2
    /\ (RemoveEmojis.space_newlines (skipn skip s) <= 1 ->
        RemoveEmojis.newline_run o <= RemoveEmojis.space_newlines (skipn skip s)).
Proof.
  induction s as [|c tl IH]; intros skip pre; cbv zeta.
  - destruct skip; [rewrite sub_go_nonempty by (cbn; lia) | cbn [sub_go]];
      cbn; repeat split; lia.
  - destruct skip as [|k]; [|cbn [sub_go skipn]; apply IH].
    rewrite sub_go_nonempty by (cbn; lia). cbn [skipn].
    destruct (match_at RemoveEmojis.blank_lines pre (c :: tl)) as [e|] eqn:E.
    + pose proof (blank_lines_match_needs _ _ _ E) as (t & Et & Hneeds).
      pose proof (blank_lines_match_end _ _ _ E) as Hend.
      apply hd_error_In, blank_lines_shape in E as (m1 & m2 & Es & _ & _).
      cbn [start rest] in Es. injection Es as -> Etl. injection Et as <-.
      assert (Hk : consumed (start pre (NL :: tl)) e - 1
                   = length (m1 ++ NL :: m2 ++ [NL])).
      { unfold consumed, start. cbn [rest]. rewrite Etl. cbn [length].
        rewrite !length_app. cbn [length]. rewrite !length_app. cbn [length]. lia. }
      rewrite Hk.
      destruct (IH (length (m1 ++ NL :: m2 ++ [NL])) (NL :: pre)) as (H1 & H2 & H3).
      assert (Hskip : skipn (length (m1 ++ NL :: m2 ++ [NL])) tl = rest e).
      { rewrite Etl.
        replace (m1 ++ NL :: m2 ++ NL :: rest e)
          with ((m1 ++ NL :: m2 ++ [NL]) ++ rest e)
          by (rewrite <- !app_assoc; cbn [app]; now rewrite <- !app_assoc).
        rewrite skipn_app, skipn_all, Nat.sub_diag. reflexivity. }
      rewrite Hskip, Hend in H3. specialize (H3 ltac:(lia)).
      cbn [app]. rewrite space_newlines_NL.
      assert (Hrun : RemoveEmojis.newline_run
                       (NL :: NL :: sub_go RemoveEmojis.blank_lines (fun _ => [NL; NL])
                                           (length (m1 ++ NL :: m2 ++ [NL]))
                                           (NL :: pre) tl) = 2)
        by (cbn [RemoveEmojis.newline_run N.eqb Pos.eqb NL]; lia).
      repeat split; [|lia | lia].
      apply no_blank_run_cons; [|lia].
      apply no_blank_run_cons; [exact H1 |].
      cbn [RemoveEmojis.newline_run N.eqb Pos.eqb NL] in Hrun |- *. lia.
    + destruct (IH 0 (c :: pre)) as (H1 & H2 & H3). cbn [skipn] in H3.
      destruct (N.eqb_spec c NL) as [-> | Hc].
      * assert (Htl : RemoveEmojis.space_newlines tl <= 1).
        { destruct (Nat.le_gt_cases (RemoveEmojis.space_newlines tl) 1) as [H | H];
            [exact H |].
          now destruct (blank_lines_matches pre tl H). }
        specialize (H3 Htl). rewrite space_newlines_NL.
        assert (Hrun : RemoveEmojis.newline_run
                         (NL :: sub_go RemoveEmojis.blank_lines (fun _ => [NL; NL]) 0
                                       (NL :: pre) tl)
                       <= S (RemoveEmojis.space_newlines tl))
          by (cbn [RemoveEmojis.newline_run N.eqb Pos.eqb NL]; lia).
        repeat split; [|lia | lia]. apply no_blank_run_cons; [exact H1 | lia].
      * assert (Hrun : RemoveEmojis.newline_run
                         (c :: sub_go RemoveEmojis.blank_lines (fun _ => [NL; NL]) 0
                                      (c :: pre) tl) = 0).
        { cbn [RemoveEmojis.newline_run]. apply N.eqb_neq in Hc. now rewrite Hc. }
        repeat split; [|lia | lia]. apply no_blank_run_cons; [exact H1 | lia].
Qed.

Lemma no_blank_run_contains (o : str) :
  RemoveEmojis.no_blank_run o = true -> contains [NL; NL; NL] o = false.
Proof.
  induction o as [|c o IH]; [reflexivity |]. intros H.
  cbn [RemoveEmojis.no_blank_run] in H. apply andb_prop in H as [Hrun H].
  apply Nat.leb_le in Hrun. cbn [contains]. rewrite (IH H), orb_false_r.
  destruct (startswith [NL; NL; NL] (c :: o)) eqn:E; [|reflexivity].
  apply startswith_split in E. rewrite E in Hrun.
  cbn [length skipn app RemoveEmojis.newline_run N.eqb Pos.eqb NL] in Hrun. lia.
Qed.

(** X5.  remove_emojis.py: whatever the text, what [remove_emojis]
    returns has nowhere three newlines in a row: the blank lines that
    removing emoji leaves behind, and those the text had, are
    collapsed to one. *)
Theorem remove_emojis_collapses_blank_lines (text : str) :
  contains [NL; NL; NL] (RemoveEmojis.remove_emojis text) = false.
Proof.
  apply no_blank_run_contains. unfold RemoveEmojis.remove_emojis, re_sub.
  apply sub_blank_lines_run.
Qed.

(* ------------------------------------------------------------------ *)
(** ** add_newlines_before_lists.py: what [process_file] reports *)

Section AddNewlinesReport.
Context {U : Unicode}.
Import AddNewlines.

Lemma go_keeps_text :
  forall todo before in_code,
    text_lines (go before todo in_code) = text_lines todo.
Proof.
  induction todo as [|line todo IH]; intros before in_code; cbn [go]; [reflexivity |].
  destruct (is_code_fence line); [unfold text_lines in *; cbn [filter]; now rewrite IH |].
  destruct in_code; [unfold text_lines in *; cbn [filter]; now rewrite IH |].
  unfold text_lines in *. rewrite filter_app. cbn [filter]. rewrite IH.
  destruct (is_list_item line); [|reflexivity].
  destruct before as [p|]; [|reflexivity].
  destruct (negb (is_blank_line p)); [|reflexivity].
  destruct (negb (is_list_item p)); reflexivity.
Qed.

Lemma go_length :
  forall todo before in_code,
    length todo <= length (go before todo in_code)
    /\ (length (go before todo in_code) = length todo ->
        go before todo in_code = todo).
Proof.
  induction todo as [|line todo IH]; intros before in_code; cbn [go];
    [split; [lia | reflexivity] |].
  destruct (is_code_fence line);
    [destruct (IH (Some line) (negb in_code)) as [Hle Heq]; cbn [length]; split;
       [lia | intros E; f_equal; apply Heq; lia] |].
  destruct in_code;
    [destruct (IH (Some line) true) as [Hle Heq]; cbn [length]; split;
       [lia | intros E; f_equal; apply Heq; lia] |].
  destruct (IH (Some line) false) as [Hle Heq].
  rewrite length_app. cbn [length].
  match goal with |- context [length ?ins + _] => destruct ins as [|x ins'] end.
  - cbn [length app]. unfold str in *. split; [lia | intros E'; f_equal; apply Heq; lia].
  - cbn [length]. unfold str in *. split; [lia | intros E'; lia].
Qed.

Lemma split_add_newlines (content : str) :
  split_nl (add_newlines_before_lists content) = go None (split_nl content) false.
Proof.
  unfold add_newlines_before_lists. rewrite loop_is_go.
  apply split_join_nl.
  - apply go_nonempty, split_nl_nonempty.
  - intros l Hl. apply go_lines in Hl as [-> | Hl]; [intros [] |].
    now apply split_nl_no_nl in Hl.
Qed.

Lemma join_split_nl (s : str) : join_nl (split_nl s) = s.
Proof.
  induction s as [|c tl IH]; [reflexivity |]. cbn [split_nl].
  destruct (c =? NL)%N eqn:E.
  - apply N.eqb_eq in E as ->. cbn [join_nl].
    destruct (split_nl tl) eqn:E'; [now apply split_nl_nonempty in E' |].
    cbn [app]. now rewrite IH.
  - destruct (split_nl tl) as [|l ls] eqn:E'; [now apply split_nl_nonempty in E' |].
    rewrite <- IH. destruct ls; reflexivity.
Qed.

End AddNewlinesReport.

(** X6.  add_newlines_before_lists.py: [process_file] only ever adds
    empty lines.  The lines of the text it writes that are not empty
    are the non-empty lines of the text it read, in the same order; the
    number of added lines it prints is never negative; and when that
    number is zero the text is written back unchanged. *)
Theorem process_file_only_adds_empty_lines {U : Unicode} (content : str) :
  let r := AddNewlines.process_file content in
  AddNewlines.text_lines (split_nl (AddNewlines.written r))
  = AddNewlines.text_lines (split_nl content)
  /\ (0 <= AddNewlines.added_lines r)%Z
  /\ (AddNewlines.added_lines r = 0%Z -> AddNewlines.written r = content).
Proof.
  cbv zeta. unfold AddNewlines.process_file.
  cbn [AddNewlines.written AddNewlines.added_lines].
  rewrite split_add_newlines.
  destruct (go_length (split_nl content) None false) as [Hle Heq].
  split; [apply go_keeps_text | split; [lia |]].
  intros E. rewrite <- (join_split_nl content) at 2.
  rewrite <- (join_split_nl (AddNewlines.add_newlines_before_lists content)).
  rewrite split_add_newlines. f_equal. apply Heq. lia.
Qed.

(* ------------------------------------------------------------------ *)
(** ** add_newlines_before_lists.py: the three kinds of line *)

(** [rstrip] keeps a first character that is not white space. *)
Lemma rstrip_head (c : N) (tl : str) :
  isspace c = false -> exists t, rstrip (c :: tl) = c :: t.
Proof.
  intros Hc. exists (rev (dropWhile isspace (rev tl))). unfold rstrip.
  cbn [rev]. rewrite dropWhile_last by exact Hc. now rewrite rev_app_distr.
Qed.

Lemma strip_head (line : str) (c : N) (tl : str) :
  lstrip line = c :: tl -> exists t, strip line = c :: t.
Proof.
  intros E. unfold strip. rewrite E. apply rstrip_head.
  now apply dropWhile_head in E.
Qed.

(** A pattern anchored at the start whose first test is a character
    test matches only a text whose first character passes it. *)
Lemma re_match_first_chr (p : N -> bool) (K : re) (s : str) :
  re_match (Seq Bol (Seq (Chr p) K)) s <> None ->
  exists c tl, s = c :: tl /\ p c = true.
Proof.
  unfold re_match, match_at, start. rewrite run_Seq, run_Bol_start, flat_map_one, run_Seq.
  destruct s as [|c tl]; [rewrite run_Chr_nil; now intros [] |].
  rewrite run_Chr_cons. destruct (p c) eqn:E; [intros _; now exists c, tl | now intros []].
Qed.

Lemma re_match_first_plus (g : bool) (p : N -> bool) (K : re) (s : str) :
  re_match (Seq Bol (Seq (Plus g (Chr p)) K)) s <> None ->
  exists c tl, s = c :: tl /\ p c = true.
Proof.
  unfold re_match, match_at, start, Plus.
  rewrite run_Seq, run_Bol_start, flat_map_one, !run_Seq.
  destruct s as [|c tl]; [rewrite run_Chr_nil; now intros [] |].
  rewrite run_Chr_cons. destruct (p c) eqn:E; [intros _; now exists c, tl | now intros []].
Qed.

Section AddNewlinesLines.
Context {U : Unicode}.
Import AddNewlines.

Lemma list_item_head (line : str) :
  is_list_item line = true ->
  exists c tl, lstrip line = c :: tl
               /\ (one_of (py "-*+") c = true \/ is_digit c = true).
Proof.
  unfold is_list_item. intros H.
  destruct (re_match unordered (lstrip line)) eqn:E1.
  - destruct (re_match_first_chr (one_of (py "-*+")) (Chr isspace) (lstrip line))
      as (c & tl & E & Hc); [unfold unordered in E1; cbn [seq] in E1; congruence |].
    exists c, tl. auto.
  - destruct (re_match ordered (lstrip line)) eqn:E2; [|discriminate].
    destruct (re_match_first_plus true is_digit
                (Seq (Chr (one_of (py ".)"))) (Chr isspace)) (lstrip line))
      as (c & tl & E & Hc); [unfold ordered in E2; cbn [seq] in E2; congruence |].
    exists c, tl. auto.
Qed.

Lemma not_backtick (c : N) :
  one_of (py "-*+") c = true \/ is_digit c = true -> (chr "`" =? c)%N = false.
Proof.
  intros H. destruct (N.eqb_spec (chr "`") c) as [<- | _]; [|reflexivity].
  destruct H as [H | H]; vm_compute in H; discriminate.
Qed.

End AddNewlinesLines.

(** X7.  add_newlines_before_lists.py: the three tests the loop makes on
    a line exclude one another.  A list item is neither a blank line
    nor a code fence, and a blank line is not a code fence; so the
    order in which the loop asks does not matter, and the line the loop
    inserts (an empty one) is never taken for a list item. *)
Theorem line_kinds_are_exclusive {U : Unicode} (line : str) :
  AddNewlines.is_list_item line
  && (AddNewlines.is_blank_line line || AddNewlines.is_code_fence line) = false
  /\ AddNewlines.is_blank_line line && AddNewlines.is_code_fence line = false.
Proof.
  split.
  - destruct (AddNewlines.is_list_item line) eqn:H; [|reflexivity].
    apply list_item_head in H as (c & tl & E & Hc).
    apply strip_head in E as (t & E).
    unfold AddNewlines.is_blank_line, AddNewlines.is_code_fence. rewrite E.
    cbn [py list_ascii_of_string map startswith str_eqb andb orb].
    change (N_of_ascii "`") with (chr "`").
    now rewrite (not_backtick c Hc).
  - unfold AddNewlines.is_blank_line, AddNewlines.is_code_fence.
    destruct (str_eqb (strip line) []) eqn:E; [|reflexivity].
    apply str_eqb_eq in E. now rewrite E.
Qed.

(* ------------------------------------------------------------------ *)
(** ** add_python_snippets.py: where the pattern header is looked for *)

Section AddPythonSnippetsLookup.
Import AddPythonSnippets.

Lemma scan_back_spec (lines : list str) :
  forall count i,
    count <= i ->
    match scan_back lines i count with
    | Some h =>
        exists k, i - count < k <= i /\ nth k lines [] = h
                  /\ startswith (py "## CONTINUED:") h = true
                  /\ forall j, k < j <= i ->
                               startswith (py "## CONTINUED:") (nth j lines []) = false
    | None =>
        forall k, i - count < k <= i ->
                  startswith (py "## CONTINUED:") (nth k lines []) = false
    end.
Proof.
  induction count as [|count IH]; intros i Hi; cbn [scan_back]; [intros k Hk; lia |].
  destruct (startswith (py "## CONTINUED:") (nth i lines [])) eqn:E.
  - exists i. repeat split; [lia | lia | exact E | intros j Hj; lia].
  - specialize (IH (i - 1) ltac:(lia)).
    destruct (scan_back lines (i - 1) count) as [h|].
    + destruct IH as (k & Hk & Hn & Hs & Hj). exists k.
      repeat split; [lia | lia | exact Hn | exact Hs |].
      intros j Hj'. destruct (Nat.eq_dec j i) as [-> | Hne]; [exact E | apply Hj; lia].
    + intros k Hk. destruct (Nat.eq_dec k i) as [-> | Hne]; [exact E | apply IH; lia].
Qed.

End AddPythonSnippetsLookup.

(** X8.  add_python_snippets.py: [find_pattern_name_before_line] returns
    the nearest line before the section that starts with
    ["## CONTINUED:"], looking back over at most 999 lines and never at
    the first line of the file (index 0).  It returns [None] exactly
    when no line in that window starts so - also when the header lies
    further back or is the first line.  (Python raises IndexError for
    a [line_num] past the end of [lines]; the statement keeps to the
    line numbers it can read.) *)
Theorem find_pattern_name_window (lines : list str) (line_num : nat) :
  line_num <= length lines ->
  match AddPythonSnippets.find_pattern_name_before_line lines line_num with
  | Some h =>
      exists i, 1 <= i < line_num /\ line_num < i + 1000
                /\ nth i lines [] = h
                /\ startswith (py "## CONTINUED:") h = true
                /\ forall j, i < j < line_num ->
                             startswith (py "## CONTINUED:") (nth j lines []) = false
  | None =>
      forall i, 1 <= i < line_num -> line_num < i + 1000 ->
                startswith (py "## CONTINUED:") (nth i lines []) = false
  end.
Proof.
  intros _. unfold AddPythonSnippets.find_pattern_name_before_line.
  pose proof (scan_back_spec lines (line_num - 1 - Nat.max 0 (line_num - 1000))
                (line_num - 1) ltac:(lia)) as H.
  destruct (AddPythonSnippets.scan_back lines (line_num - 1)
              (line_num - 1 - Nat.max 0 (line_num - 1000))) as [h|].
  - destruct H as (k & Hk & Hn & Hs & Hj). exists k.
    repeat split; [lia | lia | lia | exact Hn | exact Hs |].
    intros j Hj'. apply Hj. lia.
  - intros i Hi Hw. apply H. lia.
Qed.

Lemma find_pattern_name_window_witness :
  exists i, 1 <= i < 3 /\ 3 < i + 1000
            /\ nth i AddPythonSnippets.one_missing []
               = py "## CONTINUED: Structural - Proxy Pattern" ++ [NL]
            /\ startswith (py "## CONTINUED:")
                 (py "## CONTINUED: Structural - Proxy Pattern" ++ [NL]) = true
            /\ forall j, i < j < 3 ->
                         startswith (py "## CONTINUED:")
                                    (nth j AddPythonSnippets.one_missing []) = false.
Proof.
  exact (find_pattern_name_window AddPythonSnippets.one_missing 3 ltac:(cbn; lia)).
Defined.

(* ------------------------------------------------------------------ *)
(** ** add_python_snippets.py: the file name made from a pattern header *)

(** [s.replace(c, new)] leaves no [c] when [new] has none. *)
Lemma replace_char_removes (c : N) (new : str) :
  ~ In c new -> forall s, ~ In c (replace [c] new s).
Proof.
  intros Hnew s. unfold replace.
  induction s as [|x s IH]; cbn [replace_go]; [intros [] |].
  cbn [startswith length Nat.sub]. rewrite andb_true_r.
  destruct (N.eqb_spec c x) as [-> | Hne].
  - intros H. apply in_app_or in H as [H | H]; [now apply Hnew | now apply IH].
  - intros [-> | H]; [now apply Hne | now apply IH].
Qed.

Lemma replace_keeps_out (c : N) (old new s : str) :
  ~ In c new -> ~ In c s -> ~ In c (replace old new s).
Proof. intros Hn Hs H. apply replace_chars in H as [H | H]; auto. Qed.

(** X9.  add_python_snippets.py: when [pattern_name_to_filename] returns
    a name, the name is not empty and holds none of the characters the
    function replaces or deletes: no space, slash, parenthesis, hyphen,
    ampersand or comma.  (So the test [if not pattern_name] of [main]
    only fires when the header has no dash to parse after.) *)
Theorem pattern_filename_is_clean {U : Unicode} (pattern_header name : str) :
  AddPythonSnippets.pattern_name_to_filename (Some pattern_header) = Some name ->
  name <> []
  /\ forall c, In c AddPythonSnippets.replaced_chars -> ~ In c name.
Proof.
  unfold AddPythonSnippets.pattern_name_to_filename.
  destruct pattern_header as [|x0 h0]; [discriminate |].
  destruct (re_search AddPythonSnippets.after_dash (x0 :: h0)) as [m|]; [|discriminate].
  set (f0 := lower (strip (group 1 m))).
  set (f1 := replace (py " / ") (py "_") f0).
  set (f2 := replace (py "/") (py "_") f1).
  set (f3 := replace (py " ") (py "_") f2).
  set (f4 := replace (py "(") [] f3).
  set (f5 := replace (py ")") [] f4).
  set (f6 := replace (py "-") (py "_") f5).
  set (f7 := replace (py "&") [] f6).
  set (f8 := replace (py ",") [] f7).
  assert (Hclean : forall c, In c AddPythonSnippets.replaced_chars -> ~ In c f8).
  { assert (H2 : ~ In (chr "/") f2)
      by (apply replace_char_removes; cbn; intuition discriminate).
    assert (H3 : ~ In (chr " ") f3 /\ ~ In (chr "/") f3)
      by (split; [apply replace_char_removes | apply replace_keeps_out; [|exact H2]];
          cbn; intuition discriminate).
    assert (H4 : ~ In (chr "(") f4 /\ ~ In (chr " ") f4 /\ ~ In (chr "/") f4)
      by (destruct H3; repeat split;
          [apply replace_char_removes | apply replace_keeps_out
          | apply replace_keeps_out]; auto; cbn; intuition discriminate).
    assert (H5 : ~ In (chr ")") f5 /\ ~ In (chr "(") f5 /\ ~ In (chr " ") f5
                 /\ ~ In (chr "/") f5)
      by (destruct H4 as (? & ? & ?); repeat split;
          [apply replace_char_removes | apply replace_keeps_out
          | apply replace_keeps_out | apply replace_keeps_out]; auto;
          cbn; intuition discriminate).
    assert (H6 : ~ In (chr "-") f6 /\ ~ In (chr ")") f6 /\ ~ In (chr "(") f6
                 /\ ~ In (chr " ") f6 /\ ~ In (chr "/") f6)
      by (destruct H5 as (? & ? & ? & ?); repeat split;
          [apply replace_char_removes | apply replace_keeps_out
          | apply replace_keeps_out | apply replace_keeps_out
          | apply replace_keeps_out]; auto; cbn; intuition discriminate).
    assert (H7 : ~ In (chr "&") f7 /\ ~ In (chr "-") f7 /\ ~ In (chr ")") f7
                 /\ ~ In (chr "(") f7 /\ ~ In (chr " ") f7 /\ ~ In (chr "/") f7)
      by (destruct H6 as (? & ? & ? & ? & ?); repeat split;
          [apply replace_char_removes | apply replace_keeps_out
          | apply replace_keeps_out | apply replace_keeps_out
          | apply replace_keeps_out | apply replace_keeps_out]; auto;
          cbn; intuition discriminate).
    destruct H7 as (? & ? & ? & ? & ? & ?).
    assert (Hcomma : ~ In (chr ",") f8)
      by (apply replace_char_removes; cbn; intuition discriminate).
    intros c Hc. cbn in Hc.
    repeat (destruct Hc as [<- | Hc];
            [first [exact Hcomma | apply replace_keeps_out; [intros [] | assumption]] |]).
    destruct Hc. }
  clearbody f8. clear f0 f1 f2 f3 f4 f5 f6 f7.
  set (f9 := if negb (endswith (py "_pattern") f8) then f8 ++ py "_pattern" else f8).
  assert (H9 : f9 <> [] /\ forall c, In c AddPythonSnippets.replaced_chars -> ~ In c f9).
  { subst f9. destruct (endswith (py "_pattern") f8) eqn:E; cbn [negb].
    - split; [now apply (endswith_nonempty (py "_pattern")) | exact Hclean].
    - split; [destruct f8; discriminate |].
      intros c Hc H. apply in_app_or in H as [H | H]; [now apply (Hclean c) |].
      cbn in Hc, H. intuition congruence. }
  clearbody f9. destruct H9 as [Hne H9].
  destruct (AddPythonSnippets.dict_get f9 AddPythonSnippets.mapping) as [v|] eqn:E;
    intros [= <-]; [|now split].
  apply dict_get_In in E. cbn in E.
  repeat (destruct E as [<- | E];
          [split; [discriminate | intros c Hc H; cbn in Hc, H; intuition congruence] |]).
  destruct E.
Qed.

Lemma pattern_filename_is_clean_witness :
  py "proxy_pattern" <> []
  /\ forall c, In c AddPythonSnippets.replaced_chars -> ~ In c (py "proxy_pattern").
Proof.
  exact (@pattern_filename_is_clean ascii_only
           (py "## CONTINUED: Structural - Proxy Pattern" ++ [NL])
           (py "proxy_pattern") eq_refl).
Defined.

(* ------------------------------------------------------------------ *)
(** ** add_python_snippets.py: a section that is filled *)

(** X10.  add_python_snippets.py: take an empty snippet section (its
    header is followed by a blank line) whose pattern header is found
    before it, parses to a file name, and whose diagram source exists.
    In the lines [main] writes, the blank line after the header has
    become the source in a [python] code fence - a newline, the opening
    fence, the code, the closing fence and a blank line; the number of
    lines is the same; and the report [main] prints has the line of
    this section, with the line number counted from one.  [main] fails
    to write only when looking up the source of an empty section
    raises. *)
Theorem snippet_source_is_inserted {U : Unicode}
    (base_dir : str) (files : str -> AddPythonSnippets.lookup) (master_lines : list str)
    (n : nat) (pattern_header name python_code : str) :
  In n (AddPythonSnippets.snippet_sections master_lines) ->
  n + 1 < length master_lines ->
  strip (nth (n + 1) master_lines []) = [] ->
  AddPythonSnippets.find_pattern_name_before_line master_lines n = Some pattern_header ->
  AddPythonSnippets.pattern_name_to_filename (Some pattern_header) = Some name ->
  files (AddPythonSnippets.joinpath (AddPythonSnippets.diagrams_dir base_dir)
                                    (name ++ py ".py"))
  = AddPythonSnippets.Found python_code ->
  match AddPythonSnippets.main base_dir files master_lines with
  | AddPythonSnippets.Finished v =>
      nth (n + 1) (AddPythonSnippets.lines v) []
      = [NL] ++ py "```python" ++ [NL] ++ python_code ++ py "```" ++ [NL; NL]
      /\ length (AddPythonSnippets.lines v) = length master_lines
      /\ In (py "  Line " ++ str_of_nat (n + 1) ++ py ": " ++ strip pattern_header
             ++ py " (" ++ name ++ py ".py, " ++ str_of_nat (length python_code)
             ++ py " chars)")
            (AddPythonSnippets.printed v)
  | AddPythonSnippets.Aborted exn _ =>
      exists m h name',
        In m (AddPythonSnippets.snippet_sections master_lines)
        /\ strip (nth (m + 1) master_lines []) = []
        /\ AddPythonSnippets.find_pattern_name_before_line master_lines m = Some h
        /\ AddPythonSnippets.pattern_name_to_filename (Some h) = Some name'
        /\ files (AddPythonSnippets.joinpath (AddPythonSnippets.diagrams_dir base_dir)
                                             (name' ++ py ".py"))
           = AddPythonSnippets.Fails exn
  end.
Proof.
  intros Hn Hlen Hblank Hfind Hname Hfile.
  pose proof (examine_filled (AddPythonSnippets.diagrams_dir base_dir) files
                master_lines n pattern_header name python_code
                Hlen Hblank Hfind Hname Hfile) as Hexamine.
  pose proof (main_outcome base_dir files master_lines) as Hmain.
  destruct (AddPythonSnippets.main base_dir files master_lines) as [v | exn v].
  - destruct Hmain as (Hlength & _ & Hout). specialize (Hout n Hn).
    rewrite Hexamine in Hout. destruct Hout as [Hline Hreport].
    split; [exact Hline |]. split; [exact Hlength | exact Hreport].
  - destruct Hmain as (m & Hm & E).
    pose proof (examine_lookup (AddPythonSnippets.diagrams_dir base_dir) files
                  master_lines m) as Hl.
    rewrite E in Hl. destruct Hl as (h & name' & _ & Hb & Hf & Hp & Hfile').
    exists m, h, name'. auto.
Qed.

Lemma snippet_source_is_inserted_witness :
  exists v,
    @AddPythonSnippets.main ascii_only (py "/repo")
      (fun _ => AddPythonSnippets.Found (py "draw()" ++ [NL])) AddPythonSnippets.one_missing
    = AddPythonSnippets.Finished v
    /\ nth 4 (AddPythonSnippets.lines v) []
       = [NL] ++ py "```python" ++ [NL] ++ (py "draw()" ++ [NL]) ++ py "```" ++ [NL; NL].
Proof.
  pose proof (@snippet_source_is_inserted ascii_only (py "/repo")
                (fun _ => AddPythonSnippets.Found (py "draw()" ++ [NL]))
                AddPythonSnippets.one_missing 3
                (py "## CONTINUED: Structural - Proxy Pattern" ++ [NL])
                (py "proxy_pattern") (py "draw()" ++ [NL])
                ltac:(vm_compute; tauto) ltac:(vm_compute; lia)
                eq_refl eq_refl eq_refl eq_refl) as H.
  destruct (@AddPythonSnippets.main ascii_only (py "/repo")
              (fun _ => AddPythonSnippets.Found (py "draw()" ++ [NL]))
              AddPythonSnippets.one_missing) as [v | exn v] eqn:E.
  - exists v. split; [reflexivity | apply H].
  - vm_compute in E. discriminate E.
Defined.

(** X11.  add_python_snippets.py: a snippet section that is not empty -
    the line after its header is not blank, or the header is the last
    line of the file - is passed over: [main] writes the line after
    the header as it was and as many lines as it read, whether or not
    a diagram source exists for the section.  [main] fails to write
    only when looking up the source of an empty section raises. *)
Theorem section_with_content_is_left_alone {U : Unicode}
    (base_dir : str) (files : str -> AddPythonSnippets.lookup) (master_lines : list str)
    (n : nat) :
  In n (AddPythonSnippets.snippet_sections master_lines) ->
  (n + 1 <? length master_lines)
  && str_eqb (strip (nth (n + 1) master_lines [])) [] = false ->
  match AddPythonSnippets.main base_dir files master_lines with
  | AddPythonSnippets.Finished v =>
      nth (n + 1) (AddPythonSnippets.lines v) [] = nth (n + 1) master_lines []
      /\ length (AddPythonSnippets.lines v) = length master_lines
  | AddPythonSnippets.Aborted exn _ =>
      exists m h name',
        In m (AddPythonSnippets.snippet_sections master_lines)
        /\ strip (nth (m + 1) master_lines []) = []
        /\ AddPythonSnippets.find_pattern_name_before_line master_lines m = Some h
        /\ AddPythonSnippets.pattern_name_to_filename (Some h) = Some name'
        /\ files (AddPythonSnippets.joinpath (AddPythonSnippets.diagrams_dir base_dir)
                                             (name' ++ py ".py"))
           = AddPythonSnippets.Fails exn
  end.
Proof.
  intros Hn Htest.
  pose proof (main_outcome base_dir files master_lines) as Hmain.
  destruct (AddPythonSnippets.main base_dir files master_lines) as [v | exn v].
  - destruct Hmain as (Hlength & _ & Hout). specialize (Hout n Hn).
    unfold AddPythonSnippets.examine in Hout. rewrite Htest in Hout.
    split; [exact Hout | exact Hlength].
  - destruct Hmain as (m & Hm & E).
    pose proof (examine_lookup (AddPythonSnippets.diagrams_dir base_dir) files
                  master_lines m) as Hl.
    rewrite E in Hl. destruct Hl as (h & name' & _ & Hb & Hf & Hp & Hfile').
    exists m, h, name'. auto.
Qed.

Lemma section_with_content_is_left_alone_witness :
  exists v,
    @AddPythonSnippets.main ascii_only (py "/repo")
      (fun _ => AddPythonSnippets.Found (py "draw()" ++ [NL]))
      AddPythonSnippets.one_with_content
    = AddPythonSnippets.Finished v
    /\ nth 3 (AddPythonSnippets.lines v) []
       = py "![Proxy](docs/images/proxy_pattern.png)" ++ [NL].
Proof.
  pose proof (@section_with_content_is_left_alone ascii_only (py "/repo")
                (fun _ => AddPythonSnippets.Found (py "draw()" ++ [NL]))
                AddPythonSnippets.one_with_content 2
                ltac:(vm_compute; tauto) eq_refl) as H.
  destruct (@AddPythonSnippets.main ascii_only (py "/repo")
              (fun _ => AddPythonSnippets.Found (py "draw()" ++ [NL]))
              AddPythonSnippets.one_with_content) as [v | exn v] eqn:E.
  - exists v. split; [reflexivity | apply H].
  - vm_compute in E. discriminate E.
Defined.

(* ------------------------------------------------------------------ *)
(** ** add_python_snippets.py: a lookup that raises *)

(** X28.  add_python_snippets.py: [main] catches no exception.  When
    looking up the diagram source of an empty snippet section raises
    - [exists()] on a name too long for the system, [open()] on a
    directory or on a file without permission - the run is stopped by
    an exception of such a lookup and nothing is written, whatever the
    other sections are. *)
Theorem lookup_error_stops_the_run {U : Unicode}
    (base_dir : str) (files : str -> AddPythonSnippets.lookup) (master_lines : list str)
    (n : nat) (pattern_header name exn : str) :
  In n (AddPythonSnippets.snippet_sections master_lines) ->
  n + 1 < length master_lines ->
  strip (nth (n + 1) master_lines []) = [] ->
  AddPythonSnippets.find_pattern_name_before_line master_lines n = Some pattern_header ->
  AddPythonSnippets.pattern_name_to_filename (Some pattern_header) = Some name ->
  files (AddPythonSnippets.joinpath (AddPythonSnippets.diagrams_dir base_dir)
                                    (name ++ py ".py"))
  = AddPythonSnippets.Fails exn ->
  exists exn' v m h name',
    AddPythonSnippets.main base_dir files master_lines = AddPythonSnippets.Aborted exn' v
    /\ In m (AddPythonSnippets.snippet_sections master_lines)
    /\ AddPythonSnippets.find_pattern_name_before_line master_lines m = Some h
    /\ AddPythonSnippets.pattern_name_to_filename (Some h) = Some name'
    /\ files (AddPythonSnippets.joinpath (AddPythonSnippets.diagrams_dir base_dir)
                                         (name' ++ py ".py"))
       = AddPythonSnippets.Fails exn'.
Proof.
  intros Hn Hlen Hblank Hfind Hname Hfile.
  assert (Hexamine : AddPythonSnippets.examine (AddPythonSnippets.diagrams_dir base_dir)
                       files master_lines n
                     = AddPythonSnippets.Raises exn).
  { unfold AddPythonSnippets.examine.
    destruct (Nat.ltb_spec (n + 1) (length master_lines)) as [_ | H]; [|lia].
    rewrite Hblank, Hfind. cbn [str_eqb andb].
    destruct pattern_header as [|c h];
      [unfold AddPythonSnippets.pattern_name_to_filename in Hname; discriminate |].
    rewrite Hname.
    destruct name as [|d name];
      [now destruct (pattern_filename_nonempty (c :: h) [] Hname) |].
    now rewrite Hfile. }
  pose proof (main_outcome base_dir files master_lines) as Hmain.
  destruct (AddPythonSnippets.main base_dir files master_lines) as [v | exn' v].
  - destruct Hmain as (_ & _ & Hout). specialize (Hout n Hn).
    rewrite Hexamine in Hout. destruct Hout.
  - destruct Hmain as (m & Hm & E).
    pose proof (examine_lookup (AddPythonSnippets.diagrams_dir base_dir) files
                  master_lines m) as Hl.
    rewrite E in Hl. destruct Hl as (h & name' & _ & Hb & Hf & Hp & Hfile').
    exists exn', v, m, h, name'. auto.
Qed.

Lemma lookup_error_stops_the_run_witness :
  exists exn' v m h name',
    @AddPythonSnippets.main ascii_only (py "/repo")
      (fun _ => AddPythonSnippets.Fails (py "OSError")) AddPythonSnippets.one_missing
    = AddPythonSnippets.Aborted exn' v
    /\ In m (AddPythonSnippets.snippet_sections AddPythonSnippets.one_missing)
    /\ @AddPythonSnippets.find_pattern_name_before_line AddPythonSnippets.one_missing m
       = Some h
    /\ @AddPythonSnippets.pattern_name_to_filename ascii_only (Some h) = Some name'
    /\ AddPythonSnippets.Fails (py "OSError") = AddPythonSnippets.Fails exn'.
Proof.
  exact (@lookup_error_stops_the_run ascii_only (py "/repo")
           (fun _ => AddPythonSnippets.Fails (py "OSError"))
           AddPythonSnippets.one_missing 3
           (py "## CONTINUED: Structural - Proxy Pattern" ++ [NL])
           (py "proxy_pattern") (py "OSError")
           ltac:(vm_compute; tauto) ltac:(vm_compute; lia)
           eq_refl eq_refl eq_refl eq_refl).
Defined.



(* ------------------------------------------------------------------ *)
(** ** replace_code_with_png.py: the name read from a code block *)

(** A match of a pattern of the form [prefix(class+)suffix]: group 1
    is a non-empty run of the class, and the matched text is the
    prefix, the group and the suffix. *)
Lemma run_path (a b : str) (p : N -> bool) (pre s : str) (e : state) :
  In e (run (seq [str_lit a; Group 1 (Plus true (Chr p)); str_lit b])
            (mkState pre s [])) ->
  group 1 e <> [] /\ forallb p (group 1 e) = true
  /\ exists t, s = a ++ group 1 e ++ b ++ t.
Proof.
  rewrite run_seq_cons, run_str_lit.
  destruct (startswith a s) eqn:Ha; [|intros []].
  rewrite flat_map_one, run_seq_group. cbn [seq]. intros H.
  apply in_flat_map in H as (x & Hx & He).
  apply plus_chr_class in Hx as (m & E & Hm & Hp). cbn [rest] in E.
  destruct x as [px rx cx]. cbn [rest] in E.
  unfold set_cap, consumed in He. cbn [rest prev caps] in He.
  rewrite E, firstn_consumed, run_str_lit in He.
  destruct (startswith b rx) eqn:Hb; [|destruct He].
  destruct He as [<- | []]. unfold group. cbn [caps lookup Nat.eqb].
  repeat split; [exact Hm | exact Hp |].
  exists (skipn (length b) rx).
  rewrite (startswith_split a s Ha), E at 1. now rewrite <- (startswith_split b rx Hb).
Qed.

Lemma search_from_found (r : re) :
  forall s pre e,
    search_from r pre s = Some e ->
    exists a b, s = a ++ b /\ match_at r (rev a ++ pre) b = Some e.
Proof.
  induction s as [|c tl IH]; intros pre e; cbn [search_from].
  - destruct (match_at r pre []) eqn:E; [intros [= <-]; now exists [], [] | discriminate].
  - destruct (match_at r pre (c :: tl)) eqn:E;
      [intros [= <-]; now exists [], (c :: tl) |].
    intros H. apply IH in H as (a & b & -> & H). exists (c :: a), b.
    cbn [rev app]. now rewrite <- app_assoc.
Qed.

Lemma search_path (a b : str) (p : N -> bool) (s : str) (e : state) :
  re_search (seq [str_lit a; Group 1 (Plus true (Chr p)); str_lit b]) s = Some e ->
  group 1 e <> [] /\ forallb p (group 1 e) = true
  /\ contains (a ++ group 1 e ++ b) s = true.
Proof.
  intros H. apply search_from_found in H as (x & y & -> & H).
  apply hd_error_In, run_path in H as (Hm & Hp & t & ->).
  repeat split; [exact Hm | exact Hp |].
  replace (a ++ group 1 e ++ b ++ t) with ((a ++ group 1 e ++ b) ++ t)
    by now rewrite <- !app_assoc.
  apply contains_middle.
Qed.

(** X12.  replace_code_with_png.py: the name
    [extract_pattern_name_from_code] returns is read from the code
    block.  It is a non-empty run of word characters, and the block
    contains [docs/images/<name>.png] or, when it names no such image,
    [diagrams/<name>.py]. *)
Theorem extracted_name_is_in_code {U : Unicode} (code_block name : str) :
  ReplaceCodeWithPng.extract_pattern_name_from_code code_block = Some name ->
  name <> [] /\ forallb is_word name = true
  /\ (contains (py "docs/images/" ++ name ++ py ".png") code_block = true
      \/ (re_search ReplaceCodeWithPng.png_path code_block = None
          /\ contains (py "diagrams/" ++ name ++ py ".py") code_block = true)).
Proof.
  unfold ReplaceCodeWithPng.extract_pattern_name_from_code.
  destruct (re_search ReplaceCodeWithPng.png_path code_block) as [m|] eqn:E1.
  - intros [= <-]. apply search_path in E1 as (H1 & H2 & H3). auto.
  - destruct (re_search ReplaceCodeWithPng.py_path code_block) as [m|] eqn:E2;
      [|discriminate].
    intros [= <-]. apply search_path in E2 as (H1 & H2 & H3). auto.
Qed.

Lemma extracted_name_is_in_code_witness :
  py "mvc_pattern" <> [] /\ forallb (@is_word ascii_only) (py "mvc_pattern") = true.
Proof.
  destruct (@extracted_name_is_in_code ascii_only
              (py "# ./build/diagrams/mvc_pattern.py") (py "mvc_pattern") eq_refl)
    as (H1 & H2 & _).
  exact (conj H1 H2).
Defined.

(* ------------------------------------------------------------------ *)
(** ** replace_code_with_png.py: a text without sections *)

(** X13.  replace_code_with_png.py: a text in which ["## "] does not
    occur has no diagram section.  [main] writes it back unchanged and
    counts no section replaced. *)
Theorem text_without_sections_is_unchanged {U : Unicode} (content : str) :
  contains (py "## ") content = false ->
  ReplaceCodeWithPng.written (ReplaceCodeWithPng.main content) = content
  /\ ReplaceCodeWithPng.sections_replaced (ReplaceCodeWithPng.main content) = 0.
Proof.
  intros H.
  assert (Hno : forall a b, content = a ++ b ->
                            match_at ReplaceCodeWithPng.section (rev a ++ []) b = None).
  { intros a b ->. unfold match_at, start, ReplaceCodeWithPng.section.
    rewrite run_seq_group, run_seq_lit_fails by now apply (contains_suffix _ a).
    reflexivity. }
  unfold ReplaceCodeWithPng.main.
  cbn [ReplaceCodeWithPng.written ReplaceCodeWithPng.sections_replaced].
  split.
  - unfold ReplaceCodeWithPng.modified_content, re_sub. now apply sub_go_no_match.
  - unfold count_matches. now apply count_go_no_match.
Qed.

Lemma text_without_sections_is_unchanged_witness :
  ReplaceCodeWithPng.written
    (@ReplaceCodeWithPng.main ascii_only (py "# Title" ++ [NL] ++ py "Text."))
  = py "# Title" ++ [NL] ++ py "Text.".
Proof.
  exact (proj1 (@text_without_sections_is_unchanged ascii_only
                  (py "# Title" ++ [NL] ++ py "Text.") eq_refl)).
Defined.

(* ------------------------------------------------------------------ *)
(** ** convert_to_org.py: front matter that is not closed *)

Section ConvertToOrgFrontmatter.
Context {U : Unicode}.
Import ConvertToOrg.

(** Inside the front matter a line other than [---] adds nothing to
    the output. *)
Lemma loop_in_frontmatter :
  forall todo v,
    in_yaml_frontmatter v = true ->
    forallb (fun l => negb (str_eqb (strip l) (py "---"))) todo = true ->
    org_lines (loop false todo v) = org_lines v.
Proof.
  induction todo as [|line todo IH]; intros v Hy Hno; [reflexivity |].
  cbn [forallb] in Hno. apply andb_prop in Hno as [Hl Hno].
  apply negb_true_iff in Hl. cbn [loop andb]. rewrite Hy, Hl.
  destruct (re_match yaml_property line); now rewrite IH.
Qed.

End ConvertToOrgFrontmatter.

(** X14.  convert_to_org.py: a document whose first line is [---] opens
    a YAML front matter; when no later line closes it with [---],
    every line is taken for front matter and [convert_md_to_org]
    returns the empty string - also the properties it has read are not
    written. *)
Theorem unclosed_frontmatter_gives_empty_output {U : Unicode}
    (md_content first : str) (others : list str) :
  split_nl md_content = first :: others ->
  str_eqb (strip first) (py "---") = true ->
  forallb (fun l => negb (str_eqb (strip l) (py "---"))) others = true ->
  ConvertToOrg.convert_md_to_org md_content = [].
Proof.
  intros Hsplit Hfirst Hothers. unfold ConvertToOrg.convert_md_to_org.
  rewrite Hsplit. cbn [ConvertToOrg.loop andb]. rewrite Hfirst.
  now rewrite loop_in_frontmatter.
Qed.

Lemma unclosed_frontmatter_gives_empty_output_witness :
  @ConvertToOrg.convert_md_to_org ascii_only
    (py "---" ++ [NL] ++ py "title: Notes" ++ [NL] ++ py "# Heading")
  = [].
Proof.
  exact (@unclosed_frontmatter_gives_empty_output ascii_only
           (py "---" ++ [NL] ++ py "title: Notes" ++ [NL] ++ py "# Heading")
           (py "---") [py "title: Notes"; py "# Heading"]
           eq_refl eq_refl eq_refl).
Defined.

(* ------------------------------------------------------------------ *)
(** ** convert_to_org.py: code blocks *)

Lemma strip_first (c : N) (s : str) :
  isspace c = false -> exists t, strip (c :: s) = c :: t.
Proof.
  intros Hc. apply (strip_head (c :: s) c s). unfold lstrip. cbn [dropWhile].
  now rewrite Hc.
Qed.

Section ConvertToOrgCode.
Context {U : Unicode}.
Import ConvertToOrg.

(** Inside a code block the lines that are not fences are appended as
    they are. *)
Lemma loop_in_code_block (code_language : str) (yaml : list (str * str)) :
  forall body rest out,
    forallb (fun l => negb (startswith (py "```") l)) body = true ->
    loop false (body ++ rest) (mkVars out true false code_language yaml)
    = loop false rest (mkVars (out ++ body) true false code_language yaml).
Proof.
  induction body as [|line body IH]; intros rest out Hbody.
  - cbn [app]. now rewrite app_nil_r.
  - cbn [forallb] in Hbody. apply andb_prop in Hbody as [Hl Hbody].
    apply negb_true_iff in Hl.
    cbn [app loop andb in_yaml_frontmatter in_code_block]. rewrite Hl.
    unfold emit. cbn [org_lines in_code_block in_yaml_frontmatter
                      ConvertToOrg.code_language yaml_properties].
    rewrite IH by exact Hbody. now rewrite <- app_assoc.
Qed.

End ConvertToOrgCode.

(** X15.  convert_to_org.py: a fenced code block met outside a code
    block and outside the front matter - an opening line of three
    backticks and a language, lines that do not start with three
    backticks, a line that does.  The loop writes [#+BEGIN_SRC] with
    the language (or [#+BEGIN_EXAMPLE] when there is none), the lines
    of the block exactly as they are - no heading, list or inline
    conversion is applied to them -, and the matching [#+END_] line;
    it goes on after the block outside code, with the rest of the
    document. *)
Theorem code_block_is_copied_verbatim {U : Unicode}
    (first : bool) (out : list str) (old_language : str) (yaml : list (str * str))
    (language : str) (body : list str) (closing : str) (rest : list str) :
  startswith (py "```") closing = true ->
  forallb (fun l => negb (startswith (py "```") l)) body = true ->
  ConvertToOrg.loop first ((py "```" ++ language) :: body ++ closing :: rest)
    (ConvertToOrg.mkVars out false false old_language yaml)
  = ConvertToOrg.loop false rest
      (ConvertToOrg.mkVars
         (out
          ++ [if negb (str_eqb (strip language) [])
              then py "#+BEGIN_SRC " ++ strip language else py "#+BEGIN_EXAMPLE"]
          ++ body
          ++ [if negb (str_eqb (strip language) [])
              then py "#+END_SRC" else py "#+END_EXAMPLE"])
         false false [] yaml).
Proof.
  intros Hclose Hbody.
  destruct (strip_first (chr "`") (py "``" ++ language) eq_refl) as (t & Ht).
  change (ConvertToOrg.loop first ((chr "`" :: py "``" ++ language) :: body ++ closing :: rest)
            (ConvertToOrg.mkVars out false false old_language yaml) = 
          ConvertToOrg.loop false rest
      (ConvertToOrg.mkVars
         (out
          ++ [if negb (str_eqb (strip language) [])
              then py "#+BEGIN_SRC " ++ strip language else py "#+BEGIN_EXAMPLE"]
          ++ body
          ++ [if negb (str_eqb (strip language) [])
              then py "#+END_SRC" else py "#+END_EXAMPLE"])
         false false [] yaml)).
  cbn [ConvertToOrg.loop]. rewrite Ht.
  replace (str_eqb (chr "`" :: t) (py "---")) with false by reflexivity.
  rewrite andb_false_r.
  cbn [ConvertToOrg.in_yaml_frontmatter ConvertToOrg.in_code_block negb
       ConvertToOrg.org_lines ConvertToOrg.yaml_properties].
  replace (startswith (py "```") (chr "`" :: py "``" ++ language)) with true by reflexivity.
  replace (slice_from 3 (chr "`" :: py "``" ++ language)) with language by reflexivity.
  rewrite loop_in_code_block by exact Hbody.
  cbn [ConvertToOrg.loop andb ConvertToOrg.in_yaml_frontmatter
       ConvertToOrg.in_code_block negb ConvertToOrg.org_lines
       ConvertToOrg.yaml_properties ConvertToOrg.code_language].
  rewrite Hclose. unfold ConvertToOrg.is_truthy. now rewrite <- !app_assoc.
Qed.

Lemma code_block_is_copied_verbatim_witness :
  @ConvertToOrg.loop ascii_only true
    ((py "```" ++ py "js") :: [py "# not a heading"; py "**x**"] ++ py "```" :: [])
    (ConvertToOrg.mkVars [] false false [] [])
  = @ConvertToOrg.loop ascii_only false []
      (ConvertToOrg.mkVars
         ([] ++ [if negb (str_eqb (strip (py "js")) [])
                 then py "#+BEGIN_SRC " ++ strip (py "js") else py "#+BEGIN_EXAMPLE"]
          ++ [py "# not a heading"; py "**x**"]
          ++ [if negb (str_eqb (strip (py "js")) [])
              then py "#+END_SRC" else py "#+END_EXAMPLE"])
         false false [] []).
Proof.
  exact (@code_block_is_copied_verbatim ascii_only true [] [] [] (py "js")
           [py "# not a heading"; py "**x**"] (py "```") [] eq_refl eq_refl).
Defined.

(* ------------------------------------------------------------------ *)
(** ** convert_to_org.py: headings *)

(** [c{0,m}] on a run of [c], when what follows the pattern cannot
    start with [c]: the whole run is taken. *)
Lemma flat_map_upto_run (c : N) (K : state -> list state) :
  (forall pre tl cs, K (mkState pre (c :: tl) cs) = []) ->
  forall m j t pre cs,
    j <= m -> hd_error t <> Some c ->
    flat_map K (run (upto m (Chr (lit c))) (mkState pre (repeat c j ++ t) cs))
    = K (mkState (repeat c j ++ pre) t cs).
Proof.
  intros HK. induction m as [|m IH]; intros j t pre cs Hj Ht.
  - replace j with 0 by lia. cbn [upto repeat app]. now rewrite run_Eps, flat_map_one.
  - cbn [upto]. unfold Opt. rewrite run_Alt, run_Seq, run_Eps, flat_map_app, flat_map_one.
    destruct j as [|j].
    + cbn [repeat app]. destruct t as [|x t].
      * now rewrite run_Chr_nil.
      * rewrite run_Chr_cons. unfold lit. destruct (N.eqb_spec x c) as [-> | _];
          [now destruct Ht | reflexivity].
    + cbn [repeat app]. rewrite run_Chr_cons.
      replace (lit c c) with true by (unfold lit; symmetry; apply N.eqb_refl).
      rewrite flat_map_one, IH, HK, app_nil_r by (assumption || lia).
      now rewrite repeat_snoc_app.
Qed.

Lemma dropWhile_all (p : N -> bool) (c : N) (t : str) :
  p c = false -> forall a, forallb p a = true -> dropWhile p (a ++ c :: t) = c :: t.
Proof.
  intros Hc. induction a as [|x a IH]; cbn [forallb app dropWhile]; [now rewrite Hc |].
  intros H. apply andb_prop in H as [-> H]. now apply IH.
Qed.

Lemma dropWhile_nil (p : N -> bool) (a : str) :
  forallb p a = true -> dropWhile p a = [].
Proof.
  induction a as [|x a IH]; cbn [forallb dropWhile]; [reflexivity |].
  intros H. apply andb_prop in H as [-> H]. now apply IH.
Qed.

Section ConvertToOrgHeading.
Context {U : Unicode}.
Import ConvertToOrg.

(** The match of the heading pattern on a heading line: group 1 is the
    run of [#], group 2 the title. *)
Lemma heading_org_match (j : nat) (w : N) (ws : str) (c : N) (title : str) :
  j <= 5 ->
  isspace w = true -> forallb isspace ws = true ->
  isspace c = false -> forallb dot (c :: title) = true ->
  exists e,
    re_match heading (repeat (chr "#") (S j) ++ (w :: ws) ++ c :: title) = Some e
    /\ group 1 e = repeat (chr "#") (S j) /\ group 2 e = c :: title.
Proof.
  intros Hj Hw Hws Hc Htitle.
  unfold re_match, match_at, start, heading.
  rewrite run_seq_cons, run_Bol_start, flat_map_one, run_seq_group.
  set (line := repeat (chr "#") (S j) ++ (w :: ws) ++ c :: title).
  set (K := fun x => run (seq [Plus true (Chr isspace); Group 2 (Plus true (Chr dot)); Eol])
                         (set_cap 1 (mkState [] line []) x)).
  assert (HK : forall pre tl cs, K (mkState pre (chr "#" :: tl) cs) = []).
  { intros pre tl cs. unfold K, set_cap. cbn [prev rest caps].
    rewrite run_seq_cons. unfold Plus. now rewrite run_Seq, run_Chr_cons. }
  assert (E : flat_map K (run (rep 1 5 (Chr (lit (chr "#")))) (mkState [] line []))
              = K (mkState (repeat (chr "#") (S j) ++ []) ((w :: ws) ++ c :: title) [])).
  { cbn [rep]. rewrite run_Seq. unfold line. cbn [repeat app].
    rewrite run_Chr_cons.
    replace (lit (chr "#") (chr "#")) with true by reflexivity.
    rewrite flat_map_one.
    rewrite (flat_map_upto_run (chr "#") K HK 5 j) by
      (try lia; cbn [hd_error]; intros [= ->]; discriminate).
    now rewrite repeat_snoc_app. }
  fold K. rewrite E. unfold K, line. rewrite set_cap_app.
  rewrite run_seq_cons. cbn [app].
  change (Plus true (Chr isspace)) with (Seq (Chr isspace) (Star true (Chr isspace))).
  rewrite run_Seq, run_Chr_cons, Hw, flat_map_one, run_star_chr.
  match goal with
  | |- context [star_chr ?p ?pre ?s ?cs] =>
      destruct (star_chr_longest p cs s pre) as (pre1 & l1 & ->)
  end.
  rewrite (dropWhile_all isspace c title Hc ws Hws).
  cbn [flat_map]. rewrite run_seq_group. cbn [seq]. unfold Plus.
  rewrite run_Seq, run_Chr_cons.
  cbn [forallb] in Htitle. apply andb_prop in Htitle as [Hd Htitle]. rewrite Hd.
  rewrite flat_map_one, run_star_chr.
  match goal with
  | |- context [star_chr ?p ?pre ?s ?cs] =>
      destruct (star_chr_longest p cs s pre) as (pre2 & l2 & ->)
  end.
  rewrite (dropWhile_nil dot title Htitle). cbn [flat_map].
  rewrite set_cap_all. cbn [run rest app hd_error].
  eexists. split; [reflexivity |]. split; reflexivity.
Qed.

Lemma match_at_behind_chr (q p : N -> bool) (rs : list re) (pre s : str) :
  match s with c :: _ => p c = false | [] => True end ->
  match_at (seq (NotBehind q :: Chr p :: rs)) pre s = None.
Proof.
  intros H. unfold match_at, start. rewrite run_seq_cons.
  assert (E : run (seq (Chr p :: rs)) (mkState pre s []) = [])
    by (rewrite run_seq_cons; destruct s as [|c tl];
        [now rewrite run_Chr_nil | now rewrite run_Chr_cons, H]).
  cbn [run prev]. destruct pre as [|x pre]; [|destruct (q x)]; cbn [flat_map];
    rewrite ?E; reflexivity.
Qed.

Lemma plain_suffix (text a b : str) :
  forallb (fun c => negb (existsb (N.eqb c) markup_chars)) text = true ->
  text = a ++ b ->
  match b with
  | c :: _ => forall x, In x markup_chars -> lit x c = false
  | [] => True
  end.
Proof.
  intros H ->. rewrite forallb_app in H. apply andb_prop in H as [_ H].
  destruct b as [|c b]; [trivial |]. cbn [forallb] in H.
  apply andb_prop in H as [H _]. apply negb_true_iff in H.
  intros x Hx. unfold lit. destruct (N.eqb_spec c x) as [-> | _]; [|reflexivity].
  rewrite <- H. symmetry. apply existsb_exists. exists x. split; [exact Hx | apply N.eqb_refl].
Qed.

(** A text without markup characters has nothing to convert. *)
Lemma convert_inline_formatting_plain (text : str) :
  forallb (fun c => negb (existsb (N.eqb c) markup_chars)) text = true ->
  convert_inline_formatting text = text.
Proof.
  intros H. unfold convert_inline_formatting, re_sub.
  assert (Hat : forall x, In x markup_chars ->
                forall a b, text = a ++ b ->
                  match b with c :: _ => lit x c = false | [] => True end).
  { intros x Hx a b E. pose proof (plain_suffix text a b H E) as P.
    destruct b; [trivial | now apply P]. }
  rewrite (sub_go_no_match link) by
    (intros a b E; apply (match_at_first_chr (lit (chr "["))), (Hat (chr "[") ltac:(cbn; tauto) a b E)).
  rewrite (sub_go_no_match (doubled (chr "*"))) by
    (intros a b E; apply (match_at_first_chr (lit (chr "*"))), (Hat (chr "*") ltac:(cbn; tauto) a b E)).
  rewrite (sub_go_no_match (doubled (chr "_"))) by
    (intros a b E; apply (match_at_first_chr (lit (chr "_"))), (Hat (chr "_") ltac:(cbn; tauto) a b E)).
  rewrite (sub_go_no_match (single (chr "*"))) by
    (intros a b E; apply (match_at_behind_chr _ (lit (chr "*"))), (Hat (chr "*") ltac:(cbn; tauto) a b E)).
  rewrite (sub_go_no_match (single (chr "_"))) by
    (intros a b E; apply (match_at_behind_chr _ (lit (chr "_"))), (Hat (chr "_") ltac:(cbn; tauto) a b E)).
  rewrite (sub_go_no_match inline_code) by
    (intros a b E; apply (match_at_first_chr (lit (chr "`"))), (Hat (chr "`") ltac:(cbn; tauto) a b E)).
  apply (sub_go_no_match (doubled (chr "~"))).
  intros a b E; apply (match_at_first_chr (lit (chr "~"))), (Hat (chr "~") ltac:(cbn; tauto) a b E).
Qed.

End ConvertToOrgHeading.

(** X16.  convert_to_org.py: a heading line met outside a code block
    and outside the front matter - one to six [#], white space, and a
    title that starts with a character other than white space and has
    no markup character ([[], [*], [_], a backtick, [~]).  The loop
    writes as many [*] as there were [#], one space whatever the white
    space was, and the title unchanged. *)
Theorem plain_heading_becomes_org_heading {U : Unicode}
    (first : bool) (v : ConvertToOrg.vars)
    (level : nat) (space title : str) (rest : list str) :
  ConvertToOrg.in_code_block v = false ->
  ConvertToOrg.in_yaml_frontmatter v = false ->
  1 <= level <= 6 ->
  space <> [] -> forallb isspace space = true ->
  forallb dot title = true ->
  forallb (fun c => negb (existsb (N.eqb c) ConvertToOrg.markup_chars)) title = true ->
  negb (match title with c :: _ => isspace c | [] => true end) = true ->
  ConvertToOrg.loop first ((repeat (chr "#") level ++ space ++ title) :: rest) v
  = ConvertToOrg.loop false rest
      (ConvertToOrg.emit [repeat (chr "*") level ++ py " " ++ title] v).
Proof.
  intros Hcode Hyaml Hlevel Hspace Hws Hdot Hplain Hfirst.
  destruct level as [|j]; [lia |].
  destruct space as [|w ws]; [now destruct Hspace |].
  destruct title as [|c title]; [discriminate |].
  apply negb_true_iff in Hfirst.
  cbn [forallb] in Hws. apply andb_prop in Hws as [Hw Hws].
  destruct (heading_org_match j w ws c title ltac:(lia) Hw Hws Hfirst Hdot)
    as (e & He & H1 & H2).
  destruct (strip_first (chr "#") (repeat (chr "#") j ++ (w :: ws) ++ c :: title) eq_refl)
    as (t & Ht).
  cbn [ConvertToOrg.loop]. cbn [repeat app] in Ht |- *. rewrite Ht.
  replace (str_eqb (chr "#" :: t) (py "---")) with false by reflexivity.
  rewrite andb_false_r, Hyaml, Hcode.
  replace (startswith (py "```") (chr "#" :: repeat (chr "#") j ++ w :: ws ++ c :: title))
    with false by reflexivity.
  cbn [repeat app] in He. rewrite He, H1, H2.
  rewrite convert_inline_formatting_plain by exact Hplain.
  now rewrite repeat_length.
Qed.

Lemma plain_heading_becomes_org_heading_witness :
  @ConvertToOrg.loop ascii_only true
    [repeat (chr "#") 2 ++ py " " ++ py "Data flow"]
    (ConvertToOrg.mkVars [] false false [] [])
  = @ConvertToOrg.loop ascii_only false []
      (ConvertToOrg.emit [repeat (chr "*") 2 ++ py " " ++ py "Data flow"]
                         (ConvertToOrg.mkVars [] false false [] [])).
Proof.
  exact (@plain_heading_becomes_org_heading ascii_only true
           (ConvertToOrg.mkVars [] false false [] []) 2 (py " ") (py "Data flow") []
           eq_refl eq_refl ltac:(lia) ltac:(discriminate) eq_refl eq_refl eq_refl eq_refl).
Defined.

(* ------------------------------------------------------------------ *)
(** ** convert_to_org.py: inline code *)

Lemma sub_go_skip_over (r : re) (repl : state -> str) :
  forall m pre b,
    sub_go r repl (length m) pre (m ++ b) = sub_go r repl 0 (rev m ++ pre) b.
Proof.
  induction m as [|c m IH]; intros pre b; [reflexivity |].
  cbn [length app sub_go rev]. rewrite IH. now rewrite <- app_assoc.
Qed.

(** [re.sub] on a text with one match: the text before the match has
    none, the match [m] is followed by [b], and [b] has none. *)
Lemma sub_go_one_match (r : re) (repl : state -> str) (m b w : str) :
  1 <= min_len r ->
  m <> [] ->
  (forall p, exists e, match_at r p (m ++ b) = Some e /\ rest e = b /\ repl e = w) ->
  (forall p b1 b2, b = b1 ++ b2 -> match_at r p b2 = None) ->
  forall a pre,
    (forall p a1 a2, a = a1 ++ a2 -> a2 <> [] -> match_at r p (a2 ++ m ++ b) = None) ->
    sub_go r repl 0 pre (a ++ m ++ b) = a ++ w ++ b.
Proof.
  intros Hr Hm Hmatch Hb. induction a as [|c a IH]; intros pre Ha.
  - rewrite sub_go_nonempty by exact Hr. cbn [app].
    destruct (Hmatch pre) as (e & E & Hrest & Hrepl).
    destruct m as [|x m']; [now destruct Hm |]. cbn [app] in *.
    rewrite E, Hrepl. f_equal. f_equal.
    replace (consumed (start pre (x :: m' ++ b)) e - 1) with (length m').
    + rewrite sub_go_skip_over. apply sub_go_no_match.
      intros b1 b2 E'. now apply (Hb _ b1 b2).
    + unfold consumed, start. cbn [rest length]. rewrite Hrest, length_app. lia.
  - cbn [app]. rewrite sub_go_nonempty by exact Hr.
    pose proof (Ha pre [] (c :: a) eq_refl ltac:(discriminate)) as E0.
    cbn [app] in E0. rewrite E0.
    f_equal. apply IH. intros p a1 a2 E Ha2. now apply (Ha p (c :: a1) a2); [rewrite E |].
Qed.

Lemma without_chars_suffix (cs text a b : str) :
  forallb (fun c => negb (existsb (N.eqb c) cs)) text = true ->
  text = a ++ b ->
  forall x, In x cs -> match b with c :: _ => lit x c = false | [] => True end.
Proof.
  intros H -> x Hx. rewrite forallb_app in H. apply andb_prop in H as [_ H].
  destruct b as [|c b]; [trivial |]. cbn [forallb] in H.
  apply andb_prop in H as [H _]. apply negb_true_iff in H.
  unfold lit. destruct (N.eqb_spec c x) as [-> | _]; [|reflexivity].
  rewrite <- H. symmetry. apply existsb_exists. exists x. split; [exact Hx | apply N.eqb_refl].
Qed.

Section ConvertToOrgInlineCode.
Import ConvertToOrg.

(** The match of the inline-code pattern on a code span. *)
Lemma inline_code_match (pre code after : str) :
  code <> [] ->
  forallb (none_of (py "`")) code = true ->
  exists e,
    match_at inline_code pre (py "`" ++ code ++ py "`" ++ after) = Some e
    /\ rest e = after
    /\ wrap (py "=") (py "=") e = py "=" ++ code ++ py "=".
Proof.
  intros Hne Hcode. destruct code as [|c0 code']; [now destruct Hne |].
  cbn [forallb] in Hcode. apply andb_prop in Hcode as [Hc0 Hcode].
  unfold match_at, start, inline_code.
  change (py "`" ++ (c0 :: code') ++ py "`" ++ after)
    with (chr "`" :: (c0 :: code') ++ chr "`" :: after).
  rewrite run_seq_cons, run_Chr_cons.
  replace (lit (chr "`") (chr "`")) with true by reflexivity.
  rewrite flat_map_one, run_seq_group. cbn [seq]. unfold Plus.
  cbn [app]. rewrite run_Seq, run_Chr_cons, Hc0, flat_map_one, run_star_chr.
  match goal with
  | |- context [star_chr ?p ?pre' ?s ?cs] =>
      destruct (star_chr_longest p cs s pre') as (pre1 & l1 & ->)
  end.
  rewrite (dropWhile_all (none_of (py "`")) (chr "`") after eq_refl code' Hcode).
  cbn [flat_map].
  change (c0 :: code' ++ chr "`" :: after) with ((c0 :: code') ++ chr "`" :: after).
  rewrite set_cap_app, run_Chr_cons.
  replace (lit (chr "`") (chr "`")) with true by reflexivity.
  cbn [app hd_error]. eexists. split; [reflexivity |]. split; reflexivity.
Qed.

End ConvertToOrgInlineCode.

(** X17.  convert_to_org.py: a code span in a line that has no other
    markup.  [convert_inline_formatting] turns the two backticks into
    [=] and changes nothing else: the text before, the code and the
    text after are written as they were. *)
Theorem inline_code_becomes_verbatim (before code after : str) :
  code <> [] ->
  forallb (fun c => negb (existsb (N.eqb c) ConvertToOrg.markup_chars))
          (before ++ code ++ after) = true ->
  ConvertToOrg.convert_inline_formatting (before ++ py "`" ++ code ++ py "`" ++ after)
  = before ++ py "=" ++ code ++ py "=" ++ after.
Proof.
  intros Hne Hplain.
  rewrite !forallb_app in Hplain.
  apply andb_prop in Hplain as [Hbefore Hplain].
  apply andb_prop in Hplain as [Hcode Hafter].
  assert (Hweaken : forall cs s,
             (forall x, In x cs -> In x ConvertToOrg.markup_chars) ->
             forallb (fun c => negb (existsb (N.eqb c) ConvertToOrg.markup_chars)) s = true ->
             forallb (fun c => negb (existsb (N.eqb c) cs)) s = true).
  { intros cs s Hcs Hs. rewrite forallb_forall in *. intros c Hc.
    specialize (Hs c Hc). apply negb_true_iff in Hs. apply negb_true_iff.
    destruct (existsb (N.eqb c) cs) eqn:E; [|reflexivity].
    apply existsb_exists in E as (x & Hx & Ex). rewrite <- Hs. symmetry.
    apply existsb_exists. exists x. split; [now apply Hcs | exact Ex]. }
  set (text := before ++ py "`" ++ code ++ py "`" ++ after).
  assert (Htext : forallb (fun c => negb (existsb (N.eqb c) (py "[*_~"))) text = true).
  { unfold text. rewrite !forallb_app.
    rewrite (Hweaken (py "[*_~") before), (Hweaken (py "[*_~") code),
      (Hweaken (py "[*_~") after) by (assumption || (cbn; tauto)).
    reflexivity. }
  assert (Hat : forall x, In x (py "[*_~") ->
                forall a b, text = a ++ b ->
                  match b with c :: _ => lit x c = false | [] => True end).
  { intros x Hx a b E. exact (without_chars_suffix _ text a b Htext E x Hx). }
  unfold ConvertToOrg.convert_inline_formatting, re_sub. fold text.
  rewrite (sub_go_no_match ConvertToOrg.link) by
    (intros a b E; apply (match_at_first_chr (lit (chr "["))),
                         (Hat (chr "[") ltac:(cbn; tauto) a b E)).
  rewrite (sub_go_no_match (ConvertToOrg.doubled (chr "*"))) by
    (intros a b E; apply (match_at_first_chr (lit (chr "*"))),
                         (Hat (chr "*") ltac:(cbn; tauto) a b E)).
  rewrite (sub_go_no_match (ConvertToOrg.doubled (chr "_"))) by
    (intros a b E; apply (match_at_first_chr (lit (chr "_"))),
                         (Hat (chr "_") ltac:(cbn; tauto) a b E)).
  rewrite (sub_go_no_match (ConvertToOrg.single (chr "*"))) by
    (intros a b E; apply (match_at_behind_chr _ (lit (chr "*"))),
                         (Hat (chr "*") ltac:(cbn; tauto) a b E)).
  rewrite (sub_go_no_match (ConvertToOrg.single (chr "_"))) by
    (intros a b E; apply (match_at_behind_chr _ (lit (chr "_"))),
                         (Hat (chr "_") ltac:(cbn; tauto) a b E)).
  assert (Htick : forall s, forallb (fun c => negb (existsb (N.eqb c)
                                                     ConvertToOrg.markup_chars)) s = true ->
                            forallb (none_of (py "`")) s = true).
  { intros s Hs. apply (Hweaken (py "`") s); [cbn; tauto | exact Hs]. }
  unfold text.
  replace (before ++ py "`" ++ code ++ py "`" ++ after)
    with (before ++ (py "`" ++ code ++ py "`") ++ after)
    by (now rewrite <- !app_assoc).
  rewrite (sub_go_one_match ConvertToOrg.inline_code _
             (py "`" ++ code ++ py "`") after (py "=" ++ code ++ py "=")).
  - rewrite sub_go_no_match; [now rewrite <- !app_assoc |]. intros a b E.
    apply (match_at_first_chr (lit (chr "~"))).
    refine (without_chars_suffix (py "~") _ a b _ E (chr "~") ltac:(cbn; tauto)).
    rewrite !forallb_app.
    rewrite (Hweaken (py "~") before), (Hweaken (py "~") code),
      (Hweaken (py "~") after) by (assumption || (cbn; tauto)).
    reflexivity.
  - cbn; lia.
  - discriminate.
  - intros p. rewrite <- !app_assoc.
    apply inline_code_match; [exact Hne | now apply Htick].
  - intros p b1 b2 E. apply (match_at_first_chr (lit (chr "`"))).
    exact (without_chars_suffix (py "`") after b1 b2 (Htick after Hafter) E
             (chr "`") ltac:(cbn; tauto)).
  - intros p a1 a2 E Ha2. apply (match_at_first_chr (lit (chr "`"))).
    destruct a2 as [|c a2']; [now destruct Ha2 |]. cbn [app].
    exact (without_chars_suffix (py "`") before a1 (c :: a2') (Htick before Hbefore) E
             (chr "`") ltac:(cbn; tauto)).
Qed.

Lemma inline_code_becomes_verbatim_witness :
  ConvertToOrg.convert_inline_formatting
    (py "Run " ++ py "`" ++ py "make -j4" ++ py "`" ++ py " first.")
  = py "Run " ++ py "=" ++ py "make -j4" ++ py "=" ++ py " first.".
Proof.
  exact (inline_code_becomes_verbatim (py "Run ") (py "make -j4") (py " first.")
           ltac:(discriminate) eq_refl).
Defined.

(* ------------------------------------------------------------------ *)
(** ** convert_to_org.py: links *)

Section ConvertToOrgLink.
Import ConvertToOrg.

(** The match of the link pattern on a link. *)
Lemma link_match (pre text url after : str) :
  text <> [] -> forallb (none_of (py "]")) text = true ->
  url <> [] -> forallb (none_of (py ")")) url = true ->
  exists e,
    match_at link pre (py "[" ++ text ++ py "](" ++ url ++ py ")" ++ after) = Some e
    /\ rest e = after
    /\ py "[[" ++ group 2 e ++ py "][" ++ group 1 e ++ py "]]"
       = py "[[" ++ url ++ py "][" ++ text ++ py "]]".
Proof.
  intros Ht Htext Hu Hurl.
  destruct text as [|t0 text']; [now destruct Ht |].
  destruct url as [|u0 url']; [now destruct Hu |].
  cbn [forallb] in Htext, Hurl.
  apply andb_prop in Htext as [Ht0 Htext]. apply andb_prop in Hurl as [Hu0 Hurl].
  unfold match_at, start, link.
  change (py "[" ++ (t0 :: text') ++ py "](" ++ (u0 :: url') ++ py ")" ++ after)
    with (chr "[" :: t0 :: text' ++ chr "]" :: chr "(" :: (u0 :: url') ++ chr ")" :: after).
  rewrite run_seq_cons, run_Chr_cons.
  replace (lit (chr "[") (chr "[")) with true by reflexivity.
  rewrite flat_map_one, run_seq_group.
  change (Plus true (Chr (none_of (py "]"))))
    with (Seq (Chr (none_of (py "]"))) (Star true (Chr (none_of (py "]"))))).
  rewrite run_Seq, run_Chr_cons, Ht0, flat_map_one, run_star_chr.
  match goal with
  | |- context [star_chr ?p ?pre' ?s ?cs] =>
      destruct (star_chr_longest p cs s pre') as (pre1 & l1 & ->)
  end.
  rewrite (dropWhile_all (none_of (py "]")) (chr "]") _ eq_refl text' Htext).
  cbn [flat_map].
  change (t0 :: text' ++ chr "]" :: chr "(" :: (u0 :: url') ++ chr ")" :: after)
    with ((t0 :: text') ++ chr "]" :: chr "(" :: u0 :: url' ++ chr ")" :: after).
  rewrite set_cap_app, run_seq_cons, run_Chr_cons.
  replace (lit (chr "]") (chr "]")) with true by reflexivity.
  rewrite flat_map_one, run_seq_cons, run_Chr_cons.
  replace (lit (chr "(") (chr "(")) with true by reflexivity.
  rewrite flat_map_one, run_seq_group. cbn [seq].
  change (Plus true (Chr (none_of (py ")"))))
    with (Seq (Chr (none_of (py ")"))) (Star true (Chr (none_of (py ")"))))).
  cbn [app]. rewrite run_Seq, run_Chr_cons, Hu0, flat_map_one, run_star_chr.
  match goal with
  | |- context [star_chr ?p ?pre' ?s ?cs] =>
      destruct (star_chr_longest p cs s pre') as (pre2 & l2 & ->)
  end.
  rewrite (dropWhile_all (none_of (py ")")) (chr ")") _ eq_refl url' Hurl).
  cbn [flat_map].
  change (u0 :: url' ++ chr ")" :: after) with ((u0 :: url') ++ chr ")" :: after).
  rewrite set_cap_app, run_Chr_cons.
  replace (lit (chr ")") (chr ")")) with true by reflexivity.
  cbn [app hd_error]. eexists. split; [reflexivity |]. split; reflexivity.
Qed.

End ConvertToOrgLink.

(** X18.  convert_to_org.py: a link [[text](url)] in a line that has no
    other markup, with a text without [[]] and a URL without [()].
    [convert_inline_formatting] writes the Org link [[[url][text]]] -
    the URL first - and leaves the rest of the line as it was. *)
Theorem link_becomes_org_link (before text url after : str) :
  text <> [] -> url <> [] ->
  forallb (none_of (py "]")) text = true ->
  forallb (none_of (py ")")) url = true ->
  forallb (fun c => negb (existsb (N.eqb c) ConvertToOrg.markup_chars))
          (before ++ text ++ url ++ after) = true ->
  ConvertToOrg.convert_inline_formatting
    (before ++ py "[" ++ text ++ py "](" ++ url ++ py ")" ++ after)
  = before ++ py "[[" ++ url ++ py "][" ++ text ++ py "]]" ++ after.
Proof.
  intros Ht Hu Htext Hurl Hplain.
  rewrite !forallb_app in Hplain.
  apply andb_prop in Hplain as [Hbefore Hplain].
  apply andb_prop in Hplain as [Hptext Hplain].
  apply andb_prop in Hplain as [Hpurl Hafter].
  assert (Hweaken : forall cs s,
             (forall x, In x cs -> In x ConvertToOrg.markup_chars) ->
             forallb (fun c => negb (existsb (N.eqb c) ConvertToOrg.markup_chars)) s = true ->
             forallb (fun c => negb (existsb (N.eqb c) cs)) s = true).
  { intros cs s Hcs Hs. rewrite forallb_forall in *. intros c Hc.
    specialize (Hs c Hc). apply negb_true_iff in Hs. apply negb_true_iff.
    destruct (existsb (N.eqb c) cs) eqn:E; [|reflexivity].
    apply existsb_exists in E as (x & Hx & Ex). rewrite <- Hs. symmetry.
    apply existsb_exists. exists x. split; [now apply Hcs | exact Ex]. }
  unfold ConvertToOrg.convert_inline_formatting, re_sub.
  replace (before ++ py "[" ++ text ++ py "](" ++ url ++ py ")" ++ after)
    with (before ++ (py "[" ++ text ++ py "](" ++ url ++ py ")") ++ after)
    by (now rewrite <- !app_assoc).
  rewrite (sub_go_one_match ConvertToOrg.link _
             (py "[" ++ text ++ py "](" ++ url ++ py ")") after
             (py "[[" ++ url ++ py "][" ++ text ++ py "]]")).
  - set (result := before ++ (py "[[" ++ url ++ py "][" ++ text ++ py "]]") ++ after).
    assert (Hresult : forallb (fun c => negb (existsb (N.eqb c) (py "*_`~"))) result = true).
    { unfold result. rewrite !forallb_app.
      rewrite (Hweaken (py "*_`~") before), (Hweaken (py "*_`~") text),
        (Hweaken (py "*_`~") url), (Hweaken (py "*_`~") after)
        by (assumption || (cbn; tauto)).
      reflexivity. }
    assert (Hat : forall x, In x (py "*_`~") ->
                  forall a b, result = a ++ b ->
                    match b with c :: _ => lit x c = false | [] => True end).
    { intros x Hx a b E. exact (without_chars_suffix _ result a b Hresult E x Hx). }
    rewrite (sub_go_no_match (ConvertToOrg.doubled (chr "*"))) by
      (intros a b E; apply (match_at_first_chr (lit (chr "*"))),
                           (Hat (chr "*") ltac:(cbn; tauto) a b E)).
    rewrite (sub_go_no_match (ConvertToOrg.doubled (chr "_"))) by
      (intros a b E; apply (match_at_first_chr (lit (chr "_"))),
                           (Hat (chr "_") ltac:(cbn; tauto) a b E)).
    rewrite (sub_go_no_match (ConvertToOrg.single (chr "*"))) by
      (intros a b E; apply (match_at_behind_chr _ (lit (chr "*"))),
                           (Hat (chr "*") ltac:(cbn; tauto) a b E)).
    rewrite (sub_go_no_match (ConvertToOrg.single (chr "_"))) by
      (intros a b E; apply (match_at_behind_chr _ (lit (chr "_"))),
                           (Hat (chr "_") ltac:(cbn; tauto) a b E)).
    rewrite (sub_go_no_match ConvertToOrg.inline_code) by
      (intros a b E; apply (match_at_first_chr (lit (chr "`"))),
                           (Hat (chr "`") ltac:(cbn; tauto) a b E)).
    rewrite (sub_go_no_match (ConvertToOrg.doubled (chr "~"))) by
      (intros a b E; apply (match_at_first_chr (lit (chr "~"))),
                           (Hat (chr "~") ltac:(cbn; tauto) a b E)).
    unfold result. now rewrite <- !app_assoc.
  - cbn; lia.
  - discriminate.
  - intros p. rewrite <- !app_assoc. now apply link_match.
  - intros p b1 b2 E. apply (match_at_first_chr (lit (chr "["))).
    exact (without_chars_suffix (py "[") after b1 b2
             (Hweaken (py "[") after ltac:(cbn; tauto) Hafter) E
             (chr "[") ltac:(cbn; tauto)).
  - intros p a1 a2 E Ha2. apply (match_at_first_chr (lit (chr "["))).
    destruct a2 as [|c a2']; [now destruct Ha2 |]. cbn [app].
    exact (without_chars_suffix (py "[") before a1 (c :: a2')
             (Hweaken (py "[") before ltac:(cbn; tauto) Hbefore) E
             (chr "[") ltac:(cbn; tauto)).
Qed.

Lemma link_becomes_org_link_witness :
  ConvertToOrg.convert_inline_formatting
    (py "See " ++ py "[" ++ py "the docs" ++ py "](" ++ py "http://x.org/a"
     ++ py ")" ++ py ".")
  = py "See " ++ py "[[" ++ py "http://x.org/a" ++ py "][" ++ py "the docs"
    ++ py "]]" ++ py ".".
Proof.
  exact (link_becomes_org_link (py "See ") (py "the docs") (py "http://x.org/a") (py ".")
           ltac:(discriminate) ltac:(discriminate) eq_refl eq_refl eq_refl).
Defined.

(* ------------------------------------------------------------------ *)
(** ** convert_to_org.py: the name of the output file *)

Lemma existsb_dot_app (a b : str) :
  existsb (N.eqb (chr ".")) (a ++ chr "." :: b) = true.
Proof.
  rewrite existsb_app. cbn [existsb]. rewrite N.eqb_refl. cbn [orb]. apply orb_true_r.
Qed.

Lemma no_dot_rev (ext : str) :
  existsb (N.eqb (chr ".")) ext = false ->
  forallb (fun c => negb (c =? chr ".")%N) (rev ext) = true.
Proof.
  intros H. apply forallb_forall. intros c Hc. apply in_rev in Hc.
  apply negb_true_iff. destruct (N.eqb_spec c (chr ".")) as [-> | _]; [|reflexivity].
  rewrite <- H. symmetry. apply existsb_exists. exists (chr "."). now split.
Qed.

(** X19.  convert_to_org.py: [main] names the output after the input,
    with what follows the last dot replaced by [org].  For an input
    [stem.ext] - [ext] without a dot - it writes [stem.org], whatever
    dots or slashes [stem] has; for an input without any dot it writes
    the input name with [.org] added.  (So an input that already ends
    in [.org] is overwritten.) *)
Theorem output_file_replaces_extension {U : Unicode}
    (prog stem ext : str) (args : list str) (md_content : str) :
  existsb (N.eqb (chr ".")) ext = false ->
  ConvertToOrg.output
    (ConvertToOrg.main (prog :: (stem ++ py "." ++ ext) :: args) md_content)
  = stem ++ py ".org"
  /\ ConvertToOrg.output (ConvertToOrg.main (prog :: ext :: args) md_content)
     = ext ++ py ".org".
Proof.
  intros H. unfold ConvertToOrg.main, ConvertToOrg.input_file, ConvertToOrg.output_file,
    ConvertToOrg.before_last_dot.
  cbn [ConvertToOrg.output]. rewrite H. split; [|reflexivity].
  change (stem ++ py "." ++ ext) with (stem ++ chr "." :: ext).
  rewrite existsb_dot_app, rev_app_distr. cbn [rev]. rewrite <- app_assoc. cbn [app].
  rewrite dropWhile_all by (reflexivity || now apply no_dot_rev).
  cbn [tl]. now rewrite rev_involutive.
Qed.

Lemma output_file_replaces_extension_witness :
  ConvertToOrg.output
    (@ConvertToOrg.main ascii_only
       [py "convert_to_org.py"; py "docs/v1.2/notes" ++ py "." ++ py "md"] (py "# T"))
  = py "docs/v1.2/notes" ++ py ".org".
Proof.
  exact (proj1 (@output_file_replaces_extension ascii_only (py "convert_to_org.py")
                  (py "docs/v1.2/notes") (py "md") [] (py "# T") eq_refl)).
Defined.

(* ------------------------------------------------------------------ *)
(** ** generate_diagrams.py: a document without the section headings *)

Section GenerateDiagramsPlain.
Import IO GenerateDiagrams.

Lemma firstn_snoc (lines : list str) :
  forall k, k < length lines -> firstn (S k) lines = firstn k lines ++ [nth k lines []].
Proof.
  induction lines as [|l lines IH]; intros k Hk; [cbn in Hk; lia |].
  destruct k as [|k]; [reflexivity |]. cbn [firstn nth app]. f_equal.
  apply IH. cbn [length] in Hk. lia.
Qed.

(** Before the first section heading the loop copies. *)
Lemma step_copies (dir : str) (lines : list str) (k : nat) (b : bool) :
  k < length lines ->
  is_section_heading (nth k lines []) = false ->
  exists b',
    step dir lines (mkVars k None (firstn k lines) 0 0 b false [])
    = mkVars (S k) None (firstn (S k) lines) 0 0 b' false [].
Proof.
  intros Hk Hh. unfold is_section_heading in Hh.
  rewrite firstn_snoc by exact Hk. unfold step.
  cbn [i current_section modified_lines inserted_count removed_count
       in_code_block skip_until_code_end printed andb].
  rewrite andb_false_r.
  unfold after_append, at_heading.
  destruct (dict_find (strip (nth k lines [])) primary_insertions); [discriminate |].
  unfold at_overview, next.
  cbn [i current_section modified_lines inserted_count removed_count
       in_code_block skip_until_code_end printed].
  rewrite Nat.add_1_r.
  destruct (is_fence (nth k lines [])); eexists; reflexivity.
Qed.

Lemma while_loop_copies (dir : str) (lines : list str) :
  forallb (fun l => negb (is_section_heading l)) lines = true ->
  forall fuel k b,
    k <= length lines -> length lines <= k + fuel ->
    exists b',
      while_loop fuel dir lines (mkVars k None (firstn k lines) 0 0 b false [])
      = mkVars (length lines) None lines 0 0 b' false [].
Proof.
  intros Hno. induction fuel as [|fuel IH]; intros k b Hk Hfuel; cbn [while_loop i].
  - replace k with (length lines) by lia. rewrite firstn_all. now exists b.
  - destruct (Nat.ltb_spec k (length lines)) as [Hlt | Hge].
    + destruct (step_copies dir lines k b Hlt) as (b' & ->).
      * rewrite forallb_forall in Hno. apply negb_true_iff, Hno, nth_In, Hlt.
      * apply IH; lia.
    + replace k with (length lines) by lia. rewrite firstn_all. now exists b.
Qed.

End GenerateDiagramsPlain.

(** X20.  generate_diagrams.py: a document in which no line is one of
    the five section headings is left as it is.  The loop of
    [replace_ascii_diagrams_with_images] copies every line - code
    blocks with box-drawing characters included -, inserts no diagram,
    removes nothing and prints no message. *)
Theorem document_without_headings_is_copied (diagram_dir : str) (lines : list str) :
  forallb (fun l => negb (GenerateDiagrams.is_section_heading l)) lines = true ->
  let v := GenerateDiagrams.run_loop diagram_dir lines in
  GenerateDiagrams.modified_lines v = lines
  /\ GenerateDiagrams.inserted_count v = 0
  /\ GenerateDiagrams.removed_count v = 0
  /\ GenerateDiagrams.printed v = [].
Proof.
  intros Hno v. subst v. unfold GenerateDiagrams.run_loop.
  destruct (while_loop_copies diagram_dir lines Hno (length lines) 0 false
              ltac:(lia) ltac:(lia)) as (b' & E).
  cbn [firstn] in E. rewrite E. repeat split.
Qed.

Lemma document_without_headings_is_copied_witness :
  GenerateDiagrams.modified_lines
    (GenerateDiagrams.run_loop (py "diagrams")
       [ py "# Notes" ++ [NL]; py "```" ++ [NL]; [0x2502; 0x20; 0x2502; NL]%N;
         py "```" ++ [NL] ])
  = [ py "# Notes" ++ [NL]; py "```" ++ [NL]; [0x2502; 0x20; 0x2502; NL]%N;
      py "```" ++ [NL] ].
Proof.
  exact (proj1 (document_without_headings_is_copied (py "diagrams")
                  [ py "# Notes" ++ [NL]; py "```" ++ [NL];
                    [0x2502; 0x20; 0x2502; NL]%N; py "```" ++ [NL] ]
                  eq_refl)).
Defined.

(* ------------------------------------------------------------------ *)
(** ** generate_diagrams.py: the diagram after a section heading *)

Section GenerateDiagramsHeading.
Import IO GenerateDiagrams.
Variable diagram_dir : str.

Lemma dict_find_key (k : str) (d : list (str * str)) (k' v : str) :
  dict_find k d = Some (k', v) -> k = k' /\ In (k', v) d.
Proof.
  induction d as [|[k0 v0] d IH]; cbn [dict_find]; [discriminate |].
  destruct (str_eqb k k0) eqn:E.
  - intros [= <- <-]. apply str_eqb_eq in E. split; [exact E | now left].
  - intros H. apply IH in H as [H1 H2]. split; [exact H1 | now right].
Qed.

(** A section heading is no code fence and no Architecture Overview line. *)
Lemma heading_line (line heading diagram : str) :
  dict_find (strip line) primary_insertions = Some (heading, diagram) ->
  is_fence line = false
  /\ str_eqb (strip line) (py "**Architecture Overview**:") = false.
Proof.
  intros H. apply dict_find_key in H as [E H]. unfold is_fence. rewrite E.
  cbn in H.
  repeat (destruct H as [[= <- <-] | H]; [split; reflexivity |]).
  destruct H.
Qed.

(** A turn of the loop only appends to [modified_lines]. *)
Lemma step_appends (lines : list str) (v : vars) :
  exists l, modified_lines (step diagram_dir lines v) = modified_lines v ++ l.
Proof.
  assert (Hhead : forall line w,
             exists l, modified_lines (at_heading diagram_dir lines line w)
                       = modified_lines w ++ l).
  { intros line w. unfold at_heading.
    destruct (dict_find (strip line) primary_insertions) as [[h d]|];
      cbn [modified_lines]; eexists; [reflexivity | now rewrite app_nil_r]. }
  assert (Hover : forall line w,
             exists l, modified_lines (at_overview diagram_dir lines line w)
                       = modified_lines w ++ l).
  { intros line w. unfold at_overview.
    destruct (current_section w); [|exists []; now rewrite app_nil_r].
    destruct (negb (in_code_block w) && _); [|exists []; now rewrite app_nil_r].
    destruct (ascii_block_after lines _); cbn [modified_lines]; eexists; reflexivity. }
  assert (Hafter : forall line w,
             exists l, modified_lines (after_append diagram_dir lines line w)
                       = modified_lines w ++ l).
  { intros line w. unfold after_append, next. cbn [modified_lines].
    destruct (Hover line (at_heading diagram_dir lines line w)) as (l2 & ->).
    destruct (Hhead line w) as (l1 & ->). exists (l1 ++ l2). now rewrite app_assoc. }
  unfold step.
  repeat match goal with
         | |- context [if ?c then _ else _] => destruct c
         end;
    cbn [modified_lines next];
    try (exists []; now rewrite app_nil_r);
    match goal with
    | |- context [after_append ?d ?ls ?line ?w] =>
        destruct (Hafter line w) as (l & ->); cbn [modified_lines];
        eexists; rewrite <- app_assoc; reflexivity
    end.
Qed.

Lemma while_loop_appends (lines : list str) :
  forall fuel v,
    exists l, modified_lines (while_loop fuel diagram_dir lines v) = modified_lines v ++ l.
Proof.
  induction fuel as [|fuel IH]; intros v; cbn [while_loop];
    [exists []; now rewrite app_nil_r |].
  destruct (i v <? length lines); [|exists []; now rewrite app_nil_r].
  destruct (IH (step diagram_dir lines v)) as (l2 & ->).
  destruct (step_appends lines v) as (l1 & ->).
  exists (l1 ++ l2). now rewrite app_assoc.
Qed.

(** Up to the first section heading the loop copies. *)
Lemma while_loop_before (lines : list str) (K : nat) (m : nat) :
  K < length lines ->
  (forall j, j < K -> is_section_heading (nth j lines []) = false) ->
  forall n k b,
    k + n = K ->
    exists b',
      while_loop (n + m) diagram_dir lines (mkVars k None (firstn k lines) 0 0 b false [])
      = while_loop m diagram_dir lines (mkVars K None (firstn K lines) 0 0 b' false []).
Proof.
  intros HK Hno. induction n as [|n IH]; intros k b Hk.
  - replace k with K by lia. now exists b.
  - cbn [Nat.add while_loop i].
    destruct (Nat.ltb_spec k (length lines)) as [Hlt | Hge]; [|lia].
    destruct (step_copies diagram_dir lines k b Hlt (Hno k ltac:(lia))) as (b' & ->).
    apply IH. lia.
Qed.

End GenerateDiagramsHeading.

(** X21.  generate_diagrams.py: the first section heading of a
    document gets its diagram.  In the lines the loop of
    [replace_ascii_diagrams_with_images] writes, the lines before the
    heading and the heading are as they were; the blank line after
    the heading, when there is one, is kept; then comes the image
    link of the diagram of that section. *)
Theorem diagram_follows_first_heading
    (diagram_dir : str) (before : list str) (line : str) (rest : list str)
    (heading diagram : str) :
  forallb (fun l => negb (GenerateDiagrams.is_section_heading l)) before = true ->
  GenerateDiagrams.dict_find (strip line) GenerateDiagrams.primary_insertions
  = Some (heading, diagram) ->
  exists tail,
    GenerateDiagrams.modified_lines
      (GenerateDiagrams.run_loop diagram_dir (before ++ line :: rest))
    = before ++ [line]
      ++ match rest with
         | next :: _ => if GenerateDiagrams.is_blank next then [next] else []
         | [] => []
         end
      ++ [GenerateDiagrams.diagram_text diagram_dir diagram] ++ tail.
Proof.
  intros Hbefore Hline.
  set (lines := before ++ line :: rest).
  assert (HK : length before < length lines)
    by (unfold lines; rewrite length_app; cbn [length]; lia).
  assert (Hno : forall j, j < length before ->
                          GenerateDiagrams.is_section_heading (nth j lines []) = false).
  { intros j Hj. unfold lines. rewrite app_nth1 by exact Hj.
    rewrite forallb_forall in Hbefore. apply negb_true_iff, Hbefore, nth_In, Hj. }
  unfold GenerateDiagrams.run_loop.
  replace (length lines) with (length before + S (length rest))
    by (unfold lines; rewrite length_app; reflexivity).
  destruct (while_loop_before diagram_dir lines (length before) (S (length rest)) HK Hno
              (length before) 0 false eq_refl) as (b' & E).
  cbn [firstn] in E. rewrite E. clear E.
  cbn [GenerateDiagrams.while_loop GenerateDiagrams.i].
  destruct (Nat.ltb_spec (length before) (length lines)) as [_ | H]; [|lia].
  match goal with
  | |- context [GenerateDiagrams.while_loop ?f ?d ?ls ?v] =>
      destruct (while_loop_appends d ls f v) as (tail & ->)
  end.
  assert (Hnth : nth (length before) lines [] = line)
    by (unfold lines; now rewrite nth_middle).
  assert (Hfirst : firstn (length before) lines = before)
    by (unfold lines; rewrite firstn_app, firstn_all, Nat.sub_diag; cbn [firstn];
        now rewrite app_nil_r).
  assert (Hnext : (length before + 1 <? length lines)
                  && GenerateDiagrams.is_blank (nth (length before + 1) lines [])
                  = match rest with
                    | next :: _ => GenerateDiagrams.is_blank next
                    | [] => false
                    end).
  { unfold lines. rewrite app_nth2 by lia.
    replace (length before + 1 - length before) with 1 by lia.
    rewrite length_app. cbn [length nth].
    destruct rest as [|next rest'].
    - cbn [length]. destruct (Nat.ltb_spec (length before + 1) (length before + 1));
        [lia | reflexivity].
    - cbn [length nth]. destruct (Nat.ltb_spec (length before + 1)
                                    (length before + S (S (length rest'))));
        [reflexivity | lia]. }
  destruct (heading_line line heading diagram Hline) as [Hfence Hover].
  unfold GenerateDiagrams.step.
  cbn [GenerateDiagrams.i GenerateDiagrams.current_section
       GenerateDiagrams.modified_lines GenerateDiagrams.inserted_count
       GenerateDiagrams.removed_count GenerateDiagrams.in_code_block
       GenerateDiagrams.skip_until_code_end GenerateDiagrams.printed].
  rewrite Hnth, Hfence, Hfirst.
  unfold GenerateDiagrams.after_append, GenerateDiagrams.at_heading.
  rewrite Hline.
  cbn [GenerateDiagrams.i GenerateDiagrams.current_section
       GenerateDiagrams.modified_lines GenerateDiagrams.inserted_count
       GenerateDiagrams.removed_count GenerateDiagrams.in_code_block
       GenerateDiagrams.skip_until_code_end GenerateDiagrams.printed].
  unfold GenerateDiagrams.at_overview.
  cbn [GenerateDiagrams.i GenerateDiagrams.current_section
       GenerateDiagrams.modified_lines GenerateDiagrams.inserted_count
       GenerateDiagrams.removed_count GenerateDiagrams.in_code_block
       GenerateDiagrams.skip_until_code_end GenerateDiagrams.printed].
  rewrite Hover, andb_false_r.
  cbn [GenerateDiagrams.next GenerateDiagrams.modified_lines].
  rewrite Hnext. exists tail.
  destruct rest as [|next rest'].
  - now rewrite <- !app_assoc.
  - destruct (GenerateDiagrams.is_blank next) eqn:Hb.
    + assert (Hn : nth (length before + 1) lines [] = next).
      { unfold lines. rewrite app_nth2 by lia.
        now replace (length before + 1 - length before) with 1 by lia. }
      rewrite Hn. now rewrite <- !app_assoc.
    + now rewrite <- !app_assoc.
Qed.

Lemma diagram_follows_first_heading_witness :
  exists tail,
    GenerateDiagrams.modified_lines
      (GenerateDiagrams.run_loop (py "diagrams")
         ([py "Intro" ++ [NL]]
          ++ (py "# High-Fidelity Pixel-Perfect Zoomable Canvas" ++ [NL])
          :: [[NL]; py "Text" ++ [NL]]))
    = [py "Intro" ++ [NL]]
      ++ [py "# High-Fidelity Pixel-Perfect Zoomable Canvas" ++ [NL]]
      ++ [[NL]]
      ++ [GenerateDiagrams.diagram_text (py "diagrams") (py "canvas-architecture.png")]
      ++ tail.
Proof.
  exact (diagram_follows_first_heading (py "diagrams") [py "Intro" ++ [NL]]
           (py "# High-Fidelity Pixel-Perfect Zoomable Canvas" ++ [NL])
           [[NL]; py "Text" ++ [NL]]
           (py "# High-Fidelity Pixel-Perfect Zoomable Canvas")
           (py "canvas-architecture.png") eq_refl eq_refl).
Defined.

(* ------------------------------------------------------------------ *)
(** ** generate_diagrams.py: rendering the diagrams *)

Section GenerateDiagramsRender.
Import IO GenerateDiagrams.

Lemma str_eqb_refl (a : str) : str_eqb a a = true.
Proof. now apply str_eqb_eq. Qed.

Lemma str_eqb_app_head (pre a b : str) : str_eqb (pre ++ a) (pre ++ b) = str_eqb a b.
Proof.
  induction pre as [|c pre IH]; cbn [app str_eqb]; [reflexivity |].
  now rewrite N.eqb_refl, IH.
Qed.

(** [os.path.join] puts a name that is not absolute after a prefix
    that depends on the directory only. *)
Lemma path_join_prefix (a : str) :
  exists pre, forall b, startswith (py "/") b = false -> path_join a b = pre ++ b.
Proof.
  unfold path_join.
  destruct (str_eqb a [] || endswith (py "/") a).
  - exists a. now intros b ->.
  - exists (a ++ py "/"). intros b ->. now rewrite <- app_assoc.
Qed.

(** One turn of the loop of [create_all_diagrams] for a graph that was
    built. *)
Lemma render_one_built (e : env) (dir : str) (generated : list str)
    (name : str) (d : Digraph) (w : world) :
  render_one e dir generated (name, Some d) w
  = (Ok (generated
         ++ match render_error e (path_join dir name) with
            | None => [path_join dir name ++ py ".png"]
            | Some _ => []
            end),
     mkWorld (after_render e d (path_join dir name) (files w))
             (trace w
              ++ [ Render (path_join dir name);
                   Print match render_error e (path_join dir name) with
                         | None => py "Generated: " ++ path_join dir name ++ py ".png"
                         | Some exn => py "Error rendering " ++ name ++ py ": " ++ exn
                         end ])).
Proof.
  unfold render_one. cbn [fst snd].
  unfold try_except, bind at 1, render.
  destruct (render_error e (path_join dir name)) as [exn|].
  - unfold bind, print, log, ret. cbn [files trace].
    now rewrite app_nil_r, <- app_assoc.
  - unfold bind, print, log, ret. cbn [files trace].
    now rewrite <- app_assoc.
Qed.

(** The files after the renderings of a list of graphs. *)
Lemma render_all_built (e : env) (dir : str) :
  forall (items : list (str * Digraph)) (generated : list str) (w : world),
  exists evs,
    render_all e dir generated (map (fun it => (fst it, Some (snd it))) items) w
    = (Ok (generated
           ++ map (fun name => path_join dir name ++ py ".png")
                  (filter (fun name =>
                             match render_error e (path_join dir name) with
                             | None => true
                             | Some _ => false
                             end)
                          (map fst items))),
       mkWorld (fold_left (fun fs it => after_render e (snd it) (path_join dir (fst it)) fs)
                          items (files w))
               (trace w ++ evs))
    /\ forallb (fun ev => negb (opens_file ev)) evs = true
    /\ forall name, In name (map fst items) -> In (Render (path_join dir name)) evs.
Proof.
  induction items as [|[name d] items IH]; intros generated w;
    cbn [map fst snd render_all filter fold_left].
  - exists []. unfold ret. rewrite !app_nil_r. destruct w.
    split; [reflexivity |]. split; [reflexivity | intros name []].
  - unfold bind at 1. rewrite render_one_built.
    match goal with
    | |- context [render_all e dir ?g _ ?w'] => destruct (IH g w') as (evs & E & Hq & Hr)
    end.
    rewrite E. cbn [files trace].
    eexists (Render (path_join dir name) :: Print _ :: evs).
    split; [|split].
    + f_equal.
      * f_equal. destruct (render_error e (path_join dir name)); cbn [map app];
          now rewrite ?app_nil_r, <- ?app_assoc.
      * f_equal. rewrite <- app_assoc. reflexivity.
    + cbn [forallb opens_file negb andb]. exact Hq.
    + intros name' [<- | H]; [now left | right; right; now apply Hr].
Qed.

(** A rendering leaves the files at other paths alone. *)
Lemma after_render_other (e : env) (d : Digraph) (path : str)
    (fs : str -> option str) (p : str) :
  str_eqb p path = false -> str_eqb p (path ++ py ".png") = false ->
  after_render e d path fs p = fs p.
Proof. intros H1 H2. unfold after_render. now rewrite H1, H2. Qed.

Lemma after_renders_other (e : env) (dir : str) (p : str) :
  forall (items : list (str * Digraph)) (fs : str -> option str),
    existsb (fun name => str_eqb p (path_join dir name)
                         || str_eqb p (path_join dir name ++ py ".png"))
            (map fst items) = false ->
    fold_left (fun fs it => after_render e (snd it) (path_join dir (fst it)) fs) items fs p
    = fs p.
Proof.
  induction items as [|[name d] items IH]; intros fs; cbn [map fst snd existsb fold_left];
    [reflexivity |].
  intros H. apply orb_false_elim in H as [H1 H2]. apply orb_false_elim in H1 as [H0 H1].
  rewrite IH by exact H2. now apply after_render_other.
Qed.

Lemma str_eqb_neq (a b : str) : a <> b -> str_eqb a b = false.
Proof.
  intros H. destruct (str_eqb a b) eqn:E; [|reflexivity].
  apply str_eqb_eq in E. now contradiction H.
Qed.

Lemma app_longer (a b : str) : b <> [] -> a ++ b <> a.
Proof.
  intros Hb H. apply (f_equal (@length N)) in H. rewrite length_app in H.
  destruct b; [now apply Hb | cbn [length] in H; lia].
Qed.

Lemma existsb_render_paths (dir p : str) (names : list str) :
  (forall m, In m names ->
             p <> path_join dir m /\ p <> path_join dir m ++ py ".png") ->
  existsb (fun name => str_eqb p (path_join dir name)
                       || str_eqb p (path_join dir name ++ py ".png")) names
  = false.
Proof.
  induction names as [|m names IH]; intros H; cbn [existsb]; [reflexivity |].
  destruct (H m (or_introl eq_refl)) as [H1 H2].
  rewrite (str_eqb_neq _ _ H1), (str_eqb_neq _ _ H2), IH; [reflexivity |].
  intros m' Hm'. apply H. now right.
Qed.

(** After the renderings of graphs with names that are apart, a graph
    whose rendering raised nothing has its image on disk, and its
    source is gone. *)
Lemma after_renders_rendered (e : env) (dir pre : str) :
  forall (items : list (str * Digraph)) (fs : str -> option str) (name : str) (d : Digraph),
    (forall n, In n (map fst items) -> path_join dir n = pre ++ n) ->
    NoDup (map fst items) ->
    (forall a b, In a (map fst items) -> In b (map fst items) -> a <> b ++ py ".png") ->
    In (name, d) items ->
    render_error e (path_join dir name) = None ->
    fold_left (fun fs it => after_render e (snd it) (path_join dir (fst it)) fs) items fs
              (path_join dir name ++ py ".png")
    = Some (image e d)
    /\ fold_left (fun fs it => after_render e (snd it) (path_join dir (fst it)) fs) items fs
                 (path_join dir name)
       = None.
Proof.
  induction items as [|[n0 d0] items IH]; intros fs name d Hrel Hnd Hap Hin Hok;
    [destruct Hin |].
  cbn [map fst] in Hrel, Hnd, Hap. cbn [fold_left fst snd].
  inversion Hnd as [|? ? Hnotin Hnd']; subst.
  destruct Hin as [[= -> ->] | Hin].
  - assert (Hother : forall m, In m (map fst items) ->
               (path_join dir name <> path_join dir m
                /\ path_join dir name <> path_join dir m ++ py ".png")
               /\ (path_join dir name ++ py ".png" <> path_join dir m
                   /\ path_join dir name ++ py ".png" <> path_join dir m ++ py ".png")).
    { intros m Hm.
      rewrite (Hrel name (or_introl eq_refl)), (Hrel m (or_intror Hm)).
      rewrite <- !app_assoc.
      repeat split; intros E; apply app_inv_head in E.
      - apply Hnotin. now rewrite E.
      - exact (Hap name m (or_introl eq_refl) (or_intror Hm) E).
      - exact (Hap m name (or_intror Hm) (or_introl eq_refl) (eq_sym E)).
      - apply app_inv_tail in E. apply Hnotin. now rewrite E. }
    rewrite !after_renders_other
      by (apply existsb_render_paths; intros m Hm; apply (Hother m Hm)).
    unfold after_render. rewrite Hok, !str_eqb_refl.
    rewrite (str_eqb_neq _ _ (app_longer (path_join dir name) (py ".png")
                                 ltac:(discriminate))).
    now split.
  - apply IH; auto.
    + intros n Hn. apply Hrel. now right.
    + intros a b Ha Hb. apply Hap; now right.
Qed.

(** The names of the five diagrams are apart. *)
Lemma diagram_names_apart :
  NoDup diagram_names
  /\ (forall a b, In a diagram_names -> In b diagram_names -> a <> b ++ py ".png")
  /\ forall n, In n diagram_names -> startswith (py "/") n = false.
Proof.
  split; [|split].
  - repeat (constructor;
            [cbn [In]; intros H;
             repeat (destruct H as [H | H]; [vm_compute in H; discriminate H |]);
             exact H |]).
    constructor.
  - intros a b Ha Hb E.
    cbn [diagram_names diagrams map fst In] in Ha, Hb.
    repeat (destruct Ha as [<- | Ha]);
      repeat (destruct Hb as [<- | Hb]);
      try contradiction; vm_compute in E; discriminate E.
  - intros n Hn. cbn [diagram_names diagrams map fst In] in Hn.
    repeat (destruct Hn as [<- | Hn]; [reflexivity |]). destruct Hn.
Qed.

(** What [create_all_diagrams] does when the graphs are built: it
    raises what [mkdir] raises, or renders the five graphs. *)
Lemma create_all_diagrams_built (e : env) (dir : str) (w : world) :
  graphviz_importable e = true ->
  match mkdir_raises e w dir with
  | Some exn => create_all_diagrams e dir w = (Raised exn, w)
  | None =>
      exists evs,
        create_all_diagrams e dir w
        = (Ok (map (fun name => path_join dir name ++ py ".png")
                   (filter (fun name =>
                              match render_error e (path_join dir name) with
                              | None => true
                              | Some _ => false
                              end)
                           diagram_names)),
           mkWorld (fold_left (fun fs it => after_render e (snd it) (path_join dir (fst it)) fs)
                              diagrams (files w))
                   (trace w ++ Mkdir dir :: evs))
        /\ forallb (fun ev => negb (opens_file ev)) evs = true
        /\ forall name, In name diagram_names -> In (Render (path_join dir name)) evs
  end.
Proof.
  intros Himport.
  destruct (mkdir_raises e w dir) as [exn|] eqn:Hmk.
  - unfold create_all_diagrams, bind, mkdir. cbv beta. now rewrite Hmk.
  - destruct (render_all_built e dir diagrams []
                (mkWorld (files w) (trace w ++ [Mkdir dir]))) as (evs & E & Hq & Hr).
    exists evs. cbn [files trace app] in E. rewrite <- app_assoc in E. cbn [app] in E.
    split; [|split; [exact Hq | exact Hr]].
    etransitivity; [|exact E].
    unfold create_all_diagrams, create_virtuallist_architecture,
      create_canvas_architecture, create_reactive_engine_architecture,
      create_spreadsheet_architecture, create_charts_architecture, create.
    rewrite Himport. unfold bind, mkdir, ret, log. cbv beta. now rewrite Hmk.
Qed.

End GenerateDiagramsRender.

(** X22.  generate_diagrams.py: with the [graphviz] module at hand,
    [create_all_diagrams] raises what making the directory raises -
    FileExistsError where a file stands at its path - and renders
    nothing then.  When the directory can be made, it returns the
    paths of the diagrams whose rendering raised no exception, in the
    order virtuallist, canvas, reactive-engine, spreadsheet, charts,
    each made by [os.path.join] with [.png] added: a rendering that
    raises is reported and skipped and does not stop the ones after
    it.  Each diagram rendered has its image at the path returned, the
    source of its graph is gone, and the files that are no image and
    no source of the five diagrams are as they were. *)
Theorem render_failures_are_skipped (e : GenerateDiagrams.env)
    (output_dir : str) (w : IO.world) :
  GenerateDiagrams.graphviz_importable e = true ->
  let rendered :=
    fun name =>
      match GenerateDiagrams.render_error e
              (GenerateDiagrams.path_join output_dir name) with
      | None => true
      | Some _ => false
      end in
  match GenerateDiagrams.mkdir_raises e w output_dir with
  | Some exn => GenerateDiagrams.create_all_diagrams e output_dir w = (IO.Raised exn, w)
  | None =>
      exists w',
        GenerateDiagrams.create_all_diagrams e output_dir w
        = (IO.Ok (map (fun name => GenerateDiagrams.path_join output_dir name ++ py ".png")
                      (filter rendered
                              [ py "virtuallist-architecture"; py "canvas-architecture";
                                py "reactive-engine-architecture";
                                py "spreadsheet-architecture";
                                py "charts-architecture" ])),
           w')
        /\ (forall name d,
               In (name, d) GenerateDiagrams.diagrams -> rendered name = true ->
               IO.files w' (GenerateDiagrams.path_join output_dir name ++ py ".png")
               = Some (GenerateDiagrams.image e d)
               /\ IO.files w' (GenerateDiagrams.path_join output_dir name) = None)
        /\ (forall p, GenerateDiagrams.is_render_path output_dir p = false ->
                      IO.files w' p = IO.files w p)
  end.
Proof.
  intros Himport rendered.
  pose proof (create_all_diagrams_built e output_dir w Himport) as H.
  destruct (GenerateDiagrams.mkdir_raises e w output_dir) as [exn|]; [exact H |].
  destruct H as (evs & E & _ & _).
  eexists. split; [exact E |]. cbn [IO.files]. split.
  - destruct (path_join_prefix output_dir) as (pre & Hpre).
    destruct diagram_names_apart as (Hnodup & Hapart & Hrelative).
    intros name d Hin Hok. subst rendered. cbn beta in Hok.
    apply (after_renders_rendered e output_dir pre GenerateDiagrams.diagrams);
      [| exact Hnodup | exact Hapart | exact Hin |].
    + intros n Hn. apply Hpre. now apply Hrelative.
    + destruct (GenerateDiagrams.render_error e _); [discriminate Hok | reflexivity].
  - intros p Hp. now apply after_renders_other.
Qed.

Lemma render_failures_are_skipped_witness :
  exists w',
    GenerateDiagrams.create_all_diagrams GenerateDiagrams.canvas_fails (py "diagrams")
      (IO.mkWorld (fun _ => None) [])
    = (IO.Ok [ py "diagrams/virtuallist-architecture.png";
               py "diagrams/reactive-engine-architecture.png";
               py "diagrams/spreadsheet-architecture.png";
               py "diagrams/charts-architecture.png" ],
       w')
    /\ IO.files w' (py "diagrams/charts-architecture.png") = Some (py "PNG of Real-time Charts")
    /\ IO.files w' (py "diagrams/canvas-architecture.png") = None
    /\ IO.files w' (py "diagrams/canvas-architecture") = Some (py "// Canvas Architecture").
Proof.
  destruct (render_failures_are_skipped GenerateDiagrams.canvas_fails (py "diagrams")
              (IO.mkWorld (fun _ => None) []) eq_refl) as (w' & E & Himg & _).
  exists w'. split; [exact E |].
  split; [exact (proj1 (Himg (py "charts-architecture") _
                          ltac:(do 4 right; left; reflexivity) eq_refl)) |].
  vm_compute in E. injection E as <-. split; reflexivity.
Defined.

(* ------------------------------------------------------------------ *)
(** ** generate_diagrams.py: [main] and the Markdown file *)

Section GenerateDiagramsMain.
Import IO GenerateDiagrams.

(** With Graphviz installed [main] makes the directory; it raises
    what this raises, or renders and comes to the command line. *)
Lemma main_generates (e : env) (w : world) :
  graphviz_importable e = true -> which_dot e = 0%Z ->
  match mkdir_raises e w (py "diagrams") with
  | Some exn =>
      exists msgs, main e w = (Raised exn, mkWorld (files w) (trace w ++ map Print msgs))
  | None =>
      exists (generated : list str) (evs : list event),
        forallb (fun ev => negb (opens_file ev)) evs = true
        /\ In (Mkdir (py "diagrams")) evs
        /\ (forall name, In name diagram_names ->
                         In (Render (path_join (py "diagrams") name)) evs)
        /\ main e w
           = (print ([NL] ++ py "Generated " ++ str_of_nat (length generated)
                     ++ py " diagrams") ;;;
              match argv e with
              | _ :: markdown_file :: rest_args =>
                  let output_file :=
                    match rest_args with f :: _ => Some f | [] => None end in
                  print ([NL] ++ py "Processing markdown file: " ++ markdown_file) ;;;
                  replace_ascii_diagrams_with_images e markdown_file output_file
                                                     (py "diagrams")
              | _ =>
                  print ([NL] ++ py "To insert diagrams into markdown:") ;;;
                  print (py "  python3 generate_diagrams.py <input.md> [output.md]")
              end)
             (mkWorld (fold_left (fun fs it =>
                                    after_render e (snd it)
                                                 (path_join (py "diagrams") (fst it)) fs)
                                 diagrams (files w))
                      (trace w ++ evs))
  end.
Proof.
  intros Himport Hdot.
  set (w4 := mkWorld (files w)
               (trace w ++ [ Print (repeat (chr "=") 60); Print (py "Diagram Generation Tool");
                             Print (repeat (chr "=") 60);
                             Print ([NL] ++ py "Generating diagrams...") ])).
  assert (Hmain : main e w
                  = (generated <- create_all_diagrams e (py "diagrams") ;;
                     print ([NL] ++ py "Generated " ++ str_of_nat (length generated)
                            ++ py " diagrams") ;;;
                     match argv e with
                     | _ :: markdown_file :: rest_args =>
                         let output_file :=
                           match rest_args with f :: _ => Some f | [] => None end in
                         print ([NL] ++ py "Processing markdown file: " ++ markdown_file) ;;;
                         replace_ascii_diagrams_with_images e markdown_file output_file
                                                            (py "diagrams")
                     | _ =>
                         print ([NL] ++ py "To insert diagrams into markdown:") ;;;
                         print (py "  python3 generate_diagrams.py <input.md> [output.md]")
                     end) w4).
  { unfold main, install_dependencies. rewrite Himport, Hdot.
    cbn [negb Z.eqb]. unfold bind at 1 2 3 4, print at 1 2 3, log, ret.
    cbn [negb files trace]. unfold bind at 1. unfold print at 1, log. cbn [files trace].
    subst w4. now rewrite <- !app_assoc. }
  pose proof (create_all_diagrams_built e (py "diagrams") w4 Himport) as Hcreate.
  change (mkdir_raises e w4 (py "diagrams")) with (mkdir_raises e w (py "diagrams"))
    in Hcreate.
  destruct (mkdir_raises e w (py "diagrams")) as [exn|].
  - eexists [_; _; _; _]. rewrite Hmain. unfold bind at 1. now rewrite Hcreate.
  - destruct Hcreate as (evs & E & Hq & Hr).
    eexists _, (Print (repeat (chr "=") 60) :: Print (py "Diagram Generation Tool")
                :: Print (repeat (chr "=") 60)
                :: Print ([NL] ++ py "Generating diagrams...")
                :: Mkdir (py "diagrams") :: evs).
    split; [|split; [|split]].
    + cbn [forallb opens_file negb andb]. exact Hq.
    + do 4 right. now left.
    + intros name Hname. do 5 right. now apply Hr.
    + rewrite Hmain. unfold bind at 1. rewrite E. cbn [files trace].
      subst w4. cbn [files trace]. now rewrite <- !app_assoc.
Qed.

Lemma for_each_print (ls : list str) :
  forall w, for_each ls print w = (Ok tt, mkWorld (files w) (trace w ++ map Print ls)).
Proof.
  induction ls as [|l ls IH]; intros w; cbn [for_each map].
  - unfold ret. rewrite app_nil_r. now destruct w.
  - unfold bind, print, log. rewrite IH. cbn [files trace]. now rewrite <- app_assoc.
Qed.

Lemma filter_no_open (evs : list event) :
  forallb (fun ev => negb (opens_file ev)) evs = true -> filter opens_file evs = [].
Proof.
  induction evs as [|ev evs IH]; cbn [forallb filter]; [reflexivity |].
  intros H. apply andb_prop in H as [H1 H2]. apply negb_true_iff in H1.
  rewrite H1. now apply IH.
Qed.

Lemma forallb_prints (ls : list str) :
  forallb (fun ev => negb (opens_file ev)) (map Print ls) = true.
Proof. induction ls as [|l ls IH]; [reflexivity | exact IH]. Qed.

End GenerateDiagramsMain.



(** X24.  generate_diagrams.py: the Markdown file named on the command
    line is opened only after the diagrams are made.  When it does not
    exist, [main] has made the directory and called [render] for the
    five diagrams before it raises FileNotFoundError; it has called
    [open] on no other file, and the only files changed are those the
    renderings write to. *)
Theorem main_with_missing_markdown_file (e : GenerateDiagrams.env) (w : IO.world)
    (prog markdown_file : str) (rest_args : list str) :
  GenerateDiagrams.graphviz_importable e = true ->
  GenerateDiagrams.which_dot e = 0%Z ->
  GenerateDiagrams.argv e = prog :: markdown_file :: rest_args ->
  GenerateDiagrams.mkdir_raises e w (py "diagrams") = None ->
  IO.files w markdown_file = None ->
  GenerateDiagrams.is_render_path (py "diagrams") markdown_file = false ->
  GenerateDiagrams.read_error e markdown_file = None ->
  exists files' events,
    GenerateDiagrams.main e w
    = (IO.Raised (py "FileNotFoundError"), IO.mkWorld files' (IO.trace w ++ events))
    /\ In (IO.Mkdir (py "diagrams")) events
    /\ (forall name, In name GenerateDiagrams.diagram_names ->
                     In (IO.Render (GenerateDiagrams.path_join (py "diagrams") name))
                        events)
    /\ forallb (fun ev => negb (IO.opens_file ev)) events = true
    /\ (forall p, GenerateDiagrams.is_render_path (py "diagrams") p = false ->
                  files' p = IO.files w p).
Proof.
  intros Himport Hdot Hargv Hmk Hfile Hpath Hread.
  pose proof (main_generates e w Himport Hdot) as H. rewrite Hmk in H.
  destruct H as (generated & evs & Hq & Hmkdir & Hrender & ->).
  rewrite Hargv.
  unfold IO.bind at 1, IO.print at 1, IO.log. cbn [IO.files IO.trace].
  unfold IO.bind at 1, IO.print at 1, IO.log. cbn [IO.files IO.trace].
  unfold GenerateDiagrams.replace_ascii_diagrams_with_images.
  unfold IO.bind at 1, IO.read_lines. cbn [IO.files IO.trace].
  rewrite Hread, (after_renders_other e (py "diagrams") markdown_file) by exact Hpath.
  rewrite Hfile.
  eexists _, (evs ++ [_; _]). split; [rewrite <- !app_assoc; reflexivity |].
  split; [apply in_or_app; now left |].
  split; [intros name Hname; apply in_or_app; left; now apply Hrender |].
  split; [rewrite forallb_app, Hq; reflexivity |].
  intros p Hp. now apply after_renders_other.
Qed.

Lemma main_with_missing_markdown_file_witness :
  exists files' events,
    GenerateDiagrams.main GenerateDiagrams.with_input (IO.mkWorld (fun _ => None) [])
    = (IO.Raised (py "FileNotFoundError"), IO.mkWorld files' ([] ++ events))
    /\ In (IO.Mkdir (py "diagrams")) events
    /\ (forall name, In name GenerateDiagrams.diagram_names ->
                     In (IO.Render (GenerateDiagrams.path_join (py "diagrams") name))
                        events)
    /\ forallb (fun ev => negb (IO.opens_file ev)) events = true
    /\ (forall p, GenerateDiagrams.is_render_path (py "diagrams") p = false ->
                  files' p = None).
Proof.
  exact (main_with_missing_markdown_file GenerateDiagrams.with_input
           (IO.mkWorld (fun _ => None) []) (py "generate_diagrams.py") (py "input.md") []
           eq_refl eq_refl eq_refl eq_refl eq_refl eq_refl eq_refl).
Defined.

(** X25.  generate_diagrams.py: with Graphviz installed, a directory
    that can be made, a Markdown file that exists and can be read and
    an output file that can be written, [main] calls [open] twice: it
    reads the Markdown file once and, after the loop, writes the lines
    the loop has made once - to the output file when the command line
    names one, over the Markdown file itself when it does not.  The
    output file holds these lines in the end; the other files changed
    are those the renderings write to, the images and graph sources
    of the five diagrams in [diagrams]. *)
Theorem main_rewrites_markdown_file (e : GenerateDiagrams.env) (w : IO.world)
    (prog markdown_file : str) (rest_args : list str) (text : str) :
  let output_file := match rest_args with f :: _ => f | [] => markdown_file end in
  let written :=
    writelines (GenerateDiagrams.modified_lines
                  (GenerateDiagrams.run_loop (py "diagrams") (readlines text))) in
  GenerateDiagrams.graphviz_importable e = true ->
  GenerateDiagrams.which_dot e = 0%Z ->
  GenerateDiagrams.argv e = prog :: markdown_file :: rest_args ->
  GenerateDiagrams.mkdir_raises e w (py "diagrams") = None ->
  IO.files w markdown_file = Some text ->
  GenerateDiagrams.is_render_path (py "diagrams") markdown_file = false ->
  GenerateDiagrams.read_error e markdown_file = None ->
  GenerateDiagrams.write_error e output_file = None ->
  exists files' events,
    GenerateDiagrams.main e w = (IO.Ok tt, IO.mkWorld files' (IO.trace w ++ events))
    /\ filter IO.opens_file events
       = [IO.ReadFile markdown_file; IO.WriteFile output_file written]
    /\ files' output_file = Some written
    /\ (forall p, p <> output_file ->
                  GenerateDiagrams.is_render_path (py "diagrams") p = false ->
                  files' p = IO.files w p).
Proof.
  intros output_file written Himport Hdot Hargv Hmk Hfile Hpath Hread Hwrite.
  pose proof (main_generates e w Himport Hdot) as H. rewrite Hmk in H.
  destruct H as (generated & evs & Hq & Hmkdir & Hrender & ->).
  rewrite Hargv.
  unfold IO.bind at 1, IO.print at 1, IO.log. cbn [IO.files IO.trace].
  unfold IO.bind at 1, IO.print at 1, IO.log. cbn [IO.files IO.trace].
  unfold GenerateDiagrams.replace_ascii_diagrams_with_images.
  unfold IO.bind at 1, IO.read_lines. cbn [IO.files IO.trace].
  rewrite Hread, (after_renders_other e (py "diagrams") markdown_file) by exact Hpath.
  rewrite Hfile.
  unfold IO.bind at 1. rewrite for_each_print. cbn [IO.files IO.trace].
  unfold IO.bind at 1, IO.write_lines.
  replace (GenerateDiagrams.write_error e
             match match rest_args with f :: _ => Some f | [] => None end with
             | Some f => f
             | None => markdown_file
             end) with (@None str)
    by (symmetry; subst output_file; destruct rest_args; exact Hwrite).
  cbn [IO.files IO.trace].
  unfold IO.bind at 1, IO.print at 1, IO.log. cbn [IO.files IO.trace].
  unfold IO.print, IO.log. cbn [IO.files IO.trace].
  replace (match match rest_args with f :: _ => Some f | [] => None end with
           | Some f => f
           | None => markdown_file
           end) with output_file by (subst output_file; now destruct rest_args).
  fold written.
  eexists _, (evs ++ [_; _] ++ [_] ++ map IO.Print _ ++ [_; _; _]).
  split; [rewrite <- !app_assoc; cbn [app]; reflexivity |].
  split; [|split].
  - rewrite !filter_app, filter_no_open, (filter_no_open (map IO.Print _))
      by (exact Hq || apply forallb_prints).
    reflexivity.
  - cbv beta. now rewrite str_eqb_refl.
  - intros p Hne Hp. cbv beta.
    destruct (str_eqb p output_file) eqn:E; [apply str_eqb_eq in E; now contradiction Hne |].
    now apply after_renders_other.
Qed.

Lemma main_rewrites_markdown_file_witness :
  exists files' events,
    GenerateDiagrams.main GenerateDiagrams.with_input
      (IO.mkWorld (GenerateDiagrams.only_input (py "# Notes" ++ [NL])) [])
    = (IO.Ok tt, IO.mkWorld files' ([] ++ events))
    /\ filter IO.opens_file events
       = [IO.ReadFile (py "input.md");
          IO.WriteFile (py "input.md") (py "# Notes" ++ [NL])]
    /\ files' (py "input.md") = Some (py "# Notes" ++ [NL])
    /\ (forall p, p <> py "input.md" ->
                  GenerateDiagrams.is_render_path (py "diagrams") p = false ->
                  files' p = GenerateDiagrams.only_input (py "# Notes" ++ [NL]) p).
Proof.
  exact (main_rewrites_markdown_file GenerateDiagrams.with_input
           (IO.mkWorld (GenerateDiagrams.only_input (py "# Notes" ++ [NL])) [])
           (py "generate_diagrams.py") (py "input.md") [] (py "# Notes" ++ [NL])
           eq_refl eq_refl eq_refl eq_refl eq_refl eq_refl eq_refl eq_refl).
Defined.

(* ------------------------------------------------------------------ *)
(** ** generate_diagrams.py: the lines the loop writes *)

Section GenerateDiagramsLines.
Import IO GenerateDiagrams.
Variable diagram_dir : str.
Variable lines : list str.

Lemma dict_find_In (k : str) (d : list (str * str)) (k' v : str) :
  dict_find k d = Some (k', v) -> In v (map snd d).
Proof.
  induction d as [|[k0 v0] d IH]; cbn [dict_find map snd]; [discriminate |].
  destruct (str_eqb k k0); [intros [= _ <-]; now left | intros H; right; now apply IH].
Qed.

Lemma known_blank (j : nat) (b : bool) :
  Forall (known_line diagram_dir lines) (if (j <? length lines) && b then [nth j lines []] else []).
Proof.
  destruct (Nat.ltb_spec j (length lines)) as [H | H]; cbn [andb]; [|constructor].
  destruct b; constructor; [left; now apply nth_In | constructor].
Qed.

Lemma at_heading_inv (line : str) (v : vars) :
  loop_invariant diagram_dir lines v -> loop_invariant diagram_dir lines (at_heading diagram_dir lines line v).
Proof.
  intros [Hm Hs]. unfold at_heading.
  destruct (dict_find (strip line) primary_insertions) as [[heading diagram]|] eqn:E;
    [|now split].
  apply dict_find_In in E. split; cbn [modified_lines current_section].
  - apply Forall_app. split; [exact Hm |]. apply Forall_app. split.
    + pose proof (known_blank (i v + 1) (is_blank (nth (i v + 1) lines []))) as K.
      destruct (_ && _); exact K.
    + constructor; [right; now exists diagram | constructor].
  - intros section [= <-]. exact E.
Qed.

Lemma at_overview_inv (line : str) (v : vars) :
  loop_invariant diagram_dir lines v -> loop_invariant diagram_dir lines (at_overview diagram_dir lines line v).
Proof.
  intros [Hm Hs]. unfold at_overview.
  destruct (current_section v) as [section|] eqn:E;
    [|split; [exact Hm | rewrite E; exact Hs]].
  destruct (negb (in_code_block v) && _); [|split; [exact Hm | rewrite E; exact Hs]].
  assert (K : Forall (known_line diagram_dir lines)
                (modified_lines v
                 ++ (if (i v + 1 <? length lines) && is_blank (nth (i v + 1) lines [])
                     then [nth (if (i v + 1 <? length lines)
                                    && is_blank (nth (i v + 1) lines [])
                                then i v + 1 else i v) lines []]
                     else [])
                 ++ [diagram_text diagram_dir section])).
  { apply Forall_app. split; [exact Hm |]. apply Forall_app. split.
    - pose proof (known_blank (i v + 1) (is_blank (nth (i v + 1) lines []))) as K.
      destruct (_ && _); exact K.
    - constructor; [right; exists section; split; [now apply Hs | reflexivity]
                   | constructor]. }
  destruct (ascii_block_after lines _); split; cbn [modified_lines current_section];
    try exact K; intros s [= <-]; now apply Hs.
Qed.

Lemma step_inv (v : vars) :
  i v < length lines -> loop_invariant diagram_dir lines v -> loop_invariant diagram_dir lines (step diagram_dir lines v).
Proof.
  intros Hi [Hm Hs].
  assert (Happend : forall b,
             loop_invariant diagram_dir lines (mkVars (i v) (current_section v)
                         (modified_lines v ++ [nth (i v) lines []])
                         (inserted_count v) (removed_count v) b
                         (skip_until_code_end v) (printed v))).
  { intros b. split; cbn [modified_lines current_section]; [|exact Hs].
    apply Forall_app. split; [exact Hm |].
    constructor; [left; now apply nth_In | constructor]. }
  assert (Hafter : forall b,
             loop_invariant diagram_dir lines (after_append diagram_dir lines (nth (i v) lines [])
                    (mkVars (i v) (current_section v)
                            (modified_lines v ++ [nth (i v) lines []])
                            (inserted_count v) (removed_count v) b
                            (skip_until_code_end v) (printed v)))).
  { intros b. unfold after_append.
    destruct (at_overview_inv (nth (i v) lines []) _
                (at_heading_inv (nth (i v) lines []) _ (Happend b))) as [H1 H2].
    split; [exact H1 | exact H2]. }
  unfold step.
  cbn [i current_section modified_lines inserted_count removed_count
       in_code_block skip_until_code_end printed].
  repeat match goal with
         | |- loop_invariant _ _ (if ?c then _ else _) => destruct c
         | |- loop_invariant _ _ (match ?c with Some _ => _ | None => _ end) => destruct c
         end;
    try apply Hafter; split; cbn [modified_lines current_section next]; assumption.
Qed.

Lemma while_loop_inv :
  forall fuel v, loop_invariant diagram_dir lines v -> loop_invariant diagram_dir lines (while_loop fuel diagram_dir lines v).
Proof.
  induction fuel as [|fuel IH]; intros v Hv; cbn [while_loop]; [exact Hv |].
  destruct (Nat.ltb_spec (i v) (length lines)); [|exact Hv].
  now apply IH, step_inv.
Qed.

Lemma run_loop_known : Forall (known_line diagram_dir lines) (modified_lines (run_loop diagram_dir lines)).
Proof.
  apply while_loop_inv. split; [constructor | discriminate].
Qed.

End GenerateDiagramsLines.

(** X26.  generate_diagrams.py: the loop of
    [replace_ascii_diagrams_with_images] invents no text.  Every line
    it writes is a line of the input or the image link
    [![Architecture Diagram](<dir>/<name>.png)] of one of the five
    diagrams. *)
Theorem written_lines_are_input_or_links (diagram_dir : str) (lines : list str) :
  Forall (fun l =>
            In l lines
            \/ exists diagram,
                 In diagram [ py "virtuallist-architecture.png";
                              py "canvas-architecture.png";
                              py "reactive-engine-architecture.png";
                              py "spreadsheet-architecture.png";
                              py "charts-architecture.png" ]
                 /\ l = [NL] ++ py "![Architecture Diagram](" ++ diagram_dir ++ py "/"
                        ++ diagram ++ py ")" ++ [NL; NL])
         (GenerateDiagrams.modified_lines (GenerateDiagrams.run_loop diagram_dir lines)).
Proof. exact (run_loop_known diagram_dir lines). Qed.
